(** * A shallow embedding of the viewer's arena allocator (src/native/viewer/arena.c)

    The allocator is modelled on an LP64 target: [size_t] and pointers are
    64-bit, held in [Z] with the wrap-around written out.  Pointers are
    addresses; [0] is [NULL]. *)

From Stdlib Require Import ZArith Lia List Bool.
From stdpp Require Import base option list gmap.

Local Open Scope Z_scope.

(** ** Machine integers *)

Definition SIZE_MAX : Z := 2 ^ 64 - 1.

(** Arithmetic on [size_t] wraps modulo 2^64. *)
Definition wrap (z : Z) : Z := z mod 2 ^ 64.

(** ** Constants of arena.c *)

Definition ARENAIMP_MAGIC_FREE  : Z := 0x65657266.
Definition ARENAIMP_MAGIC_ARENA : Z := 0x6e657261.
Definition ARENAIMP_MAGIC_DEFER : Z := 0x66656461.

Definition arenaimp_size_classes : list Z :=
  [2; 3; 4; 6; 10; 14; 18; 26; 34; 56].

Definition arenaimp_size_to_class : list Z :=
  [0; 0; 0; 1; 2; 3; 3; 4; 4; 4; 4; 5; 5; 5; 5; 6; 6; 6; 6;
   7; 7; 7; 7; 7; 7; 7; 7; 8; 8; 8; 8; 8; 8; 8; 8; 9; 9; 9;
   9; 9; 9; 9; 9; 9; 9; 9; 9; 9; 9; 9; 9; 9; 9; 9; 9; 9; 9].

Definition ARENAIMP_SIZECLASS_QUANTIZATION : Z := 8.
Definition ARENAIMP_NUM_SIZECLASSES : Z := Z.of_nat (length arenaimp_size_classes).
Definition ARENAIMP_LARGEST_SIZECLASS : Z := 448.
Definition ARENAIMP_FIRST_PAGE_SIZE : Z := 512.
Definition ARENAIMP_MAX_PAGE_SIZE : Z := 4096.

(** [sizeof] of the structures on LP64. *)
Definition sizeof_ptr : Z := 8.
Definition sizeof_common_header : Z := 8.
Definition sizeof_small_header : Z := 8.
Definition sizeof_big_header : Z := 24.
Definition sizeof_defer_slot : Z := 32.
Definition sizeof_defer_header : Z := 16.
Definition sizeof_arenaimp_t : Z := 224.
Definition offsetof_big_head : Z := 88.
Definition offsetof_big_tail : Z := 112.

Definition ARENAIMP_INIT_SIZE : Z := 512.
Definition ARENAIMP_EXTRA_SIZE : Z := 512 - sizeof_arenaimp_t.

(** ** Size-class table *)

(** A C array read; the tables are only ever indexed in range. *)
Definition table_get (t : list Z) (i : Z) : Z :=
  default 0 (t !! Z.to_nat i).

(** [quantized] as computed in [aalloc_uninit_size] and [afree]. *)
Definition quantize (total_small : Z) : Z :=
  wrap (total_small + ARENAIMP_SIZECLASS_QUANTIZATION - 1)
    / ARENAIMP_SIZECLASS_QUANTIZATION.

Definition sizeclass_of (total_small : Z) : Z :=
  table_get arenaimp_size_to_class (quantize total_small).

(** [chunk] as computed in [aalloc_uninit_size]: the bucket size in bytes. *)
Definition chunk_of (sizeclass : Z) : Z :=
  wrap (table_get arenaimp_size_classes sizeclass * ARENAIMP_SIZECLASS_QUANTIZATION).

(** The request rounded up to the quantization. *)
Definition round_up_8 (n : Z) : Z := (n + 7) / 8 * 8.

Definition class_ok_at (q : Z) : bool :=
  let c := table_get arenaimp_size_to_class q in
  (0 <=? c) && (c <? ARENAIMP_NUM_SIZECLASSES)
  && (8 * q <=? chunk_of c)
  && forallb (fun c' => implb (8 * q <=? chunk_of c') (chunk_of c <=? chunk_of c'))
       (map Z.of_nat (seq 0 (length arenaimp_size_classes))).

Definition class_mono_at (q : Z) : bool :=
  table_get arenaimp_size_to_class q <=? table_get arenaimp_size_to_class (q + 1).

Definition chunk_strict_at (c : Z) : bool :=
  chunk_of c <? chunk_of (c + 1).

(** ** Program state

    Memory is kept in three views.  [mem] holds the 8-byte words the allocator
    itself reads and writes through header pointers (capacity / next_free
    words, the prev / next links of big headers, the two words of a defer
    header).  [bytes] holds payload bytes.  [arenas] holds each [arenaimp_t]
    as a record, keyed by its address; its two embedded ring sentinels
    [big_head] and [big_tail] live in [mem] at their offsets inside the
    structure.

    The three views do not alias: a payload write never changes a header
    word, and the slot table is part of the record.  This describes the
    program as long as no two blocks overlap.  The allocator does hand out
    overlapping blocks (the first block of a grown page, once recycled), and
    what the program does then is given by [Flat] below, which keeps
    everything in one memory of bytes. *)

(** An [arena_defer_fn*]: [NULL], [&arenaimp_defer_free_arena], or a
    finalizer of the caller, which the model treats as opaque. *)
Inductive defer_fn :=
  | FnNull
  | FnFreeArena
  | FnUser (id : nat).

Record arenaimp_defer_slot := mk_slot {
  fn : defer_fn;
  user : Z;
  prev : Z;
  next : Z;
}.

Record arenaimp_t := mk_arena {
  magic : Z;
  page : Z;
  pos : Z;
  size : Z;
  parent : Z;
  parent_slot : Z;
  next_size : Z;
  defers : Z;                              (* the pointer *)
  defer_tab : list arenaimp_defer_slot;    (* the array it points to *)
  num_defers : Z;
  active_defer_head : Z;
  free_defer_head : Z;
  next_free : list Z;
  allocated : bool;
}.

(** What the outside world sees, plus two ghost events that mark the entry
    of [arena_free] and the call of a caller's finalizer. *)
Inductive event :=
  | EvMalloc (bytes result : Z)
  | EvFree (p : Z)
  | EvCall (id : nat) (user : Z)
  | EvDestroy (arena : Z).

Record state := mk_state {
  arenas : gmap Z arenaimp_t;
  mem : gmap Z Z;
  bytes : Z -> Z;
  live : gset Z;        (* blocks handed out by malloc and not yet freed *)
  oracle : list Z;      (* what the next calls of malloc return; 0 is failure *)
  trace : list event;   (* most recent event last *)
  ndebug : bool;        (* true when assert() is compiled out *)
}.

Inductive outcome (A : Type) :=
  | Ok (v : A) (s : state)
  | AssertFail          (* an assert() fired *)
  | Fault               (* undefined behaviour: wild read, NULL call, bad free *)
  | OutOfFuel.
Arguments Ok {A} v s.
Arguments AssertFail {A}.
Arguments Fault {A}.
Arguments OutOfFuel {A}.

Definition M (A : Type) : Type := state -> outcome A.

Definition ret {A} (v : A) : M A := fun s => Ok v s.

Definition bind {A B} (m : M A) (k : A -> M B) : M B :=
  fun s => match m s with
           | Ok v s' => k v s'
           | AssertFail => AssertFail
           | Fault => Fault
           | OutOfFuel => OutOfFuel
           end.

Notation "'let*' x ':=' m 'in' k" := (bind m (fun x => k))
  (at level 10, x name, m at level 100, k at level 200).
Notation "m ;; k" := (bind m (fun _ => k))
  (at level 100, k at level 200, right associativity).

Definition fault {A} : M A := fun _ => Fault.
Definition out_of_fuel {A} : M A := fun _ => OutOfFuel.

Definition assert_ (c : bool) : M unit :=
  fun s => if ndebug s then Ok tt s else if c then Ok tt s else AssertFail.

Definition emit (e : event) : M unit :=
  fun s => Ok tt (mk_state (arenas s) (mem s) (bytes s) (live s) (oracle s)
                           (trace s ++ [e]) (ndebug s)).

Definition load (p : Z) : M Z :=
  fun s => match mem s !! p with Some v => Ok v s | None => Fault end.

Definition store (p v : Z) : M unit :=
  fun s => Ok tt (mk_state (arenas s) (<[p := v]> (mem s)) (bytes s) (live s)
                           (oracle s) (trace s) (ndebug s)).

Definition get_arena (a : Z) : M arenaimp_t :=
  fun s => match arenas s !! a with Some r => Ok r s | None => Fault end.

Definition put_arena (a : Z) (r : arenaimp_t) : M unit :=
  fun s => Ok tt (mk_state (<[a := r]> (arenas s)) (mem s) (bytes s) (live s)
                           (oracle s) (trace s) (ndebug s)).

Definition set_bytes (f : (Z -> Z) -> Z -> Z) : M unit :=
  fun s => Ok tt (mk_state (arenas s) (mem s) (f (bytes s)) (live s)
                           (oracle s) (trace s) (ndebug s)).

(** [malloc]: the result is taken from the oracle. *)
Definition malloc (n : Z) : M Z :=
  fun s =>
    let r := match oracle s with [] => 0 | r :: _ => r end in
    Ok r (mk_state (arenas s) (mem s) (bytes s)
                   (if r =? 0 then live s else {[ r ]} ∪ live s)
                   (tail (oracle s)) (trace s ++ [EvMalloc n r]) (ndebug s)).

(** [free]: freeing what is not a live malloc block is undefined. *)
Definition free (p : Z) : M unit :=
  fun s =>
    if decide (p ∈ live s) then
      Ok tt (mk_state (arenas s) (mem s) (bytes s) (live s ∖ {[ p ]})
                      (oracle s) (trace s ++ [EvFree p]) (ndebug s))
    else Fault.

Definition memcpy_bytes (dst src n : Z) (b : Z -> Z) : Z -> Z :=
  fun x => if (dst <=? x) && (x <? dst + n) then b (src + (x - dst)) else b x.

Definition memset_bytes (dst n : Z) (b : Z -> Z) : Z -> Z :=
  fun x => if (dst <=? x) && (x <? dst + n) then 0 else b x.

(** [memcpy] / [memset] through a NULL pointer with a non-zero length fault. *)
Definition memcpy (dst src n : Z) : M unit :=
  if (n =? 0) then ret tt
  else if (dst =? 0) || (src =? 0) then fault
  else set_bytes (memcpy_bytes dst src n).

Definition memset0 (dst n : Z) : M unit :=
  if (n =? 0) then ret tt
  else if (dst =? 0) then fault
  else set_bytes (memset_bytes dst n).

(** [arenaimp_copy] *)
Definition arenaimp_copy (dst src n : Z) : M unit :=
  if negb (src =? 0) then memcpy dst src n else memset0 dst n.

(** Field updates of [arenaimp_t]. *)
Definition with_magic (v : Z) (a : arenaimp_t) : arenaimp_t :=
  mk_arena v (page a) (pos a) (size a) (parent a) (parent_slot a) (next_size a)
    (defers a) (defer_tab a) (num_defers a) (active_defer_head a)
    (free_defer_head a) (next_free a) (allocated a).
Definition with_page (pg ps sz : Z) (a : arenaimp_t) : arenaimp_t :=
  mk_arena (magic a) pg ps sz (parent a) (parent_slot a) (next_size a)
    (defers a) (defer_tab a) (num_defers a) (active_defer_head a)
    (free_defer_head a) (next_free a) (allocated a).
Definition with_pos (ps : Z) (a : arenaimp_t) : arenaimp_t :=
  with_page (page a) ps (size a) a.
Definition with_parent (p slot : Z) (a : arenaimp_t) : arenaimp_t :=
  mk_arena (magic a) (page a) (pos a) (size a) p slot (next_size a)
    (defers a) (defer_tab a) (num_defers a) (active_defer_head a)
    (free_defer_head a) (next_free a) (allocated a).
Definition with_next_size (v : Z) (a : arenaimp_t) : arenaimp_t :=
  mk_arena (magic a) (page a) (pos a) (size a) (parent a) (parent_slot a) v
    (defers a) (defer_tab a) (num_defers a) (active_defer_head a)
    (free_defer_head a) (next_free a) (allocated a).
Definition with_defers (p : Z) (t : list arenaimp_defer_slot) (n : Z)
    (a : arenaimp_t) : arenaimp_t :=
  mk_arena (magic a) (page a) (pos a) (size a) (parent a) (parent_slot a)
    (next_size a) p t n (active_defer_head a)
    (free_defer_head a) (next_free a) (allocated a).
Definition with_defer_tab (t : list arenaimp_defer_slot) (a : arenaimp_t) :=
  with_defers (defers a) t (num_defers a) a.
Definition with_heads (act fre : Z) (a : arenaimp_t) : arenaimp_t :=
  mk_arena (magic a) (page a) (pos a) (size a) (parent a) (parent_slot a)
    (next_size a) (defers a) (defer_tab a) (num_defers a) act fre
    (next_free a) (allocated a).
Definition with_next_free (l : list Z) (a : arenaimp_t) : arenaimp_t :=
  mk_arena (magic a) (page a) (pos a) (size a) (parent a) (parent_slot a)
    (next_size a) (defers a) (defer_tab a) (num_defers a) (active_defer_head a)
    (free_defer_head a) l (allocated a).
Definition with_allocated (b : bool) (a : arenaimp_t) : arenaimp_t :=
  mk_arena (magic a) (page a) (pos a) (size a) (parent a) (parent_slot a)
    (next_size a) (defers a) (defer_tab a) (num_defers a) (active_defer_head a)
    (free_defer_head a) (next_free a) b.

(** The all-zero structure left by [memset(a, 0, sizeof(arenaimp_t))]. *)
Definition arena_zero : arenaimp_t :=
  mk_arena 0 0 0 0 0 0 0 0 [] 0 0 0 (replicate 10 0) false.

(** Addresses inside an [arenaimp_big_header]. *)
Definition big_prev (h : Z) : Z := h.
Definition big_next (h : Z) : Z := h + 8.
Definition big_capacity (h : Z) : Z := h + 16.
Definition big_head (a : Z) : Z := a + offsetof_big_head.
Definition big_tail (a : Z) : Z := a + offsetof_big_tail.

(** ** Allocation *)

Definition nonnull (p : Z) : bool := negb (p =? 0).

(** The big-object branch of [aalloc_uninit_size]: the block is linked right
    after [big_head]. *)
Definition aalloc_big (arena total : Z) : M Z :=
  let* alloc := malloc (wrap (sizeof_big_header + total)) in
  assert_ (nonnull alloc);;
  if alloc =? 0 then ret 0 else
  let head := big_head arena in
  let* next := load (big_next head) in
  store (big_prev alloc) head;;
  store (big_next alloc) next;;
  store (big_capacity alloc) total;;
  store (big_prev next) alloc;;
  store (big_next head) alloc;;
  ret (alloc + sizeof_big_header).

Fixpoint aalloc_uninit_size (fuel : nat) (arena sz count : Z) : M Z :=
  match fuel with
  | O => out_of_fuel
  | S fuel' =>
    let total := wrap (sz * count) in
    if arena =? 0 then
      let total_alloc := wrap (sizeof_common_header + total) in
      let* alloc := malloc total_alloc in
      if alloc =? 0 then ret 0 else
      store alloc total;;
      ret (alloc + sizeof_common_header)
    else
      let* a := get_arena arena in
      assert_ (magic a =? ARENAIMP_MAGIC_ARENA);;
      let total_small := wrap (sizeof_small_header + total) in
      if total_small <=? ARENAIMP_LARGEST_SIZECLASS then
        let sizeclass := sizeclass_of total_small in
        let next := table_get (next_free a) sizeclass in
        if nonnull next then
          let* nf := load next in
          put_arena arena
            (with_next_free (<[Z.to_nat sizeclass := nf]> (next_free a)) a);;
          store next total;;
          ret (next + sizeof_small_header)
        else
          let chunk := chunk_of sizeclass in
          let pos0 := pos a in
          if chunk <=? wrap (size a - pos0) then
            let alloc := page a + pos0 in
            put_arena arena (with_pos (wrap (pos0 + chunk)) a);;
            store alloc total;;
            ret (alloc + sizeof_small_header)
          else
            let next_size0 := wrap (next_size a * 2) in
            let next_size1 :=
              if ARENAIMP_MAX_PAGE_SIZE <? next_size0
              then ARENAIMP_MAX_PAGE_SIZE else next_size0 in
            put_arena arena (with_next_size next_size1 a);;
            let page_size :=
              if next_size1 <? total_small then total_small else next_size1 in
            assert_ (ARENAIMP_LARGEST_SIZECLASS <? page_size);;
            let* new_page := aalloc_uninit_size fuel' arena 1 page_size in
            if new_page =? 0 then ret 0 else
            let alloc := new_page in
            store alloc total;;
            let* a1 := get_arena arena in
            (if wrap (size a1 - pos a1) <? wrap (page_size - total_small)
             then put_arena arena (with_page new_page total_small page_size a1)
             else ret tt);;
            ret (alloc + sizeof_small_header)
      else aalloc_big arena total
  end.

Definition aalloc_size (fuel : nat) (a sz count : Z) : M Z :=
  let* ptr := aalloc_uninit_size fuel a sz count in
  memset0 ptr (wrap (sz * count));;
  ret ptr.

Definition aalloc_copy_size (fuel : nat) (a sz count data : Z) : M Z :=
  let* ptr := aalloc_uninit_size fuel a sz count in
  arenaimp_copy ptr data (wrap (sz * count));;
  ret ptr.

Definition afree (arena ptr : Z) : M unit :=
  if ptr =? 0 then ret tt else
  let common := ptr - sizeof_common_header in
  if arena =? 0 then free common else
  let* capacity := load common in
  if capacity <=? wrap (ARENAIMP_LARGEST_SIZECLASS - sizeof_small_header) then
    let alloc := ptr - sizeof_small_header in
    let* a := get_arena arena in
    let total_small := wrap (capacity + sizeof_small_header) in
    let sizeclass := sizeclass_of total_small in
    store alloc (table_get (next_free a) sizeclass);;
    put_arena arena
      (with_next_free (<[Z.to_nat sizeclass := alloc]> (next_free a)) a)
  else
    let alloc := ptr - sizeof_big_header in
    let* prv := load (big_prev alloc) in
    let* nxt := load (big_next alloc) in
    (fun s =>
       if ndebug s then Ok tt s else
       (let* pn := load (big_next prv) in
        let* np := load (big_prev nxt) in
        assert_ ((pn =? alloc) && (np =? alloc))) s);;
    store (big_next prv) nxt;;
    store (big_prev nxt) prv.

Definition aalloc_capacity_bytes (ptr : Z) : M Z :=
  if ptr =? 0 then ret 0 else load (ptr - sizeof_common_header).

Definition arealloc_size (fuel : nat) (arena sz count ptr : Z) : M Z :=
  if ptr =? 0 then
    if count =? 0 then ret 0 else aalloc_uninit_size fuel arena sz count
  else
    let* capacity := load (ptr - sizeof_common_header) in
    let total := wrap (sz * count) in
    if total <=? capacity then ret ptr else
    let new_cap0 := wrap (capacity * 2) in
    let new_cap := if new_cap0 <=? total then total else new_cap0 in
    let* new_ptr := aalloc_uninit_size fuel arena 1 new_cap in
    if new_ptr =? 0 then ret 0 else
    memcpy new_ptr ptr capacity;;
    afree arena ptr;;
    ret new_ptr.

(** ** Deferred-cleanup registry *)

Definition upd_arena (arena : Z) (f : arenaimp_t -> arenaimp_t) : M unit :=
  let* a := get_arena arena in put_arena arena (f a).

(** [a->defers[i]] read: outside the array the read is wild. *)
Definition slot_read (arena i : Z) : M arenaimp_defer_slot :=
  let* a := get_arena arena in
  match defer_tab a !! Z.to_nat i with
  | Some ds => ret ds
  | None => fault
  end.

(** [a->defers[i]] written.  Index [length] is the slot that
    [arena_ext_defer] has just made room for. *)
Definition tab_write (t : list arenaimp_defer_slot) (i : nat)
    (ds : arenaimp_defer_slot) : option (list arenaimp_defer_slot) :=
  if decide (i < length t)%nat then Some (<[i := ds]> t)
  else if decide (i = length t) then Some (t ++ [ds])
  else None.

Definition slot_write (arena i : Z) (ds : arenaimp_defer_slot) : M unit :=
  let* a := get_arena arena in
  match tab_write (defer_tab a) (Z.to_nat i) ds with
  | Some t => put_arena arena (with_defer_tab t a)
  | None => fault
  end.

Definition set_prev (v : Z) (ds : arenaimp_defer_slot) : arenaimp_defer_slot :=
  mk_slot (fn ds) (user ds) v (next ds).
Definition set_next (v : Z) (ds : arenaimp_defer_slot) : arenaimp_defer_slot :=
  mk_slot (fn ds) (user ds) (prev ds) v.

Definition is_fn_null (f : defer_fn) : bool :=
  match f with FnNull => true | _ => false end.

Definition arena_ext_defer (fuel : nat) (arena : Z) (f : defer_fn) (data : Z)
    : M Z :=
  assert_ (nonnull arena);;
  let* a := get_arena arena in
  assert_ (magic a =? ARENAIMP_MAGIC_ARENA);;
  assert_ (negb (is_fn_null f));;
  let* slot :=
    if negb (free_defer_head a =? SIZE_MAX) then
      let slot := free_defer_head a in
      let* ds := slot_read arena slot in
      put_arena arena (with_heads (active_defer_head a) (next ds) a);;
      ret (Some slot)
    else
      let* defers' :=
        arealloc_size fuel arena sizeof_defer_slot (wrap (num_defers a + 1))
          (defers a) in
      if defers' =? 0 then ret None else
      let* a1 := get_arena arena in
      put_arena arena
        (with_defers defers' (defer_tab a1) (wrap (num_defers a1 + 1)) a1);;
      ret (Some (num_defers a1))
  in
  match slot with
  | None => ret SIZE_MAX
  | Some slot =>
  let* a2 := get_arena arena in
  let head := active_defer_head a2 in
  slot_write arena slot (mk_slot f data SIZE_MAX head);;
  (if negb (head =? SIZE_MAX) then
     let* h := slot_read arena head in
     slot_write arena head (set_prev slot h)
   else ret tt);;
  upd_arena arena (fun a3 => with_heads slot (free_defer_head a3) a3);;
  ret slot
  end.

Definition arena_ext_redefer (arena slot : Z) (f : defer_fn) (data : Z)
    : M unit :=
  assert_ (nonnull arena);;
  let* a := get_arena arena in
  assert_ (magic a =? ARENAIMP_MAGIC_ARENA);;
  let* ds := slot_read arena slot in
  slot_write arena slot (mk_slot f data (prev ds) (next ds)).

(** [arena_ext_cancel], with the way a finalizer is called left open:
    [arena_free] below ties the knot. *)
Definition arena_ext_cancel_with (call : defer_fn -> Z -> M unit)
    (arena slot : Z) (run_defer : bool) : M unit :=
  assert_ (nonnull arena);;
  let* a := get_arena arena in
  assert_ (magic a =? ARENAIMP_MAGIC_ARENA);;
  (if run_defer then
     let* ds := slot_read arena slot in call (fn ds) (user ds)
   else ret tt);;
  let* ds := slot_read arena slot in
  (if negb (prev ds =? SIZE_MAX) then
     let* p := slot_read arena (prev ds) in
     slot_write arena (prev ds) (set_next (next ds) p)
   else
     upd_arena arena (fun a1 => with_heads (next ds) (free_defer_head a1) a1));;
  let* ds1 := slot_read arena slot in
  (if negb (next ds1 =? SIZE_MAX) then
     let* n := slot_read arena (next ds1) in
     slot_write arena (next ds1) (set_prev (prev ds1) n)
   else ret tt);;
  let* a2 := get_arena arena in
  slot_write arena slot (mk_slot FnNull 0 SIZE_MAX (free_defer_head a2));;
  upd_arena arena (fun a3 => with_heads (active_defer_head a3) slot a3).

(** The first loop of [arena_free]: the slot's [next] is read after its
    finalizer has returned. *)
Fixpoint defer_walk (call : defer_fn -> Z -> M unit) (fuel : nat)
    (arena slot : Z) : M unit :=
  if slot =? SIZE_MAX then ret tt else
  match fuel with
  | O => out_of_fuel
  | S fuel' =>
    let* ds := slot_read arena slot in
    call (fn ds) (user ds);;
    let* ds1 := slot_read arena slot in
    defer_walk call fuel' arena (next ds1)
  end.

(** The second loop of [arena_free]. *)
Fixpoint big_sweep (fuel : nat) (alloc last : Z) : M unit :=
  if alloc =? last then ret tt else
  match fuel with
  | O => out_of_fuel
  | S fuel' =>
    let* nxt := load (big_next alloc) in
    free alloc;;
    big_sweep fuel' nxt last
  end.

(** The second loop, from [big_head.next] to [&big_tail]. *)
Definition arena_sweep (fuel : nat) (arena : Z) : M unit :=
  let* first := load (big_next (big_head arena)) in
  big_sweep fuel first (big_tail arena).

(** The end of [arena_free]: the arena's own storage. *)
Definition arena_release (call : defer_fn -> Z -> M unit) (arena : Z) : M unit :=
  let* a1 := get_arena arena in
  if allocated a1 then
    if nonnull (parent a1) then
      arena_ext_cancel_with call (parent a1) (parent_slot a1) false;;
      afree (parent a1) arena
    else free arena
  else ret tt.

Fixpoint arena_free (fuel : nat) (arena : Z) : M unit :=
  match fuel with
  | O => out_of_fuel
  | S fuel' =>
    if arena =? 0 then ret tt else
    let call f u :=
      match f with
      | FnNull => fault
      | FnFreeArena => arena_free fuel' u      (* arenaimp_defer_free_arena *)
      | FnUser id => emit (EvCall id u)
      end in
    let* a := get_arena arena in
    assert_ (magic a =? ARENAIMP_MAGIC_ARENA);;
    emit (EvDestroy arena);;
    put_arena arena (with_magic ARENAIMP_MAGIC_FREE a);;
    defer_walk call fuel' arena (active_defer_head a);;
    arena_sweep fuel' arena;;
    arena_release call arena
  end.

Definition call_fn (fuel : nat) (f : defer_fn) (u : Z) : M unit :=
  match f with
  | FnNull => fault
  | FnFreeArena => arena_free fuel u
  | FnUser id => emit (EvCall id u)
  end.

Definition arena_ext_cancel (fuel : nat) (arena slot : Z) (run_defer : bool)
    : M unit :=
  arena_ext_cancel_with (call_fn fuel) arena slot run_defer.

(** ** Arena lifecycle *)

(** [memset(a, 0, sizeof(arenaimp_t))]: the record and both sentinels. *)
Definition arena_memset0 (a : Z) : M unit :=
  put_arena a arena_zero;;
  store (big_prev (big_head a)) 0;;
  store (big_next (big_head a)) 0;;
  store (big_capacity (big_head a)) 0;;
  store (big_prev (big_tail a)) 0;;
  store (big_next (big_tail a)) 0;;
  store (big_capacity (big_tail a)) 0.

Definition arenaimp_init (a : Z) : M unit :=
  upd_arena a (with_magic ARENAIMP_MAGIC_ARENA);;
  upd_arena a (with_heads SIZE_MAX SIZE_MAX);;
  store (big_next (big_head a)) (big_tail a);;
  store (big_next (big_tail a)) (big_head a);;
  upd_arena a (with_next_size (ARENAIMP_FIRST_PAGE_SIZE / 2));;
  upd_arena a (with_page a sizeof_arenaimp_t ARENAIMP_INIT_SIZE).

Definition arena_create (fuel : nat) (parent : Z) : M Z :=
  let finish a :=
    upd_arena a (with_allocated true);;
    arenaimp_init a;;
    ret a in
  if nonnull parent then
    let* a :=
      aalloc_size fuel parent (wrap (sizeof_arenaimp_t + ARENAIMP_EXTRA_SIZE)) 1 in
    if a =? 0 then ret 0 else
    arena_memset0 a;;      (* the zeroed block, read as an arenaimp_t from here on *)
    upd_arena a (with_parent parent 0);;
    let* slot := arena_ext_defer fuel parent FnFreeArena a in
    upd_arena a (with_parent parent slot);;
    if slot =? SIZE_MAX then afree parent a;; ret 0
    else finish a
  else
    let* a := malloc (wrap (sizeof_ptr + ARENAIMP_EXTRA_SIZE)) in
    if a =? 0 then ret 0 else
    arena_memset0 a;;
    finish a.

Definition arena_init (fuel : nat) (arena parent : Z) : M bool :=
  arena_memset0 arena;;
  let* failed :=
    if nonnull parent then
      upd_arena arena (with_parent parent 0);;
      let* slot := arena_ext_defer fuel parent FnFreeArena arena in
      upd_arena arena (with_parent parent slot);;
      if slot =? SIZE_MAX then afree parent arena;; ret true
      else ret false
    else ret false in
  if failed : bool then ret false else
  upd_arena arena (with_allocated false);;
  arenaimp_init arena;;
  ret true.

(** ** Deferred allocation wrapper *)

Definition arena_defer_size (fuel : nat) (arena : Z) (f : defer_fn)
    (sz data : Z) : M Z :=
  assert_ (nonnull arena);;
  let* a := get_arena arena in
  assert_ (magic a =? ARENAIMP_MAGIC_ARENA);;
  let total := wrap (sizeof_defer_header + sz) in
  let* dh := aalloc_uninit_size fuel arena total 1 in
  assert_ (nonnull dh);;
  if dh =? 0 then ret 0 else
  let copy := dh + sizeof_defer_header in
  arenaimp_copy copy data sz;;
  let* slot := arena_ext_defer fuel arena f copy in
  if slot =? SIZE_MAX then afree arena dh;; ret 0 else
  store dh ARENAIMP_MAGIC_DEFER;;
  store (dh + 8) slot;;
  ret copy.

Definition arena_cancel_retain (fuel : nat) (arena ptr : Z) (run_defer : bool)
    : M unit :=
  if ptr =? 0 then ret tt else
  let dh := ptr - sizeof_defer_header in
  (fun s =>
     if ndebug s then Ok tt s else
     (let* m := load dh in assert_ (m =? ARENAIMP_MAGIC_DEFER)) s);;
  let* slot := load (dh + 8) in
  arena_ext_cancel fuel arena slot run_defer;;
  store (dh + 8) SIZE_MAX;;
  store dh ARENAIMP_MAGIC_FREE.

Definition arena_cancel (fuel : nat) (arena ptr : Z) (run_defer : bool)
    : M unit :=
  if ptr =? 0 then ret tt else
  arena_cancel_retain fuel arena ptr run_defer;;
  afree arena (ptr - sizeof_defer_header).

(** ** List utilities *)

(** [arenaimp_alist]; an element is [sz] payload bytes. *)
Record arenaimp_alist := mk_alist {
  data : Z;
  count : Z;
}.

Definition alist_remove_size (sz : Z) (l : arenaimp_alist) (index : Z)
    : M (bool * arenaimp_alist) :=
  assert_ (index <? count l);;
  if count l <=? index then ret (false, l) else
  let last := wrap (count l - 1) in
  let l' := mk_alist (data l) last in
  (if negb (index =? last) then
     let src := data l + wrap (index * sz) in
     let dst := data l + wrap (last * sz) in
     memcpy dst src sz
   else ret tt);;
  ret (true, l').

Definition alist_pop_size (sz : Z) (l : arenaimp_alist)
    : M (Z * arenaimp_alist) :=
  assert_ (0 <? count l);;
  if count l =? 0 then ret (0, l) else
  let index := wrap (count l - 1) in
  ret (data l + wrap (index * sz), mk_alist (data l) index).

Definition alist_push_size (fuel : nat) (arena sz : Z) (l : arenaimp_alist)
    (item : Z) : M (Z * arenaimp_alist) :=
  let index := count l in
  let* ptr := arealloc_size fuel arena sz (wrap (index + 1)) (data l) in
  if ptr =? 0 then ret (0, l) else
  let dst := ptr + wrap (index * sz) in
  arenaimp_copy dst item sz;;
  ret (dst, mk_alist ptr (wrap (index + 1))).

Definition alist_push_n_size (fuel : nat) (arena sz : Z) (l : arenaimp_alist)
    (n p_item : Z) : M (Z * arenaimp_alist) :=
  let index := count l in
  let* ptr := arealloc_size fuel arena sz (wrap (index + n)) (data l) in
  if ptr =? 0 then ret (0, l) else
  let dst := ptr + wrap (index * sz) in
  arenaimp_copy dst p_item sz;;
  ret (dst, mk_alist ptr (wrap (index + n))).

Definition alist_pop_n_size (sz : Z) (l : arenaimp_alist) (n : Z)
    : M (Z * arenaimp_alist) :=
  assert_ (n <=? count l);;
  if count l <? n then ret (0, l) else
  let index := wrap (count l - n) in
  ret (data l + wrap (index * sz), mk_alist (data l) index).

(** The [i]-th element of a list of [sz]-byte elements. *)
Definition alist_elem (b : Z -> Z) (sz : Z) (l : arenaimp_alist) (i : Z)
    : list Z :=
  map (fun k => b (data l + i * sz + Z.of_nat k)) (seq 0 (Z.to_nat sz)).

(** ** Running the model on concrete inputs *)

Definition init_state (o : list Z) (nd : bool) : state :=
  mk_state ∅ ∅ (fun _ => 0) ∅ o [] nd.

(** Observe the state without changing it. *)
Definition peek {A} (f : state -> A) : M A := fun s => Ok (f s) s.

Definition result_of {A} (o : outcome A) : option A :=
  match o with Ok v _ => Some v | _ => None end.

Definition arena_at (a : Z) (s : state) : arenaimp_t :=
  default arena_zero (arenas s !! a).

Definition word_at (p : Z) (s : state) : option Z := mem s !! p.

(** The scenario of the small path: a root arena, a 20-byte block, its
    release, and a second request of [second] bytes. *)
Definition scenario_small (second : Z) :=
  let* a := arena_create 2 0 in
  let* p1 := aalloc_uninit_size 2 a 20 1 in
  let* t1 := peek trace in
  let* pos1 := peek (fun s => pos (arena_at a s)) in
  afree a p1;;
  let* fl := peek (fun s => next_free (arena_at a s)) in
  let* p2 := aalloc_uninit_size 2 a second 1 in
  let* t2 := peek trace in
  let* pos2 := peek (fun s => pos (arena_at a s)) in
  let* pg2 := peek (fun s => page (arena_at a s)) in
  let* cap := aalloc_capacity_bytes p2 in
  ret (a, p1, t1, pos1, fl, p2, t2, pos2, pg2, cap).

(** The links of the ring's two sentinels and of one block [h]. *)
Definition ring_view (a h : Z) (s : state) :=
  (word_at (big_next (big_head a)) s, word_at (big_prev (big_tail a)) s,
   word_at (big_next (big_tail a)) s,
   word_at (big_prev h) s, word_at (big_next h) s).

(** The scenario of the big path: a 5000-byte block and its release. *)
Definition scenario_big :=
  let* a := arena_create 2 0 in
  let* p1 := aalloc_uninit_size 2 a 20 1 in
  afree a p1;;
  let* p2 := aalloc_uninit_size 2 a 20 1 in
  let* p3 := aalloc_uninit_size 2 a 5000 1 in
  let h := p3 - sizeof_big_header in
  let* t3 := peek trace in
  let* linked := peek (ring_view a h) in
  let* cap := aalloc_capacity_bytes p3 in
  afree a p3;;
  let* unlinked := peek (ring_view a h) in
  let* pos3 := peek (fun s => pos (arena_at a s)) in
  ret (a, p3, t3, linked, cap, unlinked, pos3).

(** A list of three 4-byte elements at address 100 whose bytes are all
    different: byte [x] holds [x]. *)
Definition alist3_state (nd : bool) : state :=
  mk_state ∅ ∅ (fun x => x) ∅ [] [] nd.
Definition alist3 : arenaimp_alist := mk_alist 100 3.

Definition scenario_remove (index : Z) :=
  let* before := peek (fun s => map (alist_elem (bytes s) 4 alist3) [0; 1; 2]) in
  let* r := alist_remove_size 4 alist3 index in
  let* after := peek (fun s => map (alist_elem (bytes s) 4 alist3) [0; 1; 2]) in
  ret (before, r, after).

Definition outcome_kind {A} (o : outcome A) : Z :=
  match o with Ok _ _ => 0 | AssertFail => 1 | Fault => 2 | OutOfFuel => 3 end.

(** A root arena with two children made by [arena_create], each owning one
    5000-byte block; then the root is torn down. *)
Definition scenario_two_children :=
  let* p := arena_create 4 0 in
  let* a := arena_create 4 p in
  let* b := arena_create 4 p in
  let* x := aalloc_uninit_size 4 a 5000 1 in
  let* y := aalloc_uninit_size 4 b 5000 1 in
  let* t0 := peek trace in
  arena_free 8 p;;
  let* t1 := peek trace in
  let* lv := peek (fun s => elements (live s)) in
  ret (p, a, b, x, y, drop (length t0) t1, lv).

(** A root arena with one child. *)
Definition scenario_one_child :=
  let* p := arena_create 4 0 in
  let* a := arena_create 4 p in
  let* x := aalloc_uninit_size 4 a 5000 1 in
  let* t0 := peek trace in
  arena_free 8 p;;
  let* t1 := peek trace in
  let* lv := peek (fun s => elements (live s)) in
  ret (p, a, x, drop (length t0) t1, lv).

(** A root arena whose first page is used up, so that the next small request
    needs a new page. *)
Definition full_root :=
  let* p := arena_create 4 0 in
  let* _ := aalloc_uninit_size 4 p 200 1 in
  let* _ := aalloc_uninit_size 4 p 64 1 in
  ret p.

(** Failing allocations: the oracle holds the root's address only, every
    later malloc returns NULL. *)
Definition scenario_aalloc_size_fails (n : Z) :=
  let* p := full_root in aalloc_size 4 p n 1.
Definition scenario_aalloc_uninit_fails (n : Z) :=
  let* p := full_root in aalloc_uninit_size 4 p n 1.
Definition scenario_create_fails :=
  let* p := full_root in arena_create 4 p.
Definition scenario_init_fails (storage : Z) :=
  let* p := full_root in arena_init 4 storage p.
Definition scenario_defer_size_fails (n : Z) :=
  let* p := full_root in arena_defer_size 4 p (FnUser 0) n 0.
Definition scenario_ext_defer_fails :=
  let* p := full_root in
  let* before := peek (arena_at p) in
  let* slot := arena_ext_defer 4 p (FnUser 0) 0 in
  let* after := peek (arena_at p) in
  ret (slot, defer_tab before, defer_tab after,
       active_defer_head before, active_defer_head after,
       next_size before, next_size after).

(** ** The big-object ring as a predicate on memory *)

(** Two big headers that do not overlap. *)
Definition sep (x y : Z) : Prop :=
  x + sizeof_big_header <= y \/ y + sizeof_big_header <= x.

Fixpoint all_sep (l : list Z) : Prop :=
  match l with
  | [] => True
  | x :: l' => Forall (sep x) l' /\ all_sep l'
  end.

(** [links m x l last]: from [x] the [next] words lead through the blocks
    [l] to [last], and each of them, [last] included, points back with
    [prev]. *)
Fixpoint links (m : gmap Z Z) (x : Z) (l : list Z) (last : Z) : Prop :=
  match l with
  | [] => m !! big_next x = Some last /\ m !! big_prev last = Some x
  | n :: l' =>
      m !! big_next x = Some n /\ m !! big_prev n = Some x /\ links m n l' last
  end.

(** The ring as the code keeps it: [next] is circular through both
    sentinels; [prev] is kept for every block and, while there is a block,
    for the tail.  [big_head.prev] is never written. *)
Definition ring_wf (m : gmap Z Z) (a : Z) (l : list Z) : Prop :=
  m !! big_next (big_tail a) = Some (big_head a) /\
  all_sep (big_head a :: big_tail a :: l) /\
  match l with
  | [] => m !! big_next (big_head a) = Some (big_tail a)
  | _ :: _ => links m (big_head a) l (big_tail a)
  end.


(** Pairwise separation, stated by membership. *)
Definition psep (l : list Z) : Prop :=
  forall y z, y ∈ l -> z ∈ l -> y <> z -> sep y z.

(** The state right after [arena_create(NULL)], with the root at 1000 and
    20000 the next block malloc will hand out. *)
Definition state_of {A} (o : outcome A) (dflt : state) : state :=
  match o with Ok _ s => s | _ => dflt end.
Definition fresh_root (nd : bool) : state :=
  state_of (arena_create 2 0 (init_state [1000; 20000] nd))
           (init_state [] nd).

(** ** The two lists threaded through the slot table *)

(** [active_chain t prv cur l]: starting at index [cur], the [next] fields
    visit the slots [l] and end at [SIZE_MAX]; each slot's [prev] is the
    slot before it ([prv] for the first). *)
Fixpoint active_chain (t : list arenaimp_defer_slot) (prv cur : Z)
    (l : list Z) : Prop :=
  match l with
  | [] => cur = SIZE_MAX
  | i :: l' =>
      cur = i /\
      exists ds, t !! Z.to_nat i = Some ds /\ prev ds = prv /\
                 active_chain t i (next ds) l'
  end.

(** The free list is threaded through [next] only. *)
Fixpoint free_chain (t : list arenaimp_defer_slot) (cur : Z) (l : list Z)
    : Prop :=
  match l with
  | [] => cur = SIZE_MAX
  | i :: l' =>
      cur = i /\
      exists ds, t !! Z.to_nat i = Some ds /\ free_chain t (next ds) l'
  end.

(** Every index below [num_defers] is on exactly one of the two lists,
    exactly once. *)
Definition registry_wf (a : arenaimp_t) (act fre : list Z) : Prop :=
  Z.of_nat (length (defer_tab a)) = num_defers a /\
  num_defers a < SIZE_MAX /\
  active_chain (defer_tab a) SIZE_MAX (active_defer_head a) act /\
  free_chain (defer_tab a) (free_defer_head a) fre /\
  act ++ fre ≡ₚ map Z.of_nat (seq 0 (length (defer_tab a))).

(** The fields of an arena that belong to the registry. *)
Definition same_registry (a a' : arenaimp_t) : Prop :=
  defer_tab a' = defer_tab a /\ num_defers a' = num_defers a /\
  active_defer_head a' = active_defer_head a /\
  free_defer_head a' = free_defer_head a /\
  magic a' = magic a /\ defers a' = defers a /\
  parent a' = parent a /\ parent_slot a' = parent_slot a /\
  allocated a' = allocated a.

(** What the allocator proper leaves alone in this model, where the slot
    table is part of the record: the registry of every arena.  (In the
    program the table is a block like any other; see [Flat].) *)
Definition registry_frame (s s' : state) : Prop :=
  ndebug s' = ndebug s /\
  forall x r, arenas s !! x = Some r ->
    exists r', arenas s' !! x = Some r' /\ same_registry r r'.

(** The finalizers of the slots [l], as (function, user data) pairs. *)
Definition slot_calls (t : list arenaimp_defer_slot) (l : list Z)
    : list (defer_fn * Z) :=
  map (fun i => match t !! Z.to_nat i with
                | Some ds => (fn ds, user ds)
                | None => (FnNull, 0)
                end) l.

(** The slot table after the two neighbour updates of [arena_ext_cancel]:
    [p] is the cancelled slot's [prev], [n] its [next]. *)
Definition unlink_tab (t : list arenaimp_defer_slot) (p n : Z)
    : list arenaimp_defer_slot :=
  let t1 := if p =? SIZE_MAX then t else alter (set_next n) (Z.to_nat p) t in
  if n =? SIZE_MAX then t1 else alter (set_prev p) (Z.to_nat n) t1.

(** State [s] with the record of one arena replaced. *)
Definition state_with_arena (x : Z) (a : arenaimp_t) (s : state) : state :=
  mk_state (<[x := a]> (arenas s)) (mem s) (bytes s) (live s) (oracle s)
           (trace s) (ndebug s).

(** The fresh root after one registration. *)
Definition defer1_state : state :=
  state_of (arena_ext_defer 2 1000 (FnUser 1) 7 (fresh_root true))
           (init_state [] true).

(** The calls a list of caller finalizers produces, in order. *)
Definition call_event (c : defer_fn * Z) : list event :=
  match c.1 with FnUser id => [EvCall id c.2] | _ => [] end.
Definition call_events (cs : list (defer_fn * Z)) : list event :=
  flat_map call_event cs.

Definition is_user (c : defer_fn * Z) : Prop := exists id, c.1 = FnUser id.

(** State [s] with events appended to its trace. *)
Definition state_with_events (es : list event) (s : state) : state :=
  mk_state (arenas s) (mem s) (bytes s) (live s) (oracle s) (trace s ++ es)
           (ndebug s).

(** The fresh root after registering three caller finalizers 1, 2, 3. *)
Definition abc1 : state :=
  state_of (arena_ext_defer 2 1000 (FnUser 1) 11 (fresh_root true))
           (init_state [] true).
Definition abc2 : state :=
  state_of (arena_ext_defer 2 1000 (FnUser 2) 22 abc1) (init_state [] true).
Definition abc3 : state :=
  state_of (arena_ext_defer 2 1000 (FnUser 3) 33 abc2) (init_state [] true).

(** The whole life of a root arena with three deferred cleanups. *)
Definition scenario_abc :=
  let* a := arena_create 2 0 in
  let* sa := arena_ext_defer 2 a (FnUser 1) 11 in
  let* sb := arena_ext_defer 2 a (FnUser 2) 22 in
  let* sc := arena_ext_defer 2 a (FnUser 3) 33 in
  arena_free 4 a;;
  let* t := peek trace in
  ret (sa, sb, sc, t).

(** A malloc block of [len] bytes at [h] that overlaps no big header at [n]. *)
Definition sep_block (h len n : Z) : Prop :=
  n + sizeof_big_header <= h \/ h + len <= n.

(** The page size chosen by the growth path of [aalloc_uninit_size]. *)
Definition grown_next_size (next_size0 : Z) : Z :=
  if ARENAIMP_MAX_PAGE_SIZE <? wrap (next_size0 * 2)
  then ARENAIMP_MAX_PAGE_SIZE else wrap (next_size0 * 2).
Definition grown_page_size (next_size0 total_small : Z) : Z :=
  if grown_next_size next_size0 <? total_small
  then total_small else grown_next_size next_size0.

(** The root at 1000 with its first page used up; malloc will hand out
    20000 next. *)
Definition full_root_state (nd : bool) : state :=
  state_of (full_root (init_state [1000; 20000] nd)) (init_state [] nd).

(** A root arena at 1000 holding one block of ten 4-byte elements. *)
Definition forty_state : state :=
  state_of ((let* a := arena_create 2 0 in aalloc_uninit_size 2 a 4 10)
              (init_state [1000; 20000] true))
           (init_state [] true).


(** A root arena on which A is registered, then a child arena is created,
    then B and C are registered; then the root is torn down. *)
Definition scenario_child_between :=
  let* p := arena_create 4 0 in
  let* sa := arena_ext_defer 4 p (FnUser 1) 11 in
  let* c := arena_create 4 p in
  let* sb := arena_ext_defer 4 p (FnUser 2) 22 in
  let* sc := arena_ext_defer 4 p (FnUser 3) 33 in
  let* t0 := peek trace in
  arena_free 8 p;;
  let* t1 := peek trace in
  let* lv := peek (fun s => elements (live s)) in
  ret (p, sa, c, sb, sc, drop (length t0) t1, lv).

(** A root arena with one child whose first page is used up, so that the
    64-byte request is served from a new page. *)
Definition grown_page_with_child :=
  let* p := arena_create 4 0 in
  let* c := arena_create 4 p in
  let* x := aalloc_uninit_size 4 p 200 1 in
  let* y := aalloc_uninit_size 4 p 64 1 in
  let* t := peek trace in
  let* pg := peek (fun s => page (arena_at p s)) in
  let* first := peek (word_at (big_next (big_head p))) in
  let* lv := peek (fun s => elements (live s)) in
  ret (p, c, y, pg, first, t, lv).

(** The same with a cancelled registration, which leaves a slot on the free
    list of the root. *)
Definition grown_page_with_child_and_free_slot :=
  let* p := arena_create 4 0 in
  let* c := arena_create 4 p in
  let* sx := arena_ext_defer 4 p (FnUser 1) 11 in
  arena_ext_cancel 4 p sx false;;
  let* x := aalloc_uninit_size 4 p 200 1 in
  let* t := peek trace in
  let* pg := peek (fun s => page (arena_at p s)) in
  let* first := peek (word_at (big_next (big_head p))) in
  ret (p, c, sx, x, pg, first, t).

(** Teardown of the root after a setup; what is observed is the trace. *)
Definition then_free {A} (setup : M A) (root : Z) :=
  setup;; arena_free 8 root;; peek trace.

(** ** The bump cursor *)

(** The cursor of an arena lies inside its current page. *)
Definition page_ok (a : arenaimp_t) : Prop :=
  0 <= pos a <= size a /\ size a < 2 ^ 64.


(** The fresh root after one 5000-byte allocation: the block is at 20000. *)
Definition big_state : state :=
  state_of (aalloc_uninit_size 1 1000 5000 1 (fresh_root true))
           (init_state [] true).

(** The fresh root after one registration and its cancellation. *)
Definition cancelled_state : state :=
  state_of (arena_ext_cancel 2 1000 0 false defer1_state) (init_state [] true).

(** The record [arena_create(NULL)] leaves at [r], and the one
    [arena_init(r, NULL)] leaves. *)
Definition new_arena (r : Z) (alloc : bool) : arenaimp_t :=
  mk_arena ARENAIMP_MAGIC_ARENA r sizeof_arenaimp_t ARENAIMP_INIT_SIZE 0 0
    (ARENAIMP_FIRST_PAGE_SIZE / 2) 0 [] 0 SIZE_MAX SIZE_MAX (replicate 10 0) alloc.

(** * The same allocator over one byte-addressed memory

    In the model above header words, payload bytes and the slot table live in
    separate stores.  [Flat] embeds the same functions over a single memory
    of bytes, the way the program has it: the fields of [arenaimp_t], the
    slot array, every block header and every payload are bytes of one address
    space, so that blocks which overlap do interfere.  [malloc] records the
    extent of every block it hands out. *)

Module Flat.

(** Offsets of the fields of [arenaimp_t] on LP64. *)
Definition offsetof_magic : Z := 0.
Definition offsetof_page : Z := 8.
Definition offsetof_pos : Z := 16.
Definition offsetof_size : Z := 24.
Definition offsetof_parent : Z := 32.
Definition offsetof_parent_slot : Z := 40.
Definition offsetof_next_size : Z := 48.
Definition offsetof_defers : Z := 56.
Definition offsetof_num_defers : Z := 64.
Definition offsetof_active_defer_head : Z := 72.
Definition offsetof_free_defer_head : Z := 80.
Definition offsetof_next_free : Z := 136.
Definition offsetof_allocated : Z := 216.

(** Offsets inside [arenaimp_defer_slot] and [arenaimp_big_header]. *)
Definition offsetof_fn : Z := 0.
Definition offsetof_user : Z := 8.
Definition offsetof_prev : Z := 16.
Definition offsetof_next : Z := 24.
Definition offsetof_big_prev : Z := 0.
Definition offsetof_big_next : Z := 8.
Definition offsetof_big_capacity : Z := 16.

(** The address of [arenaimp_defer_free_arena]; a finalizer of the caller is
    any other non-null address. *)
Definition arenaimp_defer_free_arena : Z := 64.

Record state := mk_state {
  heap : gmap Z Z;      (* one byte per address; a byte never written reads 0 *)
  blocks : gmap Z Z;    (* live malloc blocks: address -> size in bytes *)
  oracle : list Z;      (* what the next calls of malloc return; 0 is failure *)
  trace : list event;   (* most recent event last *)
  ndebug : bool;        (* true when assert() is compiled out *)
}.

Inductive outcome (A : Type) :=
  | Ok (v : A) (s : state)
  | AssertFail
  | Fault
  | OutOfFuel.
Arguments Ok {A} v s.
Arguments AssertFail {A}.
Arguments Fault {A}.
Arguments OutOfFuel {A}.

Definition M (A : Type) : Type := state -> outcome A.

Definition ret {A} (v : A) : M A := fun s => Ok v s.

Definition bind {A B} (m : M A) (k : A -> M B) : M B :=
  fun s => match m s with
           | Ok v s' => k v s'
           | AssertFail => AssertFail
           | Fault => Fault
           | OutOfFuel => OutOfFuel
           end.

Declare Scope flat_scope.
Notation "'let*' x ':=' m 'in' k" := (bind m (fun x => k))
  (at level 10, x name, m at level 100, k at level 200) : flat_scope.
Notation "m ;; k" := (bind m (fun _ => k))
  (at level 100, k at level 200, right associativity) : flat_scope.
Local Open Scope flat_scope.

Definition fault {A} : M A := fun _ => Fault.
Definition out_of_fuel {A} : M A := fun _ => OutOfFuel.

Definition assert_ (c : bool) : M unit :=
  fun s => if ndebug s then Ok tt s else if c then Ok tt s else AssertFail.

Definition emit (e : event) : M unit :=
  fun s => Ok tt (mk_state (heap s) (blocks s) (oracle s) (trace s ++ [e])
                           (ndebug s)).

(** ** Memory *)

Definition byte_at (h : gmap Z Z) (p : Z) : Z := default 0 (h !! p).

(** Little-endian reads and writes of [n] bytes. *)
Fixpoint read_le (h : gmap Z Z) (p : Z) (n : nat) : Z :=
  match n with
  | O => 0
  | S n' => byte_at h p + 256 * read_le h (p + 1) n'
  end.

Fixpoint write_le (h : gmap Z Z) (p v : Z) (n : nat) : gmap Z Z :=
  match n with
  | O => h
  | S n' => write_le (<[p := v mod 256]> h) (p + 1) (v / 256) n'
  end.

Definition set_heap (f : gmap Z Z -> gmap Z Z) : M unit :=
  fun s => Ok tt (mk_state (f (heap s)) (blocks s) (oracle s) (trace s)
                           (ndebug s)).

(** A [size_t] or pointer field. *)
Definition load (p : Z) : M Z := fun s => Ok (read_le (heap s) p 8) s.
Definition store (p v : Z) : M unit := set_heap (fun h => write_le h p v 8).

(** A [bool] field. *)
Definition load8 (p : Z) : M Z := fun s => Ok (byte_at (heap s) p) s.
Definition store8 (p v : Z) : M unit := set_heap (fun h => write_le h p v 1).

(** [malloc]: the result is taken from the oracle, its extent recorded. *)
Definition malloc (n : Z) : M Z :=
  fun s =>
    let r := match oracle s with [] => 0 | r :: _ => r end in
    Ok r (mk_state (heap s)
                   (if r =? 0 then blocks s else <[r := n]> (blocks s))
                   (tail (oracle s)) (trace s ++ [EvMalloc n r]) (ndebug s)).

(** [free]: freeing what is not a live malloc block is undefined. *)
Definition free (p : Z) : M unit :=
  fun s =>
    match blocks s !! p with
    | Some _ =>
        Ok tt (mk_state (heap s) (delete p (blocks s)) (oracle s)
                        (trace s ++ [EvFree p]) (ndebug s))
    | None => Fault
    end.

(** [memcpy] of non-overlapping ranges and [memset (dst, 0, n)]; through a
    NULL pointer with a non-zero length they fault. *)
Definition copy_bytes (dst src : Z) (n : nat) (h : gmap Z Z) : gmap Z Z :=
  foldl (fun h' i => <[dst + Z.of_nat i := byte_at h (src + Z.of_nat i)]> h')
        h (seq 0 n).

Definition zero_bytes (dst : Z) (n : nat) (h : gmap Z Z) : gmap Z Z :=
  foldl (fun h' i => <[dst + Z.of_nat i := 0]> h') h (seq 0 n).

Definition memcpy (dst src n : Z) : M unit :=
  if n =? 0 then ret tt
  else if (dst =? 0) || (src =? 0) then fault
  else set_heap (copy_bytes dst src (Z.to_nat n)).

Definition memset0 (dst n : Z) : M unit :=
  if n =? 0 then ret tt
  else if dst =? 0 then fault
  else set_heap (zero_bytes dst (Z.to_nat n)).

Definition arenaimp_copy (dst src n : Z) : M unit :=
  if negb (src =? 0) then memcpy dst src n else memset0 dst n.

(** ** Allocation *)

Fixpoint aalloc_uninit_size (fuel : nat) (arena sz count : Z) : M Z :=
  match fuel with
  | O => out_of_fuel
  | S fuel' =>
    let total := wrap (sz * count) in
    if arena =? 0 then
      let total_alloc := wrap (sizeof_common_header + total) in
      let* alloc := malloc total_alloc in
      if alloc =? 0 then ret 0 else
      store alloc total;;
      ret (alloc + sizeof_common_header)
    else
      let a := arena in
      let* m := load (a + offsetof_magic) in
      assert_ (m =? ARENAIMP_MAGIC_ARENA);;
      let total_small := wrap (sizeof_small_header + total) in
      if total_small <=? ARENAIMP_LARGEST_SIZECLASS then
        let sizeclass := sizeclass_of total_small in
        let* next := load (a + offsetof_next_free + 8 * sizeclass) in
        if nonnull next then
          let* nf := load next in
          store (a + offsetof_next_free + 8 * sizeclass) nf;;
          store next total;;
          ret (next + sizeof_small_header)
        else
          let chunk := chunk_of sizeclass in
          let* pos := load (a + offsetof_pos) in
          let* size := load (a + offsetof_size) in
          if chunk <=? wrap (size - pos) then
            let* page := load (a + offsetof_page) in
            let alloc := page + pos in
            store (a + offsetof_pos) (wrap (pos + chunk));;
            store alloc total;;
            ret (alloc + sizeof_small_header)
          else
            let* next_size0 := load (a + offsetof_next_size) in
            let next_size0 := wrap (next_size0 * 2) in
            let next_size :=
              if ARENAIMP_MAX_PAGE_SIZE <? next_size0
              then ARENAIMP_MAX_PAGE_SIZE else next_size0 in
            store (a + offsetof_next_size) next_size;;
            let page_size :=
              if next_size <? total_small then total_small else next_size in
            assert_ (ARENAIMP_LARGEST_SIZECLASS <? page_size);;
            let* new_page := aalloc_uninit_size fuel' arena 1 page_size in
            if new_page =? 0 then ret 0 else
            let alloc := new_page in
            store alloc total;;
            let* size1 := load (a + offsetof_size) in
            let* pos1 := load (a + offsetof_pos) in
            (if wrap (size1 - pos1) <? wrap (page_size - total_small) then
               store (a + offsetof_page) new_page;;
               store (a + offsetof_pos) total_small;;
               store (a + offsetof_size) page_size
             else ret tt);;
            ret (alloc + sizeof_small_header)
      else
        let* alloc := malloc (wrap (sizeof_big_header + total)) in
        assert_ (nonnull alloc);;
        if alloc =? 0 then ret 0 else
        let head := a + offsetof_big_head in
        let* next := load (head + offsetof_big_next) in
        store (alloc + offsetof_big_prev) head;;
        store (alloc + offsetof_big_next) next;;
        store (alloc + offsetof_big_capacity) total;;
        store (next + offsetof_big_prev) alloc;;
        store (head + offsetof_big_next) alloc;;
        ret (alloc + sizeof_big_header)
  end.

Definition aalloc_size (fuel : nat) (a sz count : Z) : M Z :=
  let* ptr := aalloc_uninit_size fuel a sz count in
  memset0 ptr (wrap (sz * count));;
  ret ptr.

Definition afree (arena ptr : Z) : M unit :=
  if ptr =? 0 then ret tt else
  let common := ptr - sizeof_common_header in
  if arena =? 0 then free common else
  let* capacity := load common in
  if capacity <=? wrap (ARENAIMP_LARGEST_SIZECLASS - sizeof_small_header) then
    let alloc := ptr - sizeof_small_header in
    let a := arena in
    let total_small := wrap (capacity + sizeof_small_header) in
    let sizeclass := sizeclass_of total_small in
    let* nf := load (a + offsetof_next_free + 8 * sizeclass) in
    store alloc nf;;
    store (a + offsetof_next_free + 8 * sizeclass) alloc
  else
    let alloc := ptr - sizeof_big_header in
    let* prv := load (alloc + offsetof_big_prev) in
    let* nxt := load (alloc + offsetof_big_next) in
    let* pn := load (prv + offsetof_big_next) in
    let* np := load (nxt + offsetof_big_prev) in
    assert_ ((pn =? alloc) && (np =? alloc));;
    store (prv + offsetof_big_next) nxt;;
    store (nxt + offsetof_big_prev) prv.

Definition aalloc_capacity_bytes (ptr : Z) : M Z :=
  if ptr =? 0 then ret 0 else load (ptr - sizeof_common_header).

Definition arealloc_size (fuel : nat) (arena sz count ptr : Z) : M Z :=
  if ptr =? 0 then
    if count =? 0 then ret 0 else aalloc_uninit_size fuel arena sz count
  else
    let* capacity := load (ptr - sizeof_common_header) in
    let total := wrap (sz * count) in
    if total <=? capacity then ret ptr else
    let new_cap0 := wrap (capacity * 2) in
    let new_cap := if new_cap0 <=? total then total else new_cap0 in
    let* new_ptr := aalloc_uninit_size fuel arena 1 new_cap in
    if new_ptr =? 0 then ret 0 else
    memcpy new_ptr ptr capacity;;
    afree arena ptr;;
    ret new_ptr.

(** ** Deferred-cleanup registry *)

(** The address of [defers[slot]]. *)
Definition slot_addr (defers slot : Z) : Z := defers + sizeof_defer_slot * slot.

Definition arena_ext_defer (fuel : nat) (arena fn data : Z) : M Z :=
  let a := arena in
  assert_ (nonnull a);;
  let* m := load (a + offsetof_magic) in
  assert_ (m =? ARENAIMP_MAGIC_ARENA);;
  assert_ (nonnull fn);;
  let* free_head := load (a + offsetof_free_defer_head) in
  let* slot :=
    if negb (free_head =? SIZE_MAX) then
      let slot := free_head in
      let* defers := load (a + offsetof_defers) in
      let* nxt := load (slot_addr defers slot + offsetof_next) in
      store (a + offsetof_free_defer_head) nxt;;
      ret (Some slot)
    else
      let* num := load (a + offsetof_num_defers) in
      let* old := load (a + offsetof_defers) in
      let* defers := arealloc_size fuel arena sizeof_defer_slot (wrap (num + 1)) old in
      if defers =? 0 then ret None else
      store (a + offsetof_defers) defers;;
      let* slot := load (a + offsetof_num_defers) in
      store (a + offsetof_num_defers) (wrap (slot + 1));;
      ret (Some slot)
  in
  match slot with
  | None => ret SIZE_MAX
  | Some slot =>
    let* head := load (a + offsetof_active_defer_head) in
    let* defers := load (a + offsetof_defers) in
    let ds := slot_addr defers slot in
    store (ds + offsetof_fn) fn;;
    store (ds + offsetof_user) data;;
    store (ds + offsetof_next) head;;
    store (ds + offsetof_prev) SIZE_MAX;;
    (if negb (head =? SIZE_MAX) then
       let* defers1 := load (a + offsetof_defers) in
       store (slot_addr defers1 head + offsetof_prev) slot
     else ret tt);;
    store (a + offsetof_active_defer_head) slot;;
    ret slot
  end.

Definition arena_ext_redefer (arena slot fn data : Z) : M unit :=
  let a := arena in
  assert_ (nonnull a);;
  let* m := load (a + offsetof_magic) in
  assert_ (m =? ARENAIMP_MAGIC_ARENA);;
  let* defers := load (a + offsetof_defers) in
  let ds := slot_addr defers slot in
  store (ds + offsetof_fn) fn;;
  store (ds + offsetof_user) data.

(** [arena_ext_cancel], with the way a finalizer is called left open:
    [arena_free] below ties the knot. *)
Definition arena_ext_cancel_with (call : Z -> Z -> M unit)
    (arena slot : Z) (run_defer : bool) : M unit :=
  let a := arena in
  assert_ (nonnull a);;
  let* m := load (a + offsetof_magic) in
  assert_ (m =? ARENAIMP_MAGIC_ARENA);;
  let* defers := load (a + offsetof_defers) in
  let ds := slot_addr defers slot in
  (if run_defer then
     let* f := load (ds + offsetof_fn) in
     let* u := load (ds + offsetof_user) in
     call f u
   else ret tt);;
  let* prv := load (ds + offsetof_prev) in
  (if negb (prv =? SIZE_MAX) then
     let* defers1 := load (a + offsetof_defers) in
     let* nxt := load (ds + offsetof_next) in
     store (slot_addr defers1 prv + offsetof_next) nxt
   else
     let* nxt := load (ds + offsetof_next) in
     store (a + offsetof_active_defer_head) nxt);;
  let* nxt1 := load (ds + offsetof_next) in
  (if negb (nxt1 =? SIZE_MAX) then
     let* defers2 := load (a + offsetof_defers) in
     let* prv1 := load (ds + offsetof_prev) in
     store (slot_addr defers2 nxt1 + offsetof_prev) prv1
   else ret tt);;
  store (ds + offsetof_fn) 0;;
  store (ds + offsetof_user) 0;;
  let* free_head := load (a + offsetof_free_defer_head) in
  store (ds + offsetof_next) free_head;;
  store (ds + offsetof_prev) SIZE_MAX;;
  store (a + offsetof_free_defer_head) slot.

(** The first loop of [arena_free]; [defers] is the pointer read before the
    loop, and the slot's [next] is read after its finalizer has returned. *)
Fixpoint defer_walk (call : Z -> Z -> M unit) (fuel : nat) (defers slot : Z)
    : M unit :=
  if slot =? SIZE_MAX then ret tt else
  match fuel with
  | O => out_of_fuel
  | S fuel' =>
    let* f := load (slot_addr defers slot + offsetof_fn) in
    let* u := load (slot_addr defers slot + offsetof_user) in
    call f u;;
    let* nxt := load (slot_addr defers slot + offsetof_next) in
    defer_walk call fuel' defers nxt
  end.

(** The second loop of [arena_free]. *)
Fixpoint big_sweep (fuel : nat) (alloc last : Z) : M unit :=
  if alloc =? last then ret tt else
  match fuel with
  | O => out_of_fuel
  | S fuel' =>
    let* nxt := load (alloc + offsetof_big_next) in
    free alloc;;
    big_sweep fuel' nxt last
  end.

Fixpoint arena_free (fuel : nat) (arena : Z) : M unit :=
  match fuel with
  | O => out_of_fuel
  | S fuel' =>
    let a := arena in
    if a =? 0 then ret tt else
    let call f u :=
      if f =? 0 then fault                        (* a call through NULL *)
      else if f =? arenaimp_defer_free_arena then arena_free fuel' u
      else emit (EvCall (Z.to_nat f) u) in
    let* m := load (a + offsetof_magic) in
    assert_ (m =? ARENAIMP_MAGIC_ARENA);;
    emit (EvDestroy arena);;
    store (a + offsetof_magic) ARENAIMP_MAGIC_FREE;;
    let* slot := load (a + offsetof_active_defer_head) in
    let* defers := load (a + offsetof_defers) in
    defer_walk call fuel' defers slot;;
    let* alloc := load (a + offsetof_big_head + offsetof_big_next) in
    let last := a + offsetof_big_tail in
    big_sweep fuel' alloc last;;
    let* allocated := load8 (a + offsetof_allocated) in
    if negb (allocated =? 0) then
      let* parent := load (a + offsetof_parent) in
      if nonnull parent then
        let* parent_slot := load (a + offsetof_parent_slot) in
        arena_ext_cancel_with call parent parent_slot false;;
        afree parent a
      else free a
    else ret tt
  end.

(** A call through an [arena_defer_fn] pointer. *)
Definition call_fn (fuel : nat) (f u : Z) : M unit :=
  if f =? 0 then fault
  else if f =? arenaimp_defer_free_arena then arena_free fuel u
  else emit (EvCall (Z.to_nat f) u).

Definition arena_ext_cancel (fuel : nat) (arena slot : Z) (run_defer : bool)
    : M unit :=
  arena_ext_cancel_with (call_fn fuel) arena slot run_defer.

(** ** Arena lifecycle *)

Definition arenaimp_init (a : Z) : M unit :=
  store (a + offsetof_magic) ARENAIMP_MAGIC_ARENA;;
  store (a + offsetof_active_defer_head) SIZE_MAX;;
  store (a + offsetof_free_defer_head) SIZE_MAX;;
  store (a + offsetof_big_head + offsetof_big_next) (a + offsetof_big_tail);;
  store (a + offsetof_big_tail + offsetof_big_next) (a + offsetof_big_head);;
  store (a + offsetof_next_size) (ARENAIMP_FIRST_PAGE_SIZE / 2);;
  store (a + offsetof_page) a;;
  store (a + offsetof_pos) sizeof_arenaimp_t;;
  store (a + offsetof_size) ARENAIMP_INIT_SIZE.

Definition arena_create (fuel : nat) (parent : Z) : M Z :=
  let p := parent in
  let finish a :=
    store8 (a + offsetof_allocated) 1;;
    arenaimp_init a;;
    ret a in
  if nonnull p then
    let* a :=
      aalloc_size fuel parent (wrap (sizeof_arenaimp_t + ARENAIMP_EXTRA_SIZE)) 1 in
    if a =? 0 then ret 0 else
    store (a + offsetof_parent) p;;
    let* slot := arena_ext_defer fuel parent arenaimp_defer_free_arena a in
    store (a + offsetof_parent_slot) slot;;
    if slot =? SIZE_MAX then afree parent a;; ret 0
    else finish a
  else
    let* a := malloc (wrap (sizeof_ptr + ARENAIMP_EXTRA_SIZE)) in
    if a =? 0 then ret 0 else
    memset0 a sizeof_arenaimp_t;;
    finish a.

Definition arena_init (fuel : nat) (arena parent : Z) : M bool :=
  let a := arena in
  let p := parent in
  memset0 a sizeof_arenaimp_t;;
  let* failed :=
    if nonnull p then
      store (a + offsetof_parent) p;;
      let* slot := arena_ext_defer fuel parent arenaimp_defer_free_arena a in
      store (a + offsetof_parent_slot) slot;;
      if slot =? SIZE_MAX then afree parent a;; ret true
      else ret false
    else ret false in
  if failed : bool then ret false else
  store8 (a + offsetof_allocated) 0;;
  arenaimp_init a;;
  ret true.

(** ** Running the flat model *)

Definition init_state (o : list Z) (nd : bool) : state :=
  mk_state ∅ ∅ o [] nd.

Definition result_of {A} (o : outcome A) : option A :=
  match o with Ok v _ => Some v | _ => None end.

Definition outcome_kind {A} (o : outcome A) : Z :=
  match o with Ok _ _ => 0 | AssertFail => 1 | Fault => 2 | OutOfFuel => 3 end.

(** A store of the caller into a block it was given. *)
Definition poke (p v : Z) : M unit := store8 p v.

(** A root arena whose first page is used up. *)
Definition full_root :=
  let* p := arena_create 4 0 in
  let* _ := aalloc_uninit_size 4 p 200 1 in
  let* _ := aalloc_uninit_size 4 p 64 1 in
  ret p.

(** Observe the state without changing it. *)
Definition peek {A} (f : state -> A) : M A := fun s => Ok (f s) s.

(** Growth hands out the first block of a new page and sets the cursor to
    that block's footprint; the block is released and recycled for a larger
    request of its size class while its neighbour [p] is resized into it. *)
Definition scenario_realloc_overlap :=
  let* a := full_root in
  let* x := aalloc_uninit_size 4 a 1 1 in
  let* pos_x := load (a + offsetof_pos) in
  let* p := aalloc_uninit_size 4 a 2 1 in
  poke p 7;;
  poke (p + 1) 255;;
  afree a x;;
  let* c := aalloc_capacity_bytes p in
  let* q := arealloc_size 4 a 1 8 p in
  let* q0 := load8 q in
  let* q1 := load8 (q + 1) in
  let* cq := aalloc_capacity_bytes q in
  ret (a, x, pos_x, p, c, q, cq, q0, q1).

(** The registry fields of arena [a]: active head, free head and number of
    slots; and the [prev] and [next] of one slot. *)
Definition registry_heads (a : Z) : M (Z * Z * Z) :=
  let* ah := load (a + offsetof_active_defer_head) in
  let* fh := load (a + offsetof_free_defer_head) in
  let* num := load (a + offsetof_num_defers) in
  ret (ah, fh, num).

Definition slot_links (a slot : Z) : M (Z * Z) :=
  let* d := load (a + offsetof_defers) in
  let* p := load (slot_addr d slot + offsetof_prev) in
  let* n := load (slot_addr d slot + offsetof_next) in
  ret (p, n).

(** Two registrations around the release of a 56-byte block, then one plain
    32-byte allocation. *)
Definition scenario_alloc_over_slot :=
  let* a := full_root in
  let* b := aalloc_uninit_size 4 a 56 1 in
  let* s0 := arena_ext_defer 4 a 101 11 in
  afree a b;;
  let* s1 := arena_ext_defer 4 a 102 22 in
  let* d := load (a + offsetof_defers) in
  let* heads := registry_heads a in
  let* slot0 := slot_links a 0 in
  let* slot1 := slot_links a 1 in
  let* x := aalloc_uninit_size 4 a 32 1 in
  let* heads' := registry_heads a in
  let* slot0' := slot_links a 0 in
  let* slot1' := slot_links a 1 in
  ret (a, b, s0, s1, slot_addr d 1 + offsetof_next,
       (heads, slot0, slot1), x, (heads', slot0', slot1')).

(** A root arena with one child; the child's slot is cancelled with its
    finalizer run. *)
Definition scenario_cancel_child_slot :=
  let* p := arena_create 4 0 in
  let* c := arena_create 4 p in
  let* slot := load (c + offsetof_parent_slot) in
  let* heads := registry_heads p in
  let* links := slot_links p slot in
  arena_ext_cancel 8 p slot true;;
  let* heads' := registry_heads p in
  let* links' := slot_links p slot in
  ret (p, c, slot, (heads, links), (heads', links')).

(** A root arena with two children made by [arena_create], each owning one
    5000-byte block; then the root is torn down. *)
Definition scenario_two_children :=
  let* p := arena_create 4 0 in
  let* a := arena_create 4 p in
  let* b := arena_create 4 p in
  let* x := aalloc_uninit_size 4 a 5000 1 in
  let* y := aalloc_uninit_size 4 b 5000 1 in
  let* t0 := peek trace in
  arena_free 8 p;;
  let* t1 := peek trace in
  let* lv := peek (fun s => map fst (map_to_list (blocks s))) in
  ret (p, a, b, x, y, drop (length t0) t1, lv).

(** Cleanup A, a child arena, cleanups B and C, then teardown of the root. *)
Definition scenario_child_between :=
  let* p := arena_create 4 0 in
  let* sa := arena_ext_defer 4 p 1 11 in
  let* c := arena_create 4 p in
  let* sb := arena_ext_defer 4 p 2 22 in
  let* sc := arena_ext_defer 4 p 3 33 in
  let* t0 := peek trace in
  arena_free 8 p;;
  let* t1 := peek trace in
  let* lv := peek (fun s => map fst (map_to_list (blocks s))) in
  ret (p, sa, c, sb, sc, drop (length t0) t1, lv).

(** A root arena with one child and a grown page, torn down. *)
Definition scenario_grown_page_child :=
  let* p := arena_create 4 0 in
  let* c := arena_create 4 p in
  let* x := aalloc_uninit_size 4 p 200 1 in
  let* y := aalloc_uninit_size 4 p 64 1 in
  arena_free 8 p;;
  peek trace.

End Flat.

(** * Properties *)

(** ** Size classes *)

Lemma forallb_range (P : Z -> bool) (n : nat) :
  forallb P (map Z.of_nat (seq 0 n)) = true ->
  forall z, 0 <= z < Z.of_nat n -> P z = true.
Proof.
  intros H z Hz.
  rewrite forallb_forall in H.
  apply H. apply in_map_iff. exists (Z.to_nat z). split; [lia|].
  apply in_seq. lia.
Qed.

Lemma quantize_small n :
  0 <= n <= ARENAIMP_LARGEST_SIZECLASS ->
  quantize n = (n + 7) / 8 /\ 0 <= quantize n <= 56.
Proof.
  unfold ARENAIMP_LARGEST_SIZECLASS, quantize, wrap, ARENAIMP_SIZECLASS_QUANTIZATION.
  intros Hn.
  replace (n + 8 - 1) with (n + 7) by lia.
  rewrite Z.mod_small by lia.
  split; [done|].
  split; [apply Z.div_pos; lia|].
  assert ((n + 7) / 8 < 57) by (apply Z.div_lt_upper_bound; lia).
  lia.
Qed.

Lemma class_ok_all q : 0 <= q < 57 -> class_ok_at q = true.
Proof. apply (forallb_range class_ok_at 57). vm_compute. reflexivity. Qed.

Lemma class_mono_step q : 0 <= q < 56 -> class_mono_at q = true.
Proof. apply (forallb_range class_mono_at 56). vm_compute. reflexivity. Qed.

Lemma chunk_strict_step c : 0 <= c < 9 -> chunk_strict_at c = true.
Proof. apply (forallb_range chunk_strict_at 9). vm_compute. reflexivity. Qed.

Lemma class_mono_q (p q : Z) :
  0 <= p -> p <= q -> q <= 56 ->
  table_get arenaimp_size_to_class p <= table_get arenaimp_size_to_class q.
Proof.
  intros Hp Hpq Hq.
  assert (forall k : nat, p + Z.of_nat k <= 56 ->
    table_get arenaimp_size_to_class p
      <= table_get arenaimp_size_to_class (p + Z.of_nat k)) as Hk.
  { induction k as [|k IH]; intros Hb.
    - replace (p + Z.of_nat 0) with p by lia. lia.
    - pose proof (class_mono_step (p + Z.of_nat k) ltac:(lia)) as Hs.
      unfold class_mono_at in Hs. apply Z.leb_le in Hs.
      replace (p + Z.of_nat (S k)) with (p + Z.of_nat k + 1) by lia.
      etrans; [apply IH; lia | exact Hs]. }
  specialize (Hk (Z.to_nat (q - p))).
  replace (p + Z.of_nat (Z.to_nat (q - p))) with q in Hk by lia.
  apply Hk. lia.
Qed.

Lemma chunk_strict (i j : Z) :
  0 <= i -> i < j -> j < 10 -> chunk_of i < chunk_of j.
Proof.
  intros Hi Hij Hj.
  assert (forall k : nat, i + Z.of_nat k + 1 < 10 ->
    chunk_of i < chunk_of (i + Z.of_nat k + 1)) as Hk.
  { induction k as [|k IH]; intros Hb.
    - replace (i + Z.of_nat 0 + 1) with (i + 1) by lia.
      apply Z.ltb_lt. apply chunk_strict_step. lia.
    - pose proof (chunk_strict_step (i + Z.of_nat k + 1) ltac:(lia)) as Hs.
      unfold chunk_strict_at in Hs. apply Z.ltb_lt in Hs.
      replace (i + Z.of_nat (S k) + 1) with (i + Z.of_nat k + 1 + 1) by lia.
      etrans; [apply IH; lia | exact Hs]. }
  specialize (Hk (Z.to_nat (j - i - 1))).
  replace (i + Z.of_nat (Z.to_nat (j - i - 1)) + 1) with j in Hk by lia.
  apply Hk. lia.
Qed.

(** C4: for a footprint of at most 448 bytes the table picks the smallest
    bucket that holds the footprint rounded up to a multiple of 8; the class
    index is non-decreasing in the footprint; bucket sizes strictly increase
    with the class index. *)
Theorem size_class_smallest_and_monotonic :
  (forall n, 0 <= n <= ARENAIMP_LARGEST_SIZECLASS ->
     let c := sizeclass_of n in
     0 <= c < ARENAIMP_NUM_SIZECLASSES /\
     round_up_8 n <= chunk_of c /\
     (forall c', 0 <= c' < ARENAIMP_NUM_SIZECLASSES ->
        round_up_8 n <= chunk_of c' -> chunk_of c <= chunk_of c')) /\
  (forall a b, 0 <= a -> a < b -> b <= ARENAIMP_LARGEST_SIZECLASS ->
     sizeclass_of a <= sizeclass_of b) /\
  (forall i j, 0 <= i -> i < j -> j < ARENAIMP_NUM_SIZECLASSES ->
     chunk_of i < chunk_of j).
Proof.
  split; [|split].
  - intros n Hn c.
    destruct (quantize_small n Hn) as [Hq Hr].
    pose proof (class_ok_all (quantize n) ltac:(lia)) as Hok.
    unfold class_ok_at in Hok.
    rewrite !andb_true_iff in Hok.
    destruct Hok as [[[H0 H1] H2] H3].
    apply Z.leb_le in H0. apply Z.ltb_lt in H1. apply Z.leb_le in H2.
    assert (round_up_8 n = 8 * quantize n) as Hru
      by (unfold round_up_8; rewrite Hq; lia).
    subst c. unfold sizeclass_of. rewrite Hru.
    split; [lia|]. split; [lia|].
    intros c' Hc' Hle.
    pose proof (forallb_range _ _ H3 c' Hc') as Hi. cbv beta in Hi.
    apply Z.leb_le in Hle. rewrite Hle in Hi. simpl in Hi.
    by apply Z.leb_le in Hi.
  - intros a b Ha Hab Hb.
    destruct (quantize_small a ltac:(lia)) as [Hqa Hra].
    destruct (quantize_small b ltac:(lia)) as [Hqb Hrb].
    unfold sizeclass_of. apply class_mono_q; [lia| |lia].
    rewrite Hqa, Hqb. apply Z.div_le_mono; lia.
  - intros i j Hi Hij Hj. apply chunk_strict; [done..|].
    exact Hj.
Qed.

Lemma size_class_smallest_and_monotonic_witness :
  0 <= sizeclass_of 28 < ARENAIMP_NUM_SIZECLASSES /\
  sizeclass_of 28 <= sizeclass_of 100 /\ chunk_of 2 < chunk_of 3.
Proof.
  destruct size_class_smallest_and_monotonic as (H1 & H2 & H3).
  split; [|split].
  - apply (H1 28). vm_compute. split; discriminate.
  - apply (H2 28 100); vm_compute; [discriminate|reflexivity|discriminate].
  - apply (H3 2 3); vm_compute; [discriminate|reflexivity|reflexivity].
Defined.

(** ** The concrete scenario *)

(** C5: on a fresh root arena (malloc places it at 1000) a 20-byte block is
    carved from the arena's own first page without any call of malloc;
    after its release the next request of the same class gets the same address
    back, with the page, the cursor and the malloc trace untouched and the
    capacity word set to the new request (20, or 17 for a smaller request of
    the same class); a 5000-byte block is obtained from malloc and linked
    between head and tail; its release leaves head.next = tail and
    tail.prev = head.  This holds with assert() on and off. *)
Theorem scenario_small_reuse_then_big_ring :
  forall nd : bool,
    result_of (scenario_small 20 (init_state [1000; 20000] nd))
      = Some (1000, 1232, [EvMalloc 296 1000], 256,
              [0; 0; 1224; 0; 0; 0; 0; 0; 0; 0],
              1232, [EvMalloc 296 1000], 256, 1000, 20) /\
    result_of (scenario_small 17 (init_state [1000; 20000] nd))
      = Some (1000, 1232, [EvMalloc 296 1000], 256,
              [0; 0; 1224; 0; 0; 0; 0; 0; 0; 0],
              1232, [EvMalloc 296 1000], 256, 1000, 17) /\
    result_of (scenario_big (init_state [1000; 20000] nd))
      = Some (1000, 20024, [EvMalloc 296 1000; EvMalloc 5024 20000],
              (Some 20000, Some 20000, Some (big_head 1000),
               Some (big_head 1000), Some (big_tail 1000)),
              5000,
              (Some (big_tail 1000), Some (big_head 1000), Some (big_head 1000),
               Some (big_head 1000), Some (big_tail 1000)),
              256).
Proof. intros []; vm_compute; repeat split; reflexivity. Qed.

(** ** List utilities *)

Lemma alist_elem_ext (b b' : Z -> Z) sz l i j :
  (forall k, 0 <= k < sz -> b' (data l + i * sz + k) = b (data l + j * sz + k)) ->
  alist_elem b' sz l i = alist_elem b sz l j.
Proof.
  intros H. unfold alist_elem. apply map_ext_in. intros k Hk.
  apply in_seq in Hk. apply H. lia.
Qed.

(** What [alist_remove_size] does for an index below the last one: the copy
    goes from [index] to the old last position, so the element at [index]
    stays and the last element is lost. *)
Lemma alist_remove_size_copies_index_to_last (s : state) sz l index :
  0 < sz -> 0 < data l -> 0 <= index -> index < count l - 1 ->
  count l * sz < 2 ^ 64 ->
  exists s',
    alist_remove_size sz l index s = Ok (true, mk_alist (data l) (count l - 1)) s' /\
    alist_elem (bytes s') sz l index = alist_elem (bytes s) sz l index /\
    alist_elem (bytes s') sz l (count l - 1) = alist_elem (bytes s) sz l index.
Proof.
  intros Hsz Hd Hi Hlt Hov.
  assert (count l < 2 ^ 64) by nia.
  assert (wrap (count l - 1) = count l - 1) as Hw1
    by (unfold wrap; apply Z.mod_small; lia).
  assert (wrap (index * sz) = index * sz) as Hw2
    by (unfold wrap; apply Z.mod_small; nia).
  assert (wrap ((count l - 1) * sz) = (count l - 1) * sz) as Hw3
    by (unfold wrap; apply Z.mod_small; nia).
  unfold alist_remove_size, bind, assert_, memcpy, set_bytes, ret.
  rewrite Hw1, Hw2, Hw3.
  assert ((index <? count l) = true) as -> by (apply Z.ltb_lt; lia).
  assert ((count l <=? index) = false) as -> by (apply Z.leb_gt; lia).
  assert ((index =? count l - 1) = false) as -> by (apply Z.eqb_neq; lia).
  assert ((sz =? 0) = false) as -> by (apply Z.eqb_neq; lia).
  assert ((data l + (count l - 1) * sz =? 0) = false) as -> by (apply Z.eqb_neq; nia).
  assert ((data l + index * sz =? 0) = false) as -> by (apply Z.eqb_neq; nia).
  simpl.
  eexists. split; [destruct (ndebug s); reflexivity|].
  destruct (ndebug s); simpl; split.
  all: apply alist_elem_ext; intros k Hk; unfold memcpy_bytes.
  1,3: assert ((data l + (count l - 1) * sz <=? data l + index * sz + k) = false)
         as -> by (apply Z.leb_gt; nia); reflexivity.
  all: assert ((data l + (count l - 1) * sz <=? data l + (count l - 1) * sz + k) = true)
         as -> by (apply Z.leb_le; lia);
       assert ((data l + (count l - 1) * sz + k <? data l + (count l - 1) * sz + sz) = true)
         as -> by (apply Z.ltb_lt; lia);
       simpl; f_equal; lia.
Qed.

(** C9 (the code differs): removing index 0 of the three-element list
    [[100..103]; [104..107]; [108..111]] returns true and count 2, yet
    position 0 still holds the removed element [100..103] rather than the
    former last element [108..111], which is overwritten instead. *)
Theorem alist_remove_size_keeps_removed_element :
  forall nd : bool,
    result_of (scenario_remove 0 (alist3_state nd))
      = Some ([[100; 101; 102; 103]; [104; 105; 106; 107]; [108; 109; 110; 111]],
              (true, mk_alist 100 2),
              [[100; 101; 102; 103]; [104; 105; 106; 107]; [100; 101; 102; 103]]).
Proof. intros []; vm_compute; reflexivity. Qed.

(** ** Teardown of a parent with children *)

(** C1 (the code differs): root 1000 has the children 2024 and 3024, each
    owning one big block (40000 and 50000).  With assert() compiled out,
    [arena_free] of the root destroys only the child registered last: its
    re-entrant [arena_ext_cancel] rewrites the [next] of the slot the walk
    stands on, the walk stops, child 2024 is never destroyed and its block
    40000 is never freed; the storage of child 3024 (block 3000) is unlinked
    but never freed either.  With assert() on, the magic check of
    [arena_ext_cancel] on the already retagged parent fires. *)
Theorem arena_free_parent_skips_first_child :
  result_of (scenario_two_children (init_state [1000; 2000; 3000; 40000; 50000] true))
    = Some (1000, 2024, 3024, 40024, 50024,
            [EvDestroy 1000; EvDestroy 3024; EvFree 50000; EvFree 2000; EvFree 1000],
            [3000; 40000]) /\
  scenario_two_children (init_state [1000; 2000; 3000; 40000; 50000] false)
    = AssertFail.
Proof. split; vm_compute; reflexivity. Qed.

(** With a single child the walk does reach it, but the child's own storage
    (block 2000) is only unlinked from the parent's ring, not freed; with
    assert() on the same magic check fires. *)
Lemma arena_free_parent_one_child :
  result_of (scenario_one_child (init_state [1000; 2000; 40000] true))
    = Some (1000, 2024, 40024,
            [EvDestroy 1000; EvDestroy 2024; EvFree 40000; EvFree 1000], [2000]) /\
  scenario_one_child (init_state [1000; 2000; 40000] false) = AssertFail.
Proof. split; vm_compute; reflexivity. Qed.

(** ** Allocation failure *)

(** C3 (the code differs): once malloc returns NULL, [aalloc_uninit_size],
    [arena_defer_size] and [arena_ext_defer] do report the failure when
    assert() is compiled out, but [aalloc_size] passes the NULL result to
    memset, parented [arena_create] goes through [aalloc_size], and
    [arena_init] releases the caller's storage through [afree]; all three end
    in undefined behaviour instead of a null result.  With assert() on, the
    assert on the malloc result fires in every one of them. *)
Theorem allocation_failure_not_propagated :
  result_of (scenario_aalloc_uninit_fails 5000 (init_state [1000] true)) = Some 0 /\
  result_of (scenario_aalloc_uninit_fails 20 (init_state [1000] true)) = Some 0 /\
  result_of (scenario_defer_size_fails 20 (init_state [1000] true)) = Some 0 /\
  result_of (scenario_ext_defer_fails (init_state [1000] true))
    = Some (SIZE_MAX, [], [], SIZE_MAX, SIZE_MAX, 256, 512) /\
  scenario_aalloc_size_fails 5000 (init_state [1000] true) = Fault /\
  scenario_aalloc_size_fails 20 (init_state [1000] true) = Fault /\
  scenario_create_fails (init_state [1000] true) = Fault /\
  scenario_init_fails 7000 (init_state [1000] true) = Fault /\
  scenario_aalloc_uninit_fails 5000 (init_state [1000] false) = AssertFail /\
  scenario_aalloc_size_fails 5000 (init_state [1000] false) = AssertFail /\
  scenario_create_fails (init_state [1000] false) = AssertFail /\
  scenario_init_fails 7000 (init_state [1000] false) = AssertFail /\
  scenario_defer_size_fails 20 (init_state [1000] false) = AssertFail.
Proof. repeat split; vm_compute; reflexivity. Qed.

(** ** Stepping through the model *)

Lemma bind_Ok {A B} (m : M A) (k : A -> M B) s v s' :
  bind m k s = Ok v s' <-> exists v1 s1, m s = Ok v1 s1 /\ k v1 s1 = Ok v s'.
Proof.
  unfold bind. split.
  - destruct (m s) as [v1 s1| | |]; try discriminate. eauto.
  - intros (v1 & s1 & -> & H). exact H.
Qed.

Lemma bind_eq {A B} (m : M A) (k : A -> M B) s v1 s1 :
  m s = Ok v1 s1 -> bind m k s = k v1 s1.
Proof. unfold bind. by intros ->. Qed.

Lemma load_eq p v s : mem s !! p = Some v -> load p s = Ok v s.
Proof. unfold load. by intros ->. Qed.

Lemma get_arena_eq a r s : arenas s !! a = Some r -> get_arena a s = Ok r s.
Proof. unfold get_arena. by intros ->. Qed.

Lemma assert_true s : assert_ true s = Ok tt s.
Proof. unfold assert_. by destruct (ndebug s). Qed.

Lemma assert_ok c s : ndebug s = true \/ c = true -> assert_ c s = Ok tt s.
Proof. unfold assert_. intros [-> | ->]; [done|]. by destruct (ndebug s). Qed.

(** ** The big-object ring *)

Lemma sep_sym x y : sep x y -> sep y x.
Proof. unfold sep. tauto. Qed.

Lemma links_frame (m m' : gmap Z Z) x l last :
  (forall y, y ∈ x :: l -> m' !! big_next y = m !! big_next y) ->
  (forall y, y ∈ l ++ [last] -> m' !! big_prev y = m !! big_prev y) ->
  links m x l last -> links m' x l last.
Proof.
  revert x. induction l as [|n l IH]; intros x Hn Hp; simpl.
  - intros [H1 H2]. split.
    + rewrite Hn; [done|]. set_solver.
    + rewrite Hp; [done|]. set_solver.
  - intros (H1 & H2 & H3). split; [|split].
    + rewrite Hn; [done|]. set_solver.
    + rewrite Hp; [done|]. set_solver.
    + apply IH; [| |done].
      * intros y Hy. apply Hn. apply elem_of_cons. by right.
      * intros y Hy. apply Hp. apply elem_of_cons. by right.
Qed.


Ltac elem :=
  repeat progress (rewrite ?elem_of_cons, ?elem_of_app, ?elem_of_nil in * );
  first [tauto | intuition congruence].

Ltac unfold_addr :=
  unfold sep, big_prev, big_next, big_capacity, big_head, big_tail,
    offsetof_big_head, offsetof_big_tail, sizeof_big_header in *.

(** Look a word up through a stack of stores. *)
Ltac look :=
  repeat first
    [ rewrite lookup_insert_eq
    | rewrite lookup_insert_ne by (unfold_addr; lia) ].

(** The first block of the ring, or the tail when there is none. *)
Lemma ring_first m a l :
  ring_wf m a l ->
  m !! big_next (big_head a) = Some (hd (big_tail a) l).
Proof. intros (_ & _ & H). destruct l; simpl in *; tauto. Qed.

Lemma all_sep_elem x l y : all_sep (x :: l) -> y ∈ l -> sep x y.
Proof. intros [H _] Hy. rewrite Forall_forall in H. by apply H. Qed.

Lemma all_sep_tail x l : all_sep (x :: l) -> all_sep l.
Proof. by intros [_ H]. Qed.

Lemma aalloc_big_ring (s : state) (a total h : Z) (l rest : list Z) :
  ring_wf (mem s) a l ->
  oracle s = h :: rest -> h <> 0 ->
  Forall (sep h) (big_head a :: big_tail a :: l) ->
  exists s',
    aalloc_big a total s = Ok (h + sizeof_big_header) s' /\
    ring_wf (mem s') a (h :: l) /\
    mem s' !! big_capacity h = Some total /\
    arenas s' = arenas s /\ bytes s' = bytes s /\
    live s' = {[ h ]} ∪ live s /\ oracle s' = rest /\
    trace s' = trace s ++ [EvMalloc (wrap (sizeof_big_header + total)) h] /\
    ndebug s' = ndebug s.
Proof.
  intros Hwf Ho Hh Hsep.
  pose proof (ring_first _ _ _ Hwf) as Hfirst.
  destruct Hwf as (Htn & Hall & Hl).
  set (first := hd (big_tail a) l) in *.
  assert ((h =? 0) = false) as Hh0 by (by apply Z.eqb_neq).
  unfold aalloc_big, bind, malloc. rewrite Ho. simpl. rewrite Hh0.
  rewrite assert_ok by (right; unfold nonnull; by rewrite Hh0).
  unfold load. simpl. rewrite Hfirst.
  unfold store, ret. simpl.
  eexists. split; [reflexivity|]. simpl.
  (* separation facts *)
  pose proof Hsep as Hsep'. rewrite Forall_forall in Hsep'.
  assert (sep h (big_head a)) as Shh by (apply Hsep'; elem).
  assert (sep h (big_tail a)) as Sht by (apply Hsep'; elem).
  assert (forall y, y ∈ l -> sep h y) as Shl by (intros; apply Hsep'; elem).
  assert (forall y, y ∈ l -> sep (big_head a) y) as Sal
    by (intros y Hy; apply (all_sep_elem _ _ _ Hall); elem).
  assert (forall y, y ∈ l -> sep (big_tail a) y) as Stl
    by (intros y Hy; apply (all_sep_elem _ _ _ (all_sep_tail _ _ Hall)); done).
  assert (first = big_tail a \/ first ∈ l) as Hf1
    by (subst first; destruct l; simpl; [by left | right; elem]).
  assert (sep h first) as Shf by (destruct Hf1 as [-> | ?]; auto).
  assert (sep (big_head a) first) as Saf
    by (destruct Hf1 as [-> | ?]; [unfold_addr; lia | auto]).
  split; [|split; [|repeat split; reflexivity]].
  2:{ look. done. }
  split; [|split].
  - destruct Hf1 as [Hf1 | Hf1].
    + rewrite Hf1. look. done.
    + pose proof (Stl _ Hf1). look. done.
  - simpl. split; [|split; [|split]].
    + constructor; [unfold_addr; lia|]. constructor; [by apply sep_sym|].
      apply Forall_forall. intros y Hy. apply (Sal y Hy).
    + constructor; [by apply sep_sym|]. apply Forall_forall. intros y Hy.
      apply (Stl y Hy).
    + apply Forall_forall. intros y Hy. apply (Shl y Hy).
    + apply (all_sep_tail _ _ (all_sep_tail _ _ Hall)).
  - simpl. split; [by look|]. split; [by look|].
    destruct l as [|n l'].
    + subst first. simpl. split; [by look|]. by look.
    + subst first. simpl in *. destruct Hl as (H1 & H2 & H3).
      split; [by look|]. split; [by look|].
      assert (all_sep (n :: l')) as Hnl
        by apply (all_sep_tail _ _ (all_sep_tail _ _ Hall)).
      eapply links_frame; [| |exact H3].
      * intros y Hy.
        assert (y ∈ n :: l') as Hy' by done.
        pose proof (Shl y Hy'). pose proof (Sal y Hy').
        apply elem_of_cons in Hy as [-> | Hy]; [by look|].
        pose proof (all_sep_elem _ _ _ Hnl Hy). by look.
      * intros y Hy.
        apply elem_of_app in Hy as [Hy | Hy].
        -- assert (y ∈ n :: l') as Hy' by elem.
           pose proof (Shl y Hy'). pose proof (Sal y Hy').
           pose proof (all_sep_elem _ _ _ Hnl Hy). by look.
        -- apply list_elem_of_singleton in Hy as ->.
           assert (n ∈ n :: l') as Hn by elem.
           pose proof (Stl n Hn). by look.
Qed.

Lemma sep_neq x y : sep x y -> x <> y.
Proof. unfold_addr. lia. Qed.

Lemma all_sep_NoDup_psep l : all_sep l <-> NoDup l /\ psep l.
Proof.
  induction l as [|x l IH]; simpl.
  - split; [intros _; split; [constructor|intros ? ? H; by apply elem_of_nil in H]|done].
  - rewrite IH, Forall_forall. split.
    + intros (Hx & Hnd & Hp). split.
      * constructor; [|done]. intros Hin. by apply (sep_neq x x); [apply Hx|].
      * intros y z Hy Hz Hne.
        apply elem_of_cons in Hy as [-> | Hy]; apply elem_of_cons in Hz as [-> | Hz].
        -- done.
        -- by apply Hx.
        -- apply sep_sym. by apply Hx.
        -- by apply Hp.
    + intros (Hnd & Hp). apply NoDup_cons in Hnd as [Hx Hnd]. split; [|split; [done|]].
      * intros y Hy. apply Hp; [elem|elem|]. intros ->. done.
      * intros y z Hy Hz. apply Hp; elem.
Qed.

Lemma links_next_prev m x l last :
  links m x l last ->
  m !! big_next x = Some (hd last l) /\ m !! big_prev (hd last l) = Some x.
Proof. destruct l; simpl; tauto. Qed.

(** Unlinking block [h] by the two stores of [afree]. *)
Lemma links_remove m x l1 h l2 last :
  NoDup (x :: l1 ++ h :: l2 ++ [last]) ->
  psep (x :: l1 ++ h :: l2 ++ [last]) ->
  links m x (l1 ++ h :: l2) last ->
  exists p n,
    p ∈ x :: l1 /\ n ∈ l2 ++ [last] /\
    m !! big_prev h = Some p /\ m !! big_next h = Some n /\
    m !! big_next p = Some h /\ m !! big_prev n = Some h /\
    links (<[big_prev n := p]> (<[big_next p := n]> m)) x (l1 ++ l2) last.
Proof.
  revert x. induction l1 as [|k l1 IH]; intros x Hnd Hp; simpl.
  - intros (H1 & H2 & H3).
    destruct (links_next_prev _ _ _ _ H3) as [H4 H5].
    exists x, (hd last l2).
    assert (hd last l2 ∈ l2 ++ [last]) as Hn by (destruct l2; simpl; elem).
    split; [elem|]. split; [done|]. repeat (split; [done|]).
    assert (forall y, y ∈ l2 ++ [last] -> sep x y) as Sx.
    { intros y Hy. apply Hp; [elem|simpl; elem|].
      intros <-. apply NoDup_cons in Hnd as [Hnd _]. apply Hnd. simpl. elem. }
    destruct l2 as [|n l2]; simpl in *.
    + pose proof (Sx last ltac:(elem)). split; by look.
    + destruct H3 as (H6 & H7 & H8).
      pose proof (Sx n ltac:(elem)).
      split; [by look|]. split; [by look|].
      assert (forall y, y ∈ l2 ++ [last] -> sep n y) as Sn.
      { intros y Hy. apply Hp; [elem|elem|].
        intros <-. apply NoDup_cons in Hnd as [_ Hnd].
        apply NoDup_cons in Hnd as [_ Hnd].
        apply NoDup_cons in Hnd as [Hnd _]. by apply Hnd. }
      eapply links_frame; [| |exact H8].
      * intros y Hy. apply elem_of_cons in Hy as [-> | Hy]; [by look|].
        pose proof (Sx y ltac:(elem)).
        pose proof (Sn y ltac:(elem)). by look.
      * intros y Hy. pose proof (Sx y ltac:(elem)). pose proof (Sn y Hy). by look.
  - intros (H1 & H2 & H3).
    assert (NoDup (k :: l1 ++ h :: l2 ++ [last])) as Hnd'
      by (by apply NoDup_cons in Hnd as [_ ?]).
    assert (psep (k :: l1 ++ h :: l2 ++ [last])) as Hp'
      by (intros y z Hy Hz; apply Hp; elem).
    destruct (IH k Hnd' Hp' H3) as (p & n & Hpin & Hnin & G1 & G2 & G3 & G4 & G5).
    exists p, n.
    split; [elem|]. split; [done|]. repeat (split; [done|]).
    assert (x <> p /\ x <> n /\ k <> n) as (Hxp & Hxn & Hkn).
    { apply NoDup_cons in Hnd as [Hx Hnd]. apply NoDup_cons in Hnd as [Hk Hnd].
      simpl in Hx. rewrite elem_of_cons, !elem_of_app, elem_of_cons, elem_of_app in Hx.
      rewrite !elem_of_app, elem_of_cons, elem_of_app in Hk.
      rewrite elem_of_app in Hnin. rewrite elem_of_cons in Hpin.
      repeat split; intros ->; tauto. }
    assert (sep x p) as S1.
    { apply Hp; [elem| |done]. simpl. rewrite !elem_of_cons, !elem_of_app.
      rewrite elem_of_cons in Hpin. tauto. }
    assert (sep x n) as S2.
    { apply Hp; [elem| |done]. simpl.
      rewrite !elem_of_cons, !elem_of_app, elem_of_cons, elem_of_app.
      rewrite elem_of_app in Hnin. tauto. }
    assert (sep k n) as S3.
    { apply Hp; [elem| |done]. simpl.
      rewrite !elem_of_cons, !elem_of_app, elem_of_cons, elem_of_app.
      rewrite elem_of_app in Hnin. tauto. }
    assert (k = p \/ sep k p) as S4.
    { destruct (decide (k = p)) as [|Hne]; [by left|right].
      apply Hp; [elem| |done]. simpl. rewrite !elem_of_cons, !elem_of_app.
      rewrite elem_of_cons in Hpin. tauto. }
    split; [by look|]. split; [|done].
    destruct S4 as [<- | S4]; by look.
Qed.

Lemma all_sep_remove_middle l1 h l2 : all_sep (l1 ++ h :: l2) -> all_sep (l1 ++ l2).
Proof.
  induction l1 as [|x l1 IH]; simpl.
  - tauto.
  - rewrite !Forall_app, Forall_cons. tauto.
Qed.

Lemma all_sep_rotate x t l :
  all_sep (x :: t :: l) -> NoDup (x :: l ++ [t]) /\ psep (x :: l ++ [t]).
Proof.
  intros H. apply all_sep_NoDup_psep in H as [Hnd Hp].
  assert (x :: t :: l ≡ₚ x :: l ++ [t]) as Hperm
    by (f_equiv; apply Permutation_cons_append).
  split.
  - by rewrite <- Hperm.
  - intros y z Hy Hz. apply Hp; by rewrite Hperm.
Qed.

Lemma afree_big_ring (s : state) (a h c : Z) (l1 l2 : list Z) :
  a <> 0 -> h + sizeof_big_header <> 0 ->
  ring_wf (mem s) a (l1 ++ h :: l2) ->
  mem s !! big_capacity h = Some c ->
  ARENAIMP_LARGEST_SIZECLASS - sizeof_small_header < c ->
  exists s',
    afree a (h + sizeof_big_header) s = Ok tt s' /\
    ring_wf (mem s') a (l1 ++ l2) /\
    links (mem s') (big_head a) (l1 ++ l2) (big_tail a) /\
    arenas s' = arenas s /\ bytes s' = bytes s /\ live s' = live s /\
    oracle s' = oracle s /\ trace s' = trace s /\ ndebug s' = ndebug s.
Proof.
  intros Ha Hh (Htn & Hall & Hl) Hc Hbig.
  assert (links (mem s) (big_head a) (l1 ++ h :: l2) (big_tail a)) as Hlk
    by (destruct l1; exact Hl).
  destruct (all_sep_rotate _ _ _ Hall) as [Hnd Hp].
  rewrite <- app_assoc in Hnd, Hp. simpl in Hnd, Hp.
  destruct (links_remove _ _ _ _ _ _ Hnd Hp Hlk)
    as (p & n & Hpin & Hnin & G1 & G2 & G3 & G4 & G5).
  unfold afree.
  assert ((h + sizeof_big_header =? 0) = false) as -> by (by apply Z.eqb_neq).
  assert ((a =? 0) = false) as -> by (by apply Z.eqb_neq).
  replace (h + sizeof_big_header - sizeof_common_header) with (big_capacity h)
    by (unfold big_capacity, sizeof_big_header, sizeof_common_header; lia).
  replace (h + sizeof_big_header - sizeof_big_header) with h by lia.
  rewrite (bind_eq _ _ _ _ _ (load_eq _ _ _ Hc)).
  assert ((c <=? wrap (ARENAIMP_LARGEST_SIZECLASS - sizeof_small_header)) = false)
    as -> by (apply Z.leb_gt; exact Hbig).
  rewrite (bind_eq _ _ _ _ _ (load_eq _ _ _ G1)).
  rewrite (bind_eq _ _ _ _ _ (load_eq _ _ _ G2)).
  assert ((fun s0 : state =>
             if ndebug s0 then Ok tt s0
             else (let* pn := load (big_next p) in
                   let* np := load (big_prev n) in
                   assert_ ((pn =? h) && (np =? h))) s0) s = Ok tt s) as Hassert.
  { simpl. destruct (ndebug s); [done|].
    rewrite (bind_eq _ _ _ _ _ (load_eq _ _ _ G3)).
    rewrite (bind_eq _ _ _ _ _ (load_eq _ _ _ G4)).
    rewrite Z.eqb_refl. apply assert_true. }
  rewrite (bind_eq _ _ _ _ _ Hassert).
  unfold bind, store. simpl.
  eexists. split; [reflexivity|]. simpl.
  split; [|split; [exact G5|repeat split; reflexivity]].
  assert (all_sep (big_head a :: big_tail a :: l1 ++ l2)) as Hall'
    by (apply (all_sep_remove_middle (big_head a :: big_tail a :: l1) h l2), Hall).
  split; [|split; [exact Hall'|]].
  - assert (p <> big_tail a) as Hpt.
    { intros ->. apply NoDup_cons in Hnd as [Hx Hnd].
      apply elem_of_cons in Hpin as [Hpin | Hpin].
      - unfold_addr. lia.
      - rewrite NoDup_app in Hnd. destruct Hnd as (_ & Hnd & _).
        apply (Hnd _ Hpin). elem. }
    assert (sep p (big_tail a)) as S1.
    { apply Hp; [|elem|done]. revert Hpin. clear. intros. elem. }
    assert (n = big_tail a \/ sep n (big_tail a)) as [-> | S2].
    { destruct (decide (n = big_tail a)) as [|Hne]; [by left|right].
      apply Hp; [|elem|done]. revert Hnin. clear. intros. elem. }
    + by look.
    + by look.
  - destruct (l1 ++ l2); [|exact G5]. simpl in G5. tauto.
Qed.

(** A request whose footprint exceeds the largest size class takes the
    big-object branch. *)
Lemma aalloc_uninit_size_big (fuel : nat) (s : state) (a sz cnt : Z) r :
  a <> 0 -> arenas s !! a = Some r ->
  ndebug s = true \/ magic r = ARENAIMP_MAGIC_ARENA ->
  ARENAIMP_LARGEST_SIZECLASS < wrap (sizeof_small_header + wrap (sz * cnt)) ->
  aalloc_uninit_size (S fuel) a sz cnt s = aalloc_big a (wrap (sz * cnt)) s.
Proof.
  intros Ha Hr Hm Hbig. simpl.
  assert ((a =? 0) = false) as -> by (by apply Z.eqb_neq).
  rewrite (bind_eq _ _ _ _ _ (get_arena_eq _ _ _ Hr)).
  assert (assert_ (magic r =? ARENAIMP_MAGIC_ARENA) s = Ok tt s) as Hassert
    by (apply assert_ok; destruct Hm as [Hm | Hm];
        [by left | right; rewrite Hm; apply Z.eqb_refl]).
  rewrite (bind_eq _ _ _ _ _ Hassert).
  assert ((wrap (sizeof_small_header + wrap (sz * cnt)) <=? ARENAIMP_LARGEST_SIZECLASS) = false)
    as -> by (by apply Z.leb_gt).
  reflexivity.
Qed.





(** ** Inversion of successful runs *)

Lemma ret_Ok {A} (v v' : A) s s' : ret v s = Ok v' s' -> v' = v /\ s' = s.
Proof. unfold ret. intros [= -> ->]. done. Qed.

Lemma load_Ok p v s s' : load p s = Ok v s' -> mem s !! p = Some v /\ s' = s.
Proof. unfold load. destruct (mem s !! p); [|discriminate]. by intros [= -> ->]. Qed.

Lemma get_arena_Ok a r s s' :
  get_arena a s = Ok r s' -> arenas s !! a = Some r /\ s' = s.
Proof.
  unfold get_arena. destruct (arenas s !! a); [|discriminate]. by intros [= -> ->].
Qed.

Lemma assert_Ok c u s s' : assert_ c s = Ok u s' -> s' = s.
Proof.
  unfold assert_. destruct (ndebug s); [by intros [= _ ->]|].
  destruct c; [by intros [= _ ->]|discriminate].
Qed.

Lemma assert_Ok_cond c u s s' :
  assert_ c s = Ok u s' -> ndebug s = true \/ c = true.
Proof.
  unfold assert_. destruct (ndebug s); [by left|].
  destruct c; [by right|discriminate].
Qed.

Lemma store_Ok p v u s s' :
  store p v s = Ok u s' ->
  s' = mk_state (arenas s) (<[p := v]> (mem s)) (bytes s) (live s) (oracle s)
         (trace s) (ndebug s).
Proof. unfold store. by intros [= _ <-]. Qed.

Lemma put_arena_Ok a r u s s' :
  put_arena a r s = Ok u s' ->
  s' = mk_state (<[a := r]> (arenas s)) (mem s) (bytes s) (live s) (oracle s)
         (trace s) (ndebug s).
Proof. unfold put_arena. by intros [= _ <-]. Qed.

Lemma emit_Ok e u s s' :
  emit e s = Ok u s' ->
  s' = mk_state (arenas s) (mem s) (bytes s) (live s) (oracle s)
         (trace s ++ [e]) (ndebug s).
Proof. unfold emit. by intros [= _ <-]. Qed.

Lemma set_bytes_Ok f u s s' :
  set_bytes f s = Ok u s' ->
  s' = mk_state (arenas s) (mem s) (f (bytes s)) (live s) (oracle s)
         (trace s) (ndebug s).
Proof. unfold set_bytes. by intros [= _ <-]. Qed.

Lemma malloc_Ok n r s s' :
  malloc n s = Ok r s' ->
  r = hd 0 (oracle s) /\
  s' = mk_state (arenas s) (mem s) (bytes s)
         (if r =? 0 then live s else {[ r ]} ∪ live s)
         (tail (oracle s)) (trace s ++ [EvMalloc n r]) (ndebug s).
Proof.
  unfold malloc. intros [= <- <-]. split; [by destruct (oracle s)|done].
Qed.

Lemma free_Ok p u s s' :
  free p s = Ok u s' ->
  p ∈ live s /\
  s' = mk_state (arenas s) (mem s) (bytes s) (live s ∖ {[ p ]}) (oracle s)
         (trace s ++ [EvFree p]) (ndebug s).
Proof. unfold free. destruct (decide _); [|discriminate]. by intros [= _ <-]. Qed.

(** Take a successful run apart, statement by statement. *)
Ltac minv1 :=
  match goal with
  | H : bind _ _ _ = Ok _ _ |- _ =>
      let v := fresh "v" in let s := fresh "s" in let E := fresh "E" in
      apply bind_Ok in H; destruct H as (v & s & E & H)
  | H : ret _ _ = Ok _ _ |- _ => apply ret_Ok in H; destruct H as [? ?]; subst
  | H : fault _ = Ok _ _ |- _ => discriminate H
  | H : out_of_fuel _ = Ok _ _ |- _ => discriminate H
  | H : load _ _ = Ok _ _ |- _ => apply load_Ok in H; destruct H as [H ?]; subst
  | H : get_arena _ _ = Ok _ _ |- _ =>
      apply get_arena_Ok in H; destruct H as [H ?]; subst
  | H : assert_ _ _ = Ok _ _ |- _ =>
      let C := fresh "C" in
      pose proof (assert_Ok_cond _ _ _ _ H) as C; apply assert_Ok in H; subst
  | H : store _ _ _ = Ok _ _ |- _ => apply store_Ok in H; subst
  | H : put_arena _ _ _ = Ok _ _ |- _ => apply put_arena_Ok in H; subst
  | H : emit _ _ = Ok _ _ |- _ => apply emit_Ok in H; subst
  | H : set_bytes _ _ = Ok _ _ |- _ => apply set_bytes_Ok in H; subst
  | H : malloc _ _ = Ok _ _ |- _ => apply malloc_Ok in H; destruct H as [? ?]; subst
  | H : free _ _ = Ok _ _ |- _ => apply free_Ok in H; destruct H as [? ?]; subst
  | H : (if ?b then _ else _) _ = Ok _ _ |- _ =>
      let E := fresh "E" in destruct b eqn:E
  | H : (if ?b then _ else _) = Ok _ _ |- _ =>
      let E := fresh "E" in destruct b eqn:E
  | H : Ok _ _ = Ok _ _ |- _ => injection H as ? ?; subst
  | H : <[?a := _]> _ !! ?a = Some _ |- _ =>
      rewrite lookup_insert_eq in H; injection H as ?; subst
  | H1 : ?m !! ?a = Some ?x, H2 : ?m !! ?a = Some ?y |- _ =>
      assert (y = x) by congruence; subst y; clear H2
  | H : (match ?x with Some _ => _ | None => _ end) _ = Ok _ _ |- _ =>
      let E := fresh "E" in destruct x eqn:E
  end.
Ltac proj_state :=
  cbv beta in *; cbn [arenas mem bytes live oracle trace ndebug] in *.
Ltac proj_arena :=
  cbn [with_heads with_defer_tab with_defers with_magic with_page with_pos
       with_parent with_next_size with_next_free with_allocated
       magic page pos size parent parent_slot next_size defers defer_tab
       num_defers active_defer_head free_defer_head next_free allocated
       fn user prev next set_prev set_next] in *.
Ltac minv := repeat (minv1; proj_state); proj_arena.

(** ** Frame: the registry fields under allocation, in the record model *)

Lemma same_registry_refl a : same_registry a a.
Proof. by repeat split. Qed.

Lemma same_registry_trans a b c :
  same_registry a b -> same_registry b c -> same_registry a c.
Proof.
  unfold same_registry. intros (?&?&?&?&?&?&?&?&?) (?&?&?&?&?&?&?&?&?).
  repeat split; congruence.
Qed.

Lemma registry_frame_refl s : registry_frame s s.
Proof. split; [done|]. intros x r Hr. exists r. split; [done|apply same_registry_refl]. Qed.

Lemma registry_frame_trans s1 s2 s3 :
  registry_frame s1 s2 -> registry_frame s2 s3 -> registry_frame s1 s3.
Proof.
  intros [N1 H1] [N2 H2]. split; [congruence|]. intros x r Hr.
  destruct (H1 x r Hr) as (r' & Hr' & S1).
  destruct (H2 x r' Hr') as (r'' & Hr'' & S2).
  exists r''. split; [done|]. by eapply same_registry_trans.
Qed.

(** A state that differs only outside [arenas]. *)
Lemma registry_frame_same_arenas s s' :
  arenas s' = arenas s -> ndebug s' = ndebug s -> registry_frame s s'.
Proof.
  intros Ha Hn. split; [done|]. intros x r Hr. exists r. rewrite Ha.
  split; [done|apply same_registry_refl].
Qed.

(** A state in which arena [a] got an update of its allocator fields. *)
Lemma registry_frame_put s a r r' m b lv o t :
  arenas s !! a = Some r -> same_registry r r' ->
  registry_frame s (mk_state (<[a := r']> (arenas s)) m b lv o t (ndebug s)).
Proof.
  intros Hr Hs. split; [done|]. intros x rx Hx. simpl.
  destruct (decide (a = x)) as [<- | Hne].
  - rewrite lookup_insert_eq. exists r'. split; [done|]. congruence.
  - rewrite lookup_insert_ne by done. exists rx. split; [done|apply same_registry_refl].
Qed.

Ltac frame_leaf :=
  first
    [ apply registry_frame_refl
    | apply registry_frame_same_arenas; reflexivity
    | eapply registry_frame_put; [eassumption | by repeat split] ].

Lemma aalloc_big_frame arena total s p s' :
  aalloc_big arena total s = Ok p s' -> registry_frame s s'.
Proof. unfold aalloc_big. intros H. minv; frame_leaf. Qed.

Lemma aalloc_uninit_size_frame fuel arena sz cnt s p s' :
  aalloc_uninit_size fuel arena sz cnt s = Ok p s' -> registry_frame s s'.
Proof.
  revert arena sz cnt s p s'.
  induction fuel as [|fuel IH]; intros arena sz cnt s p s' H; [discriminate|].
  cbn [aalloc_uninit_size] in H.
  minv; try frame_leaf.
  all: try (eapply aalloc_big_frame; eassumption).
  all: match goal with H : aalloc_uninit_size _ _ _ _ _ = Ok _ _ |- _ =>
         apply IH in H;
         eapply registry_frame_trans; [|eapply registry_frame_trans; [exact H|]];
         cycle 1
       end.
  all: frame_leaf.
Qed.

Lemma afree_frame arena ptr s u s' :
  afree arena ptr s = Ok u s' -> registry_frame s s'.
Proof. unfold afree. intros H. minv; frame_leaf. Qed.

Lemma memcpy_frame dst src n s u s' :
  memcpy dst src n s = Ok u s' -> registry_frame s s'.
Proof. unfold memcpy. intros H. minv; frame_leaf. Qed.

Lemma arealloc_size_frame fuel arena sz cnt ptr s p s' :
  arealloc_size fuel arena sz cnt ptr s = Ok p s' -> registry_frame s s'.
Proof.
  unfold arealloc_size. intros H. minv; try frame_leaf.
  all: repeat match goal with
       | H : aalloc_uninit_size _ _ _ _ _ = Ok _ _ |- _ =>
           apply aalloc_uninit_size_frame in H
       | H : afree _ _ _ = Ok _ _ |- _ => apply afree_frame in H
       | H : memcpy _ _ _ _ = Ok _ _ |- _ => apply memcpy_frame in H
       end; eauto using registry_frame_trans.
Qed.

(** ** The registry's two lists *)

Lemma active_chain_frame t t' prv cur l :
  (forall i, i ∈ l -> t' !! Z.to_nat i = t !! Z.to_nat i) ->
  active_chain t prv cur l -> active_chain t' prv cur l.
Proof.
  revert prv cur. induction l as [|i l IH]; intros prv cur Hf; simpl; [done|].
  intros (-> & ds & Hds & Hp & Hc). split; [done|].
  exists ds. rewrite Hf by elem. split; [done|]. split; [done|].
  apply IH; [|done]. intros j Hj. apply Hf. elem.
Qed.

Lemma free_chain_frame t t' cur l :
  (forall i, i ∈ l -> t' !! Z.to_nat i = t !! Z.to_nat i) ->
  free_chain t cur l -> free_chain t' cur l.
Proof.
  revert cur. induction l as [|i l IH]; intros cur Hf; simpl; [done|].
  intros (-> & ds & Hds & Hc). split; [done|].
  exists ds. rewrite Hf by elem. split; [done|].
  apply IH; [|done]. intros j Hj. apply Hf. elem.
Qed.

(** The chains only mention indices inside the table. *)
Lemma active_chain_lt t prv cur l i :
  active_chain t prv cur l -> i ∈ l -> (Z.to_nat i < length t)%nat.
Proof.
  revert prv cur. induction l as [|j l IH]; intros prv cur; simpl.
  - intros _ Hi. by apply elem_of_nil in Hi.
  - intros (-> & ds & Hds & _ & Hc) Hi.
    apply elem_of_cons in Hi as [-> | Hi]; [by eapply lookup_lt_Some|by eapply IH].
Qed.

Lemma free_chain_lt t cur l i :
  free_chain t cur l -> i ∈ l -> (Z.to_nat i < length t)%nat.
Proof.
  revert cur. induction l as [|j l IH]; intros cur; simpl.
  - intros _ Hi. by apply elem_of_nil in Hi.
  - intros (-> & ds & Hds & Hc) Hi.
    apply elem_of_cons in Hi as [-> | Hi]; [by eapply lookup_lt_Some|by eapply IH].
Qed.

Lemma active_chain_head t prv cur l : active_chain t prv cur l -> cur = hd SIZE_MAX l.
Proof. destruct l; simpl; tauto. Qed.

Lemma free_chain_head t cur l : free_chain t cur l -> cur = hd SIZE_MAX l.
Proof. destruct l; simpl; tauto. Qed.

(** Facts about the indices that a well-formed registry hands out. *)
Lemma registry_index a act fre i :
  registry_wf a act fre -> i ∈ act ++ fre ->
  0 <= i < num_defers a /\ i <> SIZE_MAX.
Proof.
  intros (Hlen & Hmax & _ & _ & Hperm) Hi.
  rewrite Hperm in Hi. apply list_elem_of_In, in_map_iff in Hi as (k & <- & Hk).
  apply in_seq in Hk. lia.
Qed.

Lemma registry_NoDup a act fre : registry_wf a act fre -> NoDup (act ++ fre).
Proof.
  intros (_ & _ & _ & _ & Hperm). rewrite Hperm.
  apply NoDup_fmap_2; [intros x y; lia|apply NoDup_seq].
Qed.

Lemma to_nat_neq i j : 0 <= i -> 0 <= j -> i <> j -> Z.to_nat i <> Z.to_nat j.
Proof. lia. Qed.

(** Putting a new slot in front of the active list. *)
Lemma active_chain_push t t1 t2 head slot f u act :
  active_chain t SIZE_MAX head act -> NoDup act ->
  (forall i, i ∈ act -> 0 <= i /\ i <> slot /\ i <> SIZE_MAX) -> 0 <= slot ->
  t1 !! Z.to_nat slot = Some (mk_slot f u SIZE_MAX head) ->
  (forall i, i ∈ act -> t1 !! Z.to_nat i = t !! Z.to_nat i) ->
  (head = SIZE_MAX /\ t2 = t1) \/
  (head <> SIZE_MAX /\ exists h, t1 !! Z.to_nat head = Some h /\
                        t2 = <[Z.to_nat head := set_prev slot h]> t1) ->
  active_chain t2 SIZE_MAX slot (slot :: act) /\
  length t2 = length t1 /\
  (forall i, 0 <= i -> i <> head -> t2 !! Z.to_nat i = t1 !! Z.to_nat i) /\
  (forall i ds, 0 <= i -> t1 !! Z.to_nat i = Some ds ->
     exists ds', t2 !! Z.to_nat i = Some ds' /\ fn ds' = fn ds /\ user ds' = user ds /\
                 next ds' = next ds).
Proof.
  intros Hc Hnd Hact Hslot Hnew Hsame Ht2.
  destruct act as [|h act]; simpl in Hc.
  - subst head. destruct Ht2 as [[_ ->] | [Hne _]]; [|done].
    split; [|split; [done|split; [done|]]].
    + split; [done|]. eexists. split; [exact Hnew|]. by split.
    + intros i ds _ Hi. by exists ds.
  - destruct Hc as (-> & ds & Hds & Hp & Hc).
    destruct (Hact h ltac:(elem)) as (Hh0 & Hhs & Hhm).
    assert (t1 !! Z.to_nat h = Some ds) as Hds1 by (rewrite Hsame by elem; done).
    destruct Ht2 as [[-> _] | (_ & h' & Hh' & ->)]; [done|].
    assert (h' = ds) as -> by congruence.
    split; [|split; [|split]].
    + split; [done|]. eexists. split.
      * rewrite list_lookup_insert_ne by (apply to_nat_neq; lia). exact Hnew.
      * split; [done|]. simpl. split; [done|].
        exists (set_prev slot ds). split.
        -- apply list_lookup_insert_eq. by eapply lookup_lt_Some.
        -- split; [done|]. simpl.
           eapply active_chain_frame; [|exact Hc].
           intros i Hi. apply NoDup_cons in Hnd as [Hnh _].
           destruct (Hact i ltac:(elem)) as (Hi0 & _).
           rewrite list_lookup_insert_ne.
           ++ apply Hsame. elem.
           ++ apply to_nat_neq; [lia..|]. intros ->. done.
    + apply length_insert.
    + intros i Hi0 Hi. apply list_lookup_insert_ne, to_nat_neq; lia.
    + intros i di Hi0 Hi. destruct (decide (i = h)) as [-> | Hne].
      * assert (di = ds) as -> by congruence.
        exists (set_prev slot ds). split; [|done].
        apply list_lookup_insert_eq. by eapply lookup_lt_Some.
      * exists di. split; [|done].
        rewrite list_lookup_insert_ne by (apply to_nat_neq; lia). done.
Qed.

Lemma tab_write_Some t i ds t' :
  tab_write t i ds = Some t' ->
  ((i < length t)%nat /\ t' = <[i := ds]> t) \/ (i = length t /\ t' = t ++ [ds]).
Proof.
  unfold tab_write. repeat case_decide; intros [= <-]; [left|right]; done.
Qed.

Lemma registry_wf_same a a' act fre :
  same_registry a a' -> registry_wf a act fre -> registry_wf a' act fre.
Proof.
  intros (Ht & Hn & Hah & Hfh & _) H. unfold registry_wf.
  rewrite Ht, Hn, Hah, Hfh. exact H.
Qed.

Lemma slot_calls_ext t t' l :
  (forall i, i ∈ l -> exists ds ds', t !! Z.to_nat i = Some ds /\
       t' !! Z.to_nat i = Some ds' /\ fn ds' = fn ds /\ user ds' = user ds) ->
  slot_calls t' l = slot_calls t l.
Proof.
  intros H. unfold slot_calls. apply map_ext_in. intros i Hi.
  apply list_elem_of_In in Hi.
  destruct (H i Hi) as (ds & ds' & -> & -> & -> & ->). done.
Qed.

Lemma active_chain_Some t prv cur l i :
  active_chain t prv cur l -> i ∈ l -> is_Some (t !! Z.to_nat i).
Proof.
  intros Hc Hi. apply lookup_lt_is_Some. by eapply active_chain_lt.
Qed.

(** The list-level content of a successful registration: [t1] is the table
    with the new slot written, [t2] the table after the old head's [prev]
    has been patched. *)
Lemma registry_push (t t1 t2 : list arenaimp_defer_slot) head act fre' slot f u fh' :
  active_chain t SIZE_MAX head act ->
  free_chain t fh' fre' ->
  NoDup (slot :: act ++ fre') ->
  (forall i, i ∈ slot :: act ++ fre' -> 0 <= i /\ i <> SIZE_MAX) ->
  t1 !! Z.to_nat slot = Some (mk_slot f u SIZE_MAX head) ->
  (forall i, i ∈ act ++ fre' -> t1 !! Z.to_nat i = t !! Z.to_nat i) ->
  (head = SIZE_MAX /\ t2 = t1) \/
  (head <> SIZE_MAX /\ exists h, t1 !! Z.to_nat head = Some h /\
                        t2 = <[Z.to_nat head := set_prev slot h]> t1) ->
  active_chain t2 SIZE_MAX slot (slot :: act) /\
  free_chain t2 fh' fre' /\
  length t2 = length t1 /\
  slot_calls t2 (slot :: act) = (f, u) :: slot_calls t act.
Proof.
  intros Hac Hfc Hnd Hidx Hnew Hsame Ht2.
  apply NoDup_cons in Hnd as [Hslot Hnd].
  assert (NoDup act) as Hnda by (by apply NoDup_app in Hnd as (? & _)).
  destruct (active_chain_push t t1 t2 head slot f u act Hac Hnda) as (P1 & P2 & P3 & P4);
    [| |exact Hnew| |exact Ht2|].
  { intros i Hi. destruct (Hidx i ltac:(elem)). split; [done|]. split; [|done].
    intros ->. apply Hslot. elem. }
  { apply (Hidx slot). elem. }
  { intros i Hi. apply Hsame. elem. }
  split; [done|]. split; [|split; [done|]].
  - eapply free_chain_frame; [|exact Hfc]. intros i Hi.
    destruct (Hidx i ltac:(elem)) as [Hi0 Him].
    rewrite P3; [apply Hsame; elem|done|].
    intros Heq. destruct act as [|h act]; simpl in Hac; [congruence|].
    destruct Hac as (Hh & _). apply NoDup_app in Hnd as (_ & Hnd & _).
    apply (Hnd h); [elem|]. congruence.
  - unfold slot_calls at 1. simpl.
    destruct (Hidx slot ltac:(elem)) as [Hs0 _].
    destruct (P4 slot _ Hs0 Hnew) as (dn & -> & -> & -> & _). simpl. f_equal.
    apply slot_calls_ext. intros i Hi.
    destruct (active_chain_Some _ _ _ _ _ Hac Hi) as [ds Hds].
    destruct (Hidx i ltac:(elem)) as [Hi0 _].
    destruct (P4 i ds Hi0 ltac:(rewrite Hsame by elem; done)) as (ds' & Q1 & Q2 & Q3 & _).
    by exists ds, ds'.
Qed.

Lemma registry_frame_lookup s s' x r :
  registry_frame s s' -> arenas s !! x = Some r ->
  exists r', arenas s' !! x = Some r' /\ same_registry r r'.
Proof. intros [_ H]. apply H. Qed.

Lemma free_chain_nil_head t l : free_chain t SIZE_MAX l ->
  (forall i, i ∈ l -> i <> SIZE_MAX) -> l = [].
Proof.
  destruct l as [|i l]; [done|]. simpl. intros (Hi & _) H.
  exfalso. apply (H i); [elem|done].
Qed.

Lemma seq_perm_snoc (n : nat) (l : list Z) :
  l ≡ₚ map Z.of_nat (seq 0 n) ->
  Z.of_nat n :: l ≡ₚ map Z.of_nat (seq 0 (S n)).
Proof.
  intros H. rewrite seq_S, map_app. simpl. rewrite H.
  apply Permutation_cons_append.
Qed.

Lemma registry_reuse_lists t t1 t2 head fh act fre f u ds :
  active_chain t SIZE_MAX head act -> free_chain t fh fre ->
  NoDup (act ++ fre) ->
  (forall i, i ∈ act ++ fre -> 0 <= i /\ i <> SIZE_MAX) ->
  act ++ fre ≡ₚ map Z.of_nat (seq 0 (length t)) ->
  fh <> SIZE_MAX -> t !! Z.to_nat fh = Some ds ->
  tab_write t (Z.to_nat fh) (mk_slot f u SIZE_MAX head) = Some t1 ->
  (head = SIZE_MAX /\ t2 = t1) \/
  (head <> SIZE_MAX /\ exists h, t1 !! Z.to_nat head = Some h /\
                        t2 = <[Z.to_nat head := set_prev fh h]> t1) ->
  (forall d, fh = hd d fre) /\
  active_chain t2 SIZE_MAX fh (fh :: act) /\
  free_chain t2 (next ds) (tail fre) /\
  length t2 = length t /\
  (fh :: act) ++ tail fre ≡ₚ map Z.of_nat (seq 0 (length t2)) /\
  slot_calls t2 (fh :: act) = (f, u) :: slot_calls t act.
Proof.
  intros Hac Hfc Hnd Hidx Hperm Hfh Hds Hw Ht2.
  destruct fre as [|i fre']; simpl in Hfc; [done|].
  destruct Hfc as (-> & ds0 & Hds0 & Hfc).
  assert (ds0 = ds) as -> by congruence.
  assert (t1 = <[Z.to_nat i := mk_slot f u SIZE_MAX head]> t) as Ht1.
  { apply tab_write_Some in Hw as [[_ ->] | [Hlen _]]; [done|].
    apply lookup_lt_Some in Hds. lia. }
  assert (NoDup (i :: act ++ fre')) as Hnd'
    by (by rewrite Permutation_middle).
  assert (forall j, j ∈ i :: act ++ fre' -> 0 <= j /\ j <> SIZE_MAX) as Hidx'
    by (intros j Hj; apply Hidx; elem).
  destruct (registry_push t t1 t2 head act fre' i f u (next ds) Hac Hfc Hnd' Hidx')
    as (P1 & P2 & P3 & P4); [| |exact Ht2|].
  { subst t1. apply list_lookup_insert_eq. by eapply lookup_lt_Some. }
  { intros j Hj. subst t1. apply list_lookup_insert_ne.
    apply NoDup_cons in Hnd' as [Hni _].
    apply to_nat_neq; [apply (Hidx' i); elem|apply (Hidx' j); elem|].
    intros ->. done. }
  split; [done|]. split; [done|]. split; [done|].
  assert (length t2 = length t) as Hl by (rewrite P3, Ht1; apply length_insert).
  split; [done|]. split; [|done].
  rewrite Hl, <- Hperm. simpl. apply Permutation_middle.
Qed.

Lemma registry_grow_lists t t1 t2 head act fre f u :
  active_chain t SIZE_MAX head act -> free_chain t SIZE_MAX fre ->
  NoDup (act ++ fre) ->
  (forall i, i ∈ act ++ fre -> 0 <= i /\ i <> SIZE_MAX) ->
  act ++ fre ≡ₚ map Z.of_nat (seq 0 (length t)) ->
  Z.of_nat (length t) <> SIZE_MAX ->
  tab_write t (Z.to_nat (Z.of_nat (length t))) (mk_slot f u SIZE_MAX head) = Some t1 ->
  (head = SIZE_MAX /\ t2 = t1) \/
  (head <> SIZE_MAX /\ exists h, t1 !! Z.to_nat head = Some h /\
       t2 = <[Z.to_nat head := set_prev (Z.of_nat (length t)) h]> t1) ->
  fre = [] /\
  active_chain t2 SIZE_MAX (Z.of_nat (length t)) (Z.of_nat (length t) :: act) /\
  length t2 = S (length t) /\
  (Z.of_nat (length t) :: act) ++ [] ≡ₚ map Z.of_nat (seq 0 (length t2)) /\
  slot_calls t2 (Z.of_nat (length t) :: act) = (f, u) :: slot_calls t act.
Proof.
  intros Hac Hfc Hnd Hidx Hperm Hmax Hw Ht2.
  assert (fre = []) as ->
    by (apply (free_chain_nil_head _ _ Hfc); intros i Hi; apply Hidx; elem).
  rewrite app_nil_r in *.
  rewrite Nat2Z.id in Hw.
  assert (t1 = t ++ [mk_slot f u SIZE_MAX head]) as Ht1
    by (apply tab_write_Some in Hw as [[Hlt _] | [_ ->]]; [lia|done]).
  assert (Z.of_nat (length t) ∉ act) as Hni.
  { rewrite Hperm. intros Hin. apply list_elem_of_In, in_map_iff in Hin as (k & Hk & Hin).
    apply in_seq in Hin. lia. }
  destruct (registry_push t t1 t2 head act [] (Z.of_nat (length t)) f u SIZE_MAX Hac)
    as (P1 & P2 & P3 & P4); [done| | | | |exact Ht2|].
  { rewrite app_nil_r. by constructor. }
  { rewrite app_nil_r. intros j Hj. apply elem_of_cons in Hj as [-> | Hj]; [lia|by apply Hidx]. }
  { subst t1. rewrite Nat2Z.id. by apply list_lookup_middle. }
  { rewrite app_nil_r. intros j Hj. subst t1. apply lookup_app_l.
    by eapply active_chain_lt. }
  split; [done|]. split; [done|].
  assert (length t2 = S (length t)) as Hl
    by (rewrite P3, Ht1, length_app; simpl; lia).
  split; [done|]. split; [|done].
  rewrite Hl. by apply seq_perm_snoc.
Qed.

Lemma arena_ext_defer_spec fuel arena f u s slot s' a act fre :
  arenas s !! arena = Some a ->
  registry_wf a act fre ->
  num_defers a + 1 < SIZE_MAX ->
  arena_ext_defer fuel arena f u s = Ok slot s' ->
  exists a', arenas s' !! arena = Some a' /\ magic a' = magic a /\
    ((slot = SIZE_MAX /\ registry_wf a' act fre /\
      slot_calls (defer_tab a') act = slot_calls (defer_tab a) act) \/
     (slot = hd (num_defers a) fre /\ slot <> SIZE_MAX /\
      registry_wf a' (slot :: act) (tail fre) /\
      slot_calls (defer_tab a') (slot :: act)
        = (f, u) :: slot_calls (defer_tab a) act)).
Proof.
  intros Ha Hwf Hroom H.
  pose proof (registry_NoDup _ _ _ Hwf) as Hnd.
  pose proof (fun i => registry_index _ _ _ i Hwf) as Hidx.
  destruct Hwf as (Hlen & Hmax & Hac & Hfc & Hperm).
  unfold arena_ext_defer, slot_read, slot_write, upd_arena in H.
  minv.
  - (* reuse, old head present *)
    apply negb_true_iff, Z.eqb_neq in E.
    match goal with
    | Hh : negb (active_defer_head a =? SIZE_MAX) = true,
      Hds : defer_tab a !! Z.to_nat (free_defer_head a) = Some ?ds,
      Hw : tab_write (defer_tab a) _ _ = Some ?t1,
      Hh0 : ?t1 !! Z.to_nat (active_defer_head a) = Some ?h,
      Hw2 : tab_write ?t1 _ _ = Some ?t2 |- _ =>
        apply negb_true_iff, Z.eqb_neq in Hh;
        assert (t2 = <[Z.to_nat (active_defer_head a) := set_prev (free_defer_head a) h]> t1)
          as Hl
          by (apply tab_write_Some in Hw2 as [[_ ->] | [Hx _]];
              [done|apply lookup_lt_Some in Hh0; lia]);
        destruct (registry_reuse_lists _ t1 t2 _ _ _ _ f u ds Hac Hfc Hnd
                ltac:(intros i Hi; destruct (Hidx i Hi); split; [lia|done])
                Hperm E Hds Hw ltac:(right; split; [done|by exists h]))
          as (Q1 & Q2 & Q3 & Q4 & Q5 & Q6)
    end.
    eexists. split; [apply lookup_insert_eq|]. split; [reflexivity|]. right.
    split; [apply Q1|]. split; [done|]. split; [|exact Q6].
    unfold registry_wf; proj_arena.
    split; [by rewrite Q4|]. split; [done|]. split; [done|]. by split.
  - (* reuse, empty active list *)
    apply negb_true_iff, Z.eqb_neq in E.
    match goal with
    | Hh : negb (active_defer_head a =? SIZE_MAX) = false,
      Hds : defer_tab a !! Z.to_nat (free_defer_head a) = Some ?ds,
      Hw : tab_write (defer_tab a) _ _ = Some ?t1 |- _ =>
        apply negb_false_iff, Z.eqb_eq in Hh;
        destruct (registry_reuse_lists _ t1 t1 _ _ _ _ f u ds Hac Hfc Hnd
                ltac:(intros i Hi; destruct (Hidx i Hi); split; [lia|done])
                Hperm E Hds Hw (or_introl (conj Hh eq_refl)))
          as (Q1 & Q2 & Q3 & Q4 & Q5 & Q6)
    end.
    eexists. split; [apply lookup_insert_eq|]. split; [reflexivity|]. right.
    split; [apply Q1|]. split; [done|]. split; [|exact Q6].
    unfold registry_wf; proj_arena.
    split; [by rewrite Q4|]. split; [done|]. split; [done|]. by split.
  - (* the table could not grow *)
    match goal with H : arealloc_size _ _ _ _ _ _ = Ok _ _ |- _ =>
      apply arealloc_size_frame in H;
      destruct (registry_frame_lookup _ _ _ _ H Ha) as (a' & Ha' & Hs)
    end.
    exists a'. split; [done|]. split; [apply Hs|]. left.
    split; [done|]. split.
    + apply (registry_wf_same _ _ _ _ Hs). by repeat split.
    + destruct Hs as (-> & _). done.
  - (* the table grew, old head present *)
    apply negb_false_iff, Z.eqb_eq in E.
    match goal with
    | H : arealloc_size _ _ _ _ _ _ = Ok _ _, H5 : arenas _ !! arena = Some ?v5 |- _ =>
      apply arealloc_size_frame in H;
      destruct (registry_frame_lookup _ _ _ _ H Ha) as (a' & Ha' & Hs);
      assert (v5 = a') by congruence; subst v5
    end.
    destruct Hs as (Ht & Hn & Hah & Hfh & Hm & _).
    rewrite Ht, Hn, Hah, Hfh in *. rewrite E in Hfc. rewrite <- Hlen in *.
    match goal with
    | Hh : negb (active_defer_head a =? SIZE_MAX) = true,
      Hw : tab_write (defer_tab a) _ _ = Some ?t1,
      Hh0 : ?t1 !! Z.to_nat (active_defer_head a) = Some ?h,
      Hw2 : tab_write ?t1 _ _ = Some ?t2 |- _ =>
        apply negb_true_iff, Z.eqb_neq in Hh;
        assert (t2 = <[Z.to_nat (active_defer_head a) :=
                         set_prev (Z.of_nat (length (defer_tab a))) h]> t1)
          as Hl
          by (apply tab_write_Some in Hw2 as [[_ ->] | [Hx _]];
              [done|apply lookup_lt_Some in Hh0; lia]);
        destruct (registry_grow_lists _ t1 t2 _ _ _ f u Hac Hfc Hnd
                ltac:(intros i Hi; destruct (Hidx i Hi); split; [lia|done])
                Hperm ltac:(lia) Hw ltac:(right; split; [done|by exists h]))
          as (Q1 & Q2 & Q3 & Q4 & Q5)
    end.
    eexists. split; [apply lookup_insert_eq|]. split; [exact Hm|]. right.
    rewrite Q1. split; [done|]. split; [lia|]. split; [|exact Q5].
    unfold registry_wf; proj_arena.
    assert (wrap (Z.of_nat (length (defer_tab a)) + 1)
            = Z.of_nat (S (length (defer_tab a)))) as ->
      by (unfold wrap, SIZE_MAX in *; rewrite Z.mod_small; lia).
    split; [by rewrite Q3|]. split; [lia|]. split; [done|]. split; [done|].
    exact Q4.
  - (* the table grew, empty active list *)
    apply negb_false_iff, Z.eqb_eq in E.
    match goal with
    | H : arealloc_size _ _ _ _ _ _ = Ok _ _, H5 : arenas _ !! arena = Some ?v5 |- _ =>
      apply arealloc_size_frame in H;
      destruct (registry_frame_lookup _ _ _ _ H Ha) as (a' & Ha' & Hs);
      assert (v5 = a') by congruence; subst v5
    end.
    destruct Hs as (Ht & Hn & Hah & Hfh & Hm & _).
    rewrite Ht, Hn, Hah, Hfh in *. rewrite E in Hfc. rewrite <- Hlen in *.
    match goal with
    | Hh : negb (active_defer_head a =? SIZE_MAX) = false,
      Hw : tab_write (defer_tab a) _ _ = Some ?t1 |- _ =>
        apply negb_false_iff, Z.eqb_eq in Hh;
        destruct (registry_grow_lists _ t1 t1 _ _ _ f u Hac Hfc Hnd
                ltac:(intros i Hi; destruct (Hidx i Hi); split; [lia|done])
                Hperm ltac:(lia) Hw (or_introl (conj Hh eq_refl)))
          as (Q1 & Q2 & Q3 & Q4 & Q5)
    end.
    eexists. split; [apply lookup_insert_eq|]. split; [exact Hm|]. right.
    rewrite Q1. split; [done|]. split; [lia|]. split; [|exact Q5].
    unfold registry_wf; proj_arena.
    assert (wrap (Z.of_nat (length (defer_tab a)) + 1)
            = Z.of_nat (S (length (defer_tab a)))) as ->
      by (unfold wrap, SIZE_MAX in *; rewrite Z.mod_small; lia).
    split; [by rewrite Q3|]. split; [lia|]. split; [done|]. split; [done|].
    exact Q4.
Qed.

Lemma unlink_tab_lookup_ne t p n i :
  0 <= i -> 0 <= p -> 0 <= n -> i <> p -> i <> n ->
  unlink_tab t p n !! Z.to_nat i = t !! Z.to_nat i.
Proof.
  intros Hi Hp0 Hn0 Hp Hn. unfold unlink_tab.
  destruct (n =? SIZE_MAX), (p =? SIZE_MAX); try done;
    rewrite ?list_lookup_alter_ne by lia; done.
Qed.

Lemma unlink_tab_length t p n : length (unlink_tab t p n) = length t.
Proof.
  unfold unlink_tab.
  destruct (n =? SIZE_MAX), (p =? SIZE_MAX); rewrite ?length_alter; done.
Qed.

(** Every slot keeps its finalizer. *)
Lemma unlink_tab_calls t p n i :
  (match unlink_tab t p n !! i with Some ds => (fn ds, user ds) | None => (FnNull, 0) end)
  = (match t !! i with Some ds => (fn ds, user ds) | None => (FnNull, 0) end).
Proof.
  unfold unlink_tab.
  assert (forall (g : arenaimp_defer_slot -> arenaimp_defer_slot) j (t0 : list arenaimp_defer_slot),
            (forall ds, fn (g ds) = fn ds /\ user (g ds) = user ds) ->
            (match alter g j t0 !! i with Some ds => (fn ds, user ds) | None => (FnNull, 0) end)
            = (match t0 !! i with Some ds => (fn ds, user ds) | None => (FnNull, 0) end)) as Hg.
  { intros g j t0 Hg. destruct (decide (j = i)) as [-> | Hne].
    - rewrite list_lookup_alter_eq. destruct (t0 !! i) as [ds|]; simpl; [|done].
      destruct (Hg ds) as [-> ->]. done.
    - by rewrite list_lookup_alter_ne. }
  destruct (n =? SIZE_MAX), (p =? SIZE_MAX); rewrite ?Hg; done.
Qed.

Lemma unlink_tab_lookup_n t p n dn :
  n <> SIZE_MAX -> 0 <= n -> 0 <= p -> p <> n -> t !! Z.to_nat n = Some dn ->
  unlink_tab t p n !! Z.to_nat n = Some (set_prev p dn).
Proof.
  intros Hn Hn0 Hp0 Hpn Hdn. unfold unlink_tab.
  apply Z.eqb_neq in Hn. rewrite Hn. rewrite list_lookup_alter_eq.
  destruct (p =? SIZE_MAX); rewrite ?list_lookup_alter_ne by lia; by rewrite Hdn.
Qed.

Lemma unlink_tab_lookup_p t p n dp :
  p <> SIZE_MAX -> 0 <= n -> 0 <= p -> p <> n -> t !! Z.to_nat p = Some dp ->
  unlink_tab t p n !! Z.to_nat p = Some (set_next n dp).
Proof.
  intros Hp Hn0 Hp0 Hpn Hdp. unfold unlink_tab.
  apply Z.eqb_neq in Hp. rewrite Hp.
  destruct (n =? SIZE_MAX); rewrite ?list_lookup_alter_ne by lia;
    rewrite list_lookup_alter_eq; by rewrite Hdp.
Qed.

Lemma default_last_cons (prv k : Z) l :
  default prv (last (k :: l)) = default k (last l).
Proof.
  destruct l as [|x l]; [done|].
  rewrite last_cons_cons, (last_cons x l). by destruct (last l).
Qed.

Lemma default_last_elem (k : Z) l : default k (last l) = k \/ default k (last l) ∈ l.
Proof.
  destruct (last l) as [x|] eqn:E; simpl; [right|by left].
  apply last_Some in E as [l' ->]. elem.
Qed.

Lemma SIZE_MAX_nonneg : 0 <= SIZE_MAX.
Proof. unfold SIZE_MAX. lia. Qed.

(** Unlinking [slot] from the active list, by induction on the part of the
    list in front of it. *)
Lemma active_chain_unlink t slot l2 l1 prv cur :
  active_chain t prv cur (l1 ++ slot :: l2) ->
  NoDup (l1 ++ slot :: l2) ->
  (forall i, i ∈ l1 ++ slot :: l2 -> 0 <= i /\ i <> SIZE_MAX /\ i <> prv) ->
  0 <= prv ->
  exists ds,
    t !! Z.to_nat slot = Some ds /\
    prev ds = default prv (last l1) /\ next ds = hd SIZE_MAX l2 /\
    active_chain (unlink_tab t (prev ds) (next ds)) prv
      (match l1 with [] => next ds | _ => cur end) (l1 ++ l2).
Proof.
  revert prv cur. induction l1 as [|k l1 IH]; intros prv cur Hc Hnd Hidx Hprv.
  - simpl in *. destruct Hc as (-> & ds & Hds & Hp & Hc).
    exists ds. split; [done|]. split; [done|].
    pose proof (active_chain_head _ _ _ _ Hc) as Hn. split; [done|].
    rewrite Hp. destruct l2 as [|n l2]; simpl in *; [done|].
    destruct Hc as (Hnn & dn & Hdn & Hpn & Hc). rewrite Hnn in *.
    destruct (Hidx n ltac:(elem)) as (Hn0 & Hnm & Hnp).
    split; [done|].
    exists (set_prev prv dn). split; [by apply unlink_tab_lookup_n|].
    split; [done|]. simpl.
    eapply active_chain_frame; [|exact Hc].
    intros i Hi. destruct (Hidx i ltac:(elem)) as (Hi0 & Him & Hip).
    apply unlink_tab_lookup_ne; [done..|].
    intros ->. apply NoDup_cons in Hnd as [_ Hnd]. by apply NoDup_cons in Hnd as [Hnd _].
  - simpl in Hc. destruct Hc as (-> & dk & Hdk & Hpk & Hc).
    simpl in Hnd. apply NoDup_cons in Hnd as [Hk Hnd].
    destruct (Hidx k ltac:(simpl; elem)) as (Hk0 & Hkm & Hkp).
    destruct (IH k (next dk) Hc Hnd) as (ds & Hds & Hp & Hn & Hch); [|done|].
    { intros i Hi. destruct (Hidx i ltac:(simpl; elem)) as (? & ? & ?).
      split; [done|]. split; [done|]. intros ->. done. }
    exists ds. split; [done|]. split; [by rewrite default_last_cons|]. split; [done|].
    assert (next ds <> k /\ 0 <= next ds) as [Hnk Hn0].
    { rewrite Hn. destruct l2 as [|n l2]; simpl; [split; [done|apply SIZE_MAX_nonneg]|].
      destruct (Hidx n ltac:(simpl; elem)) as (? & ? & ?). split; [|done].
      intros ->. apply Hk. elem. }
    simpl. split; [done|].
    destruct l1 as [|k' l1].
    + simpl in Hp. rewrite Hp in *.
      exists (set_next (next ds) dk). split; [by apply unlink_tab_lookup_p|].
      split; [done|]. exact Hch.
    + assert (prev ds <> k /\ 0 <= prev ds) as [Hpk' Hp0].
      { rewrite Hp. destruct (default_last_elem k (k' :: l1)) as [He | He].
        - exfalso.
          destruct (last (k' :: l1)) as [x|] eqn:E;
            [|apply last_None in E; discriminate]. simpl in He. subst x.
          apply last_Some in E as [l' E]. apply Hk. rewrite E. elem.
        - assert (default k (last (k' :: l1)) ∈ (k :: k' :: l1) ++ slot :: l2) as He'
            by (apply elem_of_app; left; apply elem_of_cons; by right).
          destruct (Hidx _ He') as (? & ? & ?).
          split; [|done]. intros Heq. apply Hk. rewrite <- Heq.
          apply elem_of_app. by left. }
      exists dk. split; [rewrite unlink_tab_lookup_ne; done|].
      split; [done|]. exact Hch.
Qed.

Lemma tab_write_lt t i ds :
  (i < length t)%nat -> tab_write t i ds = Some (<[i := ds]> t).
Proof. intros H. unfold tab_write. by rewrite decide_True. Qed.

Lemma list_insert_as_alter {A} (l : list A) i x (f : A -> A) :
  l !! i = Some x -> <[i := f x]> l = alter f i l.
Proof.
  revert i. induction l as [|y l IH]; intros [|i] H; simpl in *; try done.
  - by injection H as ->.
  - f_equal. by apply IH.
Qed.

Lemma state_with_arena_twice x a1 a2 s :
  state_with_arena x a2 (state_with_arena x a1 s) = state_with_arena x a2 s.
Proof. unfold state_with_arena. simpl. by rewrite insert_insert_eq. Qed.

Lemma state_with_arena_lookup x a s : arenas (state_with_arena x a s) !! x = Some a.
Proof. apply lookup_insert_eq. Qed.

Lemma slot_read_eq arena i s a ds :
  arenas s !! arena = Some a -> defer_tab a !! Z.to_nat i = Some ds ->
  slot_read arena i s = Ok ds s.
Proof.
  intros Ha Hds. unfold slot_read.
  rewrite (bind_eq _ _ _ _ _ (get_arena_eq _ _ _ Ha)). by rewrite Hds.
Qed.

Lemma slot_write_eq arena i s a ds :
  arenas s !! arena = Some a -> (Z.to_nat i < length (defer_tab a))%nat ->
  slot_write arena i ds s
    = Ok tt (state_with_arena arena
               (with_defer_tab (<[Z.to_nat i := ds]> (defer_tab a)) a) s).
Proof.
  intros Ha Hi. unfold slot_write.
  rewrite (bind_eq _ _ _ _ _ (get_arena_eq _ _ _ Ha)). by rewrite tab_write_lt.
Qed.

Lemma upd_arena_eq arena f s a :
  arenas s !! arena = Some a ->
  upd_arena arena f s = Ok tt (state_with_arena arena (f a) s).
Proof.
  intros Ha. unfold upd_arena.
  by rewrite (bind_eq _ _ _ _ _ (get_arena_eq _ _ _ Ha)).
Qed.

Lemma slot_patch_eq arena i (f : arenaimp_defer_slot -> arenaimp_defer_slot) s a :
  arenas s !! arena = Some a -> (Z.to_nat i < length (defer_tab a))%nat ->
  (let* x := slot_read arena i in slot_write arena i (f x)) s
    = Ok tt (state_with_arena arena
               (with_defer_tab (alter f (Z.to_nat i) (defer_tab a)) a) s).
Proof.
  intros Ha Hi. destruct (lookup_lt_is_Some_2 _ _ Hi) as [x Hx].
  rewrite (bind_eq _ _ _ _ _ (slot_read_eq _ _ _ _ _ Ha Hx)).
  rewrite (slot_write_eq _ _ _ _ _ Ha Hi). by rewrite (list_insert_as_alter _ _ _ f Hx).
Qed.

Ltac look_arena := first [eassumption | apply state_with_arena_lookup].

(** [arena_ext_cancel] without running the finalizer, on a slot of the
    active list: the exact record it leaves. *)
Lemma arena_ext_cancel_run call arena slot run_defer s0 a0 s a ds :
  arena <> 0 ->
  arenas s0 !! arena = Some a0 ->
  ndebug s0 = true \/ magic a0 = ARENAIMP_MAGIC_ARENA ->
  (if run_defer : bool
   then let* ds := slot_read arena slot in call (fn ds) (user ds)
   else ret tt) s0 = Ok tt s ->
  arenas s !! arena = Some a ->
  defer_tab a !! Z.to_nat slot = Some ds ->
  0 <= slot -> 0 <= prev ds -> 0 <= next ds ->
  prev ds <> slot -> next ds <> slot -> prev ds <> next ds \/ prev ds = SIZE_MAX ->
  (prev ds = SIZE_MAX \/ (Z.to_nat (prev ds) < length (defer_tab a))%nat) ->
  (next ds = SIZE_MAX \/ (Z.to_nat (next ds) < length (defer_tab a))%nat) ->
  arena_ext_cancel_with call arena slot run_defer s0
    = Ok tt (state_with_arena arena
        (with_heads (if prev ds =? SIZE_MAX then next ds else active_defer_head a)
           slot
           (with_defer_tab
              (<[Z.to_nat slot := mk_slot FnNull 0 SIZE_MAX (free_defer_head a)]>
                 (unlink_tab (defer_tab a) (prev ds) (next ds))) a)) s).
Proof.
  intros Harena Ha0 Hm Hcall Ha Hds Hs0 Hp0 Hn0 Hps Hns Hpn Hpl Hnl.
  unfold arena_ext_cancel_with.
  rewrite (bind_eq _ _ s0 tt s0) by (apply assert_ok; right; unfold nonnull;
    apply negb_true_iff, Z.eqb_neq; done).
  rewrite (bind_eq _ _ _ _ _ (get_arena_eq _ _ _ Ha0)).
  rewrite (bind_eq _ _ s0 tt s0) by (apply assert_ok; destruct Hm as [Hm | Hm];
    [by left|right; rewrite Hm; apply Z.eqb_refl]).
  rewrite (bind_eq _ _ s0 tt s) by exact Hcall.
  rewrite (bind_eq _ _ _ _ _ (slot_read_eq _ _ _ _ _ Ha Hds)).
  unfold unlink_tab.
  destruct (prev ds =? SIZE_MAX) eqn:Ep; simpl negb; cbv iota.
  - erewrite (bind_eq (upd_arena _ _)); [|apply upd_arena_eq; look_arena].
    erewrite (bind_eq (slot_read _ _)); [|eapply slot_read_eq; [look_arena|exact Hds]].
    destruct (next ds =? SIZE_MAX) eqn:En; simpl negb; cbv iota.
    + erewrite (bind_eq (ret _)); [|reflexivity].
      erewrite (bind_eq (get_arena _)); [|apply get_arena_eq; look_arena].
      erewrite (bind_eq (slot_write _ _ _)); [|eapply slot_write_eq; [look_arena|]].
      2:{ proj_arena. by eapply lookup_lt_Some. }
      erewrite upd_arena_eq; [|look_arena].
      rewrite !state_with_arena_twice. proj_arena. reflexivity.
    + destruct Hnl as [Hnl | Hnl]; [apply Z.eqb_neq in En; done|].
      erewrite (bind_eq (bind _ _)); [|eapply slot_patch_eq; [look_arena|exact Hnl]].
      erewrite (bind_eq (get_arena _)); [|apply get_arena_eq; look_arena].
      erewrite (bind_eq (slot_write _ _ _)); [|eapply slot_write_eq; [look_arena|]].
      2:{ proj_arena. rewrite length_alter. by eapply lookup_lt_Some. }
      erewrite upd_arena_eq; [|look_arena].
      rewrite !state_with_arena_twice. proj_arena. reflexivity.
  - destruct Hpl as [Hpl | Hpl]; [apply Z.eqb_neq in Ep; done|].
    erewrite (bind_eq (bind _ _)); [|eapply slot_patch_eq; [look_arena|exact Hpl]].
    erewrite (bind_eq (slot_read _ _)); [|eapply slot_read_eq; [look_arena|]].
    2:{ proj_arena. rewrite list_lookup_alter_ne by lia. exact Hds. }
    destruct (next ds =? SIZE_MAX) eqn:En; simpl negb; cbv iota.
    + erewrite (bind_eq (ret _)); [|reflexivity].
      erewrite (bind_eq (get_arena _)); [|apply get_arena_eq; look_arena].
      erewrite (bind_eq (slot_write _ _ _)); [|eapply slot_write_eq; [look_arena|]].
      2:{ proj_arena. rewrite length_alter. by eapply lookup_lt_Some. }
      erewrite upd_arena_eq; [|look_arena].
      rewrite !state_with_arena_twice. proj_arena. reflexivity.
    + destruct Hnl as [Hnl | Hnl]; [apply Z.eqb_neq in En; done|].
      erewrite (bind_eq (bind _ _)); [|eapply slot_patch_eq; [look_arena|]].
      2:{ proj_arena. by rewrite length_alter. }
      erewrite (bind_eq (get_arena _)); [|apply get_arena_eq; look_arena].
      erewrite (bind_eq (slot_write _ _ _)); [|eapply slot_write_eq; [look_arena|]].
      2:{ proj_arena. rewrite !length_alter. by eapply lookup_lt_Some. }
      erewrite upd_arena_eq; [|look_arena].
      rewrite !state_with_arena_twice. proj_arena. reflexivity.
Qed.
Lemma hd_elem (d : Z) l : hd d l = d \/ hd d l ∈ l.
Proof. destruct l; simpl; [by left|right; elem]. Qed.

(** Cancelling a slot of the active list moves it to the
    front of the free list and keeps every other slot where it was. *)
Lemma arena_ext_cancel_spec call arena slot run_defer s0 a0 s a l1 l2 fre :
  arena <> 0 ->
  arenas s0 !! arena = Some a0 ->
  ndebug s0 = true \/ magic a0 = ARENAIMP_MAGIC_ARENA ->
  (if run_defer : bool
   then let* ds := slot_read arena slot in call (fn ds) (user ds)
   else ret tt) s0 = Ok tt s ->
  arenas s !! arena = Some a ->
  registry_wf a (l1 ++ slot :: l2) fre ->
  exists a',
    arena_ext_cancel_with call arena slot run_defer s0
      = Ok tt (state_with_arena arena a' s) /\
    registry_wf a' (l1 ++ l2) (slot :: fre) /\
    slot_calls (defer_tab a') (l1 ++ l2) = slot_calls (defer_tab a) (l1 ++ l2) /\
    same_registry a (with_heads (active_defer_head a) (free_defer_head a)
                       (with_defer_tab (defer_tab a) a')).
Proof.
  intros Harena Ha0 Hm Hcall Ha Hwf.
  pose proof (registry_NoDup _ _ _ Hwf) as Hnd.
  pose proof (fun i => registry_index _ _ _ i Hwf) as Hidx.
  destruct Hwf as (Hlen & Hmax & Hac & Hfc & Hperm).
  assert (NoDup (l1 ++ slot :: l2)) as Hnda by (by apply NoDup_app in Hnd as (? & _)).
  assert (forall i, i ∈ l1 ++ slot :: l2 -> 0 <= i /\ i <> SIZE_MAX) as Hia.
  { intros i Hi. destruct (Hidx i ltac:(apply elem_of_app; by left)) as [? ?].
    split; [lia|done]. }
  destruct (active_chain_unlink _ _ _ _ _ _ Hac Hnda) as (ds & Hds & Hp & Hn & Hch);
    [|apply SIZE_MAX_nonneg|].
  { intros i Hi. destruct (Hia i Hi). by repeat split. }
  destruct (Hia slot ltac:(elem)) as [Hs0 Hsm].
  (* the two neighbours *)
  assert (prev ds = SIZE_MAX /\ l1 = [] \/ prev ds ∈ l1) as Hpc.
  { rewrite Hp. destruct (last l1) as [x|] eqn:E; simpl.
    - right. apply last_Some in E as [l' ->]. elem.
    - left. split; [done|]. by apply last_None. }
  assert (next ds = SIZE_MAX \/ next ds ∈ l2) as Hnc
    by (rewrite Hn; apply hd_elem).
  assert (0 <= prev ds /\ prev ds <> slot /\
          (prev ds = SIZE_MAX \/ (Z.to_nat (prev ds) < length (defer_tab a))%nat))
    as (Hp0 & Hps & Hpl).
  { destruct Hpc as [[Hpm _] | Hpin].
    - rewrite Hpm. split; [apply SIZE_MAX_nonneg|]. split; [congruence|by left].
    - destruct (Hia (prev ds) ltac:(elem)). split; [done|]. split.
      + intros Heq. rewrite Heq in Hpin. apply NoDup_app in Hnda as (_ & Hx & _).
        apply (Hx slot Hpin). elem.
      + right. eapply active_chain_lt; [exact Hac|elem]. }
  assert (0 <= next ds /\ next ds <> slot /\
          (next ds = SIZE_MAX \/ (Z.to_nat (next ds) < length (defer_tab a))%nat))
    as (Hn0 & Hns & Hnl).
  { destruct Hnc as [Hnm | Hnin].
    - rewrite Hnm. split; [apply SIZE_MAX_nonneg|]. split; [congruence|by left].
    - destruct (Hia (next ds) ltac:(elem)). split; [done|]. split.
      + intros Heq. rewrite Heq in Hnin. apply NoDup_app in Hnda as (_ & _ & Hx).
        apply NoDup_cons in Hx as [Hx _]. done.
      + right. eapply active_chain_lt; [exact Hac|elem]. }
  assert (prev ds <> next ds \/ prev ds = SIZE_MAX) as Hpn.
  { destruct Hpc as [[Hpm _] | Hpin]; [by right|left].
    destruct Hnc as [Hnm | Hnin].
    - rewrite Hnm. apply (Hia (prev ds)). elem.
    - intros Heq. rewrite Heq in Hpin. apply NoDup_app in Hnda as (_ & Hx & _).
      apply (Hx _ Hpin). elem. }
  eexists. split.
  { apply (arena_ext_cancel_run call arena slot run_defer s0 a0 s a ds); done. }
  set (T := <[Z.to_nat slot := mk_slot FnNull 0 SIZE_MAX (free_defer_head a)]>
              (unlink_tab (defer_tab a) (prev ds) (next ds))).
  assert (length T = length (defer_tab a)) as HlT
    by (subst T; rewrite length_insert; apply unlink_tab_length).
  assert (forall i, 0 <= i -> i <> slot ->
            T !! Z.to_nat i = unlink_tab (defer_tab a) (prev ds) (next ds) !! Z.to_nat i)
    as HT by (intros i Hi0 His; subst T; apply list_lookup_insert_ne; lia).
  assert (slot ∉ l1 ++ l2) as Hsl.
  { intros Hin. apply NoDup_app in Hnda as (_ & Hx & Hy).
    apply NoDup_cons in Hy as [Hy _].
    apply elem_of_app in Hin as [Hin | Hin]; [apply (Hx slot Hin); elem|done]. }
  split; [|split].
  - unfold registry_wf; proj_arena. split; [by rewrite HlT|]. split; [done|].
    split; [|split].
    + assert ((if prev ds =? SIZE_MAX then next ds else active_defer_head a)
              = match l1 with [] => next ds | _ :: _ => active_defer_head a end) as ->.
      { destruct Hpc as [[Hpm ->] | Hpin]; [by rewrite Hpm|].
        destruct (Hia (prev ds) ltac:(elem)) as [_ Hx].
        apply Z.eqb_neq in Hx. rewrite Hx. destruct l1; [by apply elem_of_nil in Hpin|done]. }
      eapply active_chain_frame; [|exact Hch].
      intros i Hi. apply HT.
      * apply (Hia i). elem.
      * intros ->. done.
    + simpl. split; [done|]. eexists. split.
      * subst T. apply list_lookup_insert_eq. rewrite unlink_tab_length.
        by eapply lookup_lt_Some.
      * simpl. eapply free_chain_frame; [|exact Hfc].
        intros i Hi.
        destruct (Hidx i ltac:(apply elem_of_app; by right)) as [Hi0 Him].
        assert (forall j, j ∈ l1 ++ slot :: l2 -> i <> j) as Hdis.
        { intros j Hj ->. apply NoDup_app in Hnd as (_ & Hx & _). by apply (Hx j). }
        rewrite HT; [|lia|apply Hdis; elem].
        apply unlink_tab_lookup_ne; [lia|done|done| |].
        -- destruct Hpc as [[Hpm _] | Hpin]; [congruence|apply Hdis; elem].
        -- destruct Hnc as [Hnm | Hnin]; [congruence|apply Hdis; elem].
    + rewrite HlT, <- Hperm. rewrite <- !app_assoc. f_equiv. simpl.
      symmetry. apply Permutation_middle.
  - proj_arena. unfold slot_calls. apply map_ext_in. intros i Hi.
    apply list_elem_of_In in Hi.
    rewrite HT; [apply unlink_tab_calls|apply (Hia i); elem|intros ->; done].
  - by repeat split.
Qed.

(** What the permutation in [registry_wf] says slot by slot. *)
Lemma registry_partition a act fre i :
  registry_wf a act fre -> 0 <= i < num_defers a ->
  (i ∈ act /\ i ∉ fre) \/ (i ∈ fre /\ i ∉ act).
Proof.
  intros Hwf Hi. pose proof (registry_NoDup _ _ _ Hwf) as Hnd.
  destruct Hwf as (Hlen & _ & _ & _ & Hperm).
  assert (i ∈ act ++ fre) as Hin.
  { rewrite Hperm. apply list_elem_of_In, in_map_iff. exists (Z.to_nat i).
    split; [lia|]. apply in_seq. lia. }
  apply NoDup_app in Hnd as (_ & Hdis & _).
  apply elem_of_app in Hin as [Hin | Hin]; [left|right]; split; try done.
  - by apply Hdis.
  - intros Hact. by apply (Hdis i).
Qed.

Lemma arena_init_registry (s : state) (a : Z) :
  exists s' r,
    (arena_memset0 a;; arenaimp_init a) s = Ok tt s' /\
    arenas s' !! a = Some r /\ registry_wf r [] [] /\
    magic r = ARENAIMP_MAGIC_ARENA.
Proof.
  unfold arena_memset0, arenaimp_init, upd_arena, bind, get_arena, put_arena, store.
  simpl. repeat (rewrite lookup_insert_eq; simpl).
  eexists _, _. split; [reflexivity|]. simpl.
  split; [apply lookup_insert_eq|]. split; [|done].
  unfold registry_wf. simpl. repeat split; done.
Qed.

Lemma fresh_root_registry :
  registry_wf (arena_at 1000 (fresh_root true)) [] [].
Proof. vm_compute. repeat split; done. Defined.

(** ** Teardown *)

Lemma state_with_events_nil s : state_with_events [] s = s.
Proof. unfold state_with_events. rewrite app_nil_r. by destruct s. Qed.

Lemma state_with_events_app es1 es2 s :
  state_with_events es2 (state_with_events es1 s) = state_with_events (es1 ++ es2) s.
Proof. unfold state_with_events. simpl. by rewrite app_assoc. Qed.

(** The first loop of [arena_free] over an active list of caller
    finalizers: each is called once, from the head on. *)
Lemma defer_walk_users fuel' arena a l :
  forall (fuel : nat) prv cur s,
    arenas s !! arena = Some a ->
    active_chain (defer_tab a) prv cur l ->
    (forall i, i ∈ l -> i <> SIZE_MAX) ->
    Forall is_user (slot_calls (defer_tab a) l) ->
    (length l <= fuel)%nat ->
    defer_walk (call_fn fuel') fuel arena cur s
      = Ok tt (state_with_events (call_events (slot_calls (defer_tab a) l)) s).
Proof.
  induction l as [|i l IH]; intros fuel prv cur s Ha Hc Hidx Hu Hfuel.
  - simpl in Hc. subst cur. destruct fuel; simpl; by rewrite state_with_events_nil.
  - simpl in Hc. destruct Hc as (-> & ds & Hds & Hp & Hc).
    destruct fuel as [|fuel]; [simpl in Hfuel; lia|].
    simpl defer_walk.
    assert ((i =? SIZE_MAX) = false) as -> by (apply Z.eqb_neq, Hidx; elem).
    rewrite (bind_eq _ _ _ _ _ (slot_read_eq _ _ _ _ _ Ha Hds)).
    simpl in Hu. rewrite Hds in Hu. apply Forall_cons in Hu as [[id Hid] Hu].
    simpl in Hid.
    rewrite (bind_eq _ _ s tt (state_with_events [EvCall id (user ds)] s))
      by (rewrite Hid; reflexivity).
    erewrite (bind_eq (slot_read _ _)); [|eapply slot_read_eq; [exact Ha|exact Hds]].
    rewrite (IH fuel i (next ds) (state_with_events [EvCall id (user ds)] s) Ha Hc);
      [| |done|simpl in Hfuel; lia].
    + rewrite state_with_events_app. simpl. rewrite Hds.
      unfold call_event. simpl. by rewrite Hid.
    + intros j Hj. apply Hidx. elem.
Qed.
(** The second loop of [arena_free] frees every block of the ring, once,
    in ring order. *)
Lemma big_sweep_links l :
  forall (fuel : nat) x last s,
    links (mem s) x l last -> NoDup l ->
    (forall n, n ∈ l -> n <> last /\ n ∈ live s) ->
    (length l <= fuel)%nat ->
    exists s',
      big_sweep fuel (hd last l) last s = Ok tt s' /\
      trace s' = trace s ++ map EvFree l /\
      live s' = live s ∖ list_to_set l /\
      mem s' = mem s /\ arenas s' = arenas s /\ bytes s' = bytes s /\
      oracle s' = oracle s /\ ndebug s' = ndebug s.
Proof.
  induction l as [|n l IH]; intros fuel x last s Hl Hnd Hlive Hfuel.
  - exists s. simpl.
    assert (big_sweep fuel last last s = Ok tt s) as ->
      by (destruct fuel; simpl; rewrite Z.eqb_refl; done).
    rewrite app_nil_r. repeat split; try done.
    by rewrite ?list_to_set_nil, difference_empty_L.
  - destruct fuel as [|fuel]; [simpl in Hfuel; lia|].
    simpl in Hl. destruct Hl as (_ & _ & Hl).
    destruct (links_next_prev _ _ _ _ Hl) as [Hnext _].
    destruct (Hlive n ltac:(elem)) as [Hnl Hnlive].
    apply NoDup_cons in Hnd as [Hnn Hnd].
    simpl hd. simpl big_sweep.
    assert ((n =? last) = false) as -> by (by apply Z.eqb_neq).
    rewrite (bind_eq _ _ _ _ _ (load_eq _ _ _ Hnext)).
    unfold bind at 1. unfold free. rewrite decide_True by done.
    set (s1 := mk_state (arenas s) (mem s) (bytes s) (live s ∖ {[n]}) (oracle s)
                 (trace s ++ [EvFree n]) (ndebug s)).
    destruct (IH fuel n last s1 Hl Hnd) as (s' & H1 & H2 & H3 & H4 & H5 & H6 & H7 & H8).
    + intros m Hm. destruct (Hlive m ltac:(elem)) as [? ?]. split; [done|].
      subst s1. simpl. apply elem_of_difference. split; [done|].
      intros Heq%elem_of_singleton. subst m. done.
    + simpl in Hfuel. lia.
    + exists s'. split; [exact H1|]. subst s1. simpl in *.
      rewrite H2, H3, <- app_assoc. repeat split; try done.
      by rewrite ?list_to_set_cons, difference_difference_l_L.
Qed.

(** [arena_free] of a live arena is its three parts in sequence. *)
Lemma arena_free_unfold fuel arena s r :
  arena <> 0 -> arenas s !! arena = Some r ->
  ndebug s = true \/ magic r = ARENAIMP_MAGIC_ARENA ->
  arena_free (S fuel) arena s
  = (defer_walk (call_fn fuel) fuel arena (active_defer_head r);;
     arena_sweep fuel arena;;
     arena_release (call_fn fuel) arena)
      (state_with_arena arena (with_magic ARENAIMP_MAGIC_FREE r)
         (state_with_events [EvDestroy arena] s)).
Proof.
  intros Harena Hr Hm. simpl arena_free.
  assert ((arena =? 0) = false) as -> by (by apply Z.eqb_neq).
  rewrite (bind_eq _ _ _ _ _ (get_arena_eq _ _ _ Hr)).
  rewrite (bind_eq _ _ s tt s) by (apply assert_ok; destruct Hm as [Hm | Hm];
    [by left|right; rewrite Hm; apply Z.eqb_refl]).
  unfold bind at 1. unfold emit at 1. unfold bind at 1. unfold put_arena at 1.
  reflexivity.
Qed.
Lemma arena_free_walk fuel arena s r act fre :
  arena <> 0 -> arenas s !! arena = Some r ->
  ndebug s = true \/ magic r = ARENAIMP_MAGIC_ARENA ->
  registry_wf r act fre ->
  Forall is_user (slot_calls (defer_tab r) act) ->
  (length act <= fuel)%nat ->
  exists s',
    arena_free (S fuel) arena s
      = (arena_sweep fuel arena;; arena_release (call_fn fuel) arena) s' /\
    trace s' = trace s ++ [EvDestroy arena]
                 ++ call_events (slot_calls (defer_tab r) act) /\
    live s' = live s /\ mem s' = mem s /\
    arenas s' = <[arena := with_magic ARENAIMP_MAGIC_FREE r]> (arenas s).
Proof.
  intros Harena Hr Hm Hwf Hu Hf1.
  rewrite (arena_free_unfold fuel arena s r Harena Hr Hm).
  pose proof (fun i Hi => proj2 (registry_index _ _ _ i Hwf Hi)) as Hidx.
  destruct Hwf as (_ & _ & Hac & _).
  set (s1 := state_with_arena arena (with_magic ARENAIMP_MAGIC_FREE r)
               (state_with_events [EvDestroy arena] s)).
  assert (arenas s1 !! arena = Some (with_magic ARENAIMP_MAGIC_FREE r)) as Hr1
    by apply state_with_arena_lookup.
  rewrite (bind_eq _ _ _ _ _
             (defer_walk_users fuel arena _ act fuel SIZE_MAX _ s1 Hr1 Hac
                ltac:(intros i Hi; apply Hidx, elem_of_app; by left) Hu Hf1)).
  eexists. split; [reflexivity|]. subst s1. simpl.
  rewrite <- !app_assoc. done.
Qed.

Lemma registry_count a act fre :
  registry_wf a act fre -> num_defers a = Z.of_nat (length act + length fre).
Proof.
  intros (Hlen & _ & _ & _ & Hperm).
  apply Permutation_length in Hperm.
  rewrite length_app, length_map, length_seq in Hperm. lia.
Qed.

Lemma arena_sweep_ring fuel arena nodes s :
  ring_wf (mem s) arena nodes ->
  (forall n, n ∈ nodes -> n ∈ live s) ->
  (length nodes <= fuel)%nat ->
  exists s',
    arena_sweep fuel arena s = Ok tt s' /\
    trace s' = trace s ++ map EvFree nodes /\
    live s' = live s ∖ list_to_set nodes /\
    mem s' = mem s /\ arenas s' = arenas s /\ bytes s' = bytes s /\
    oracle s' = oracle s /\ ndebug s' = ndebug s.
Proof.
  intros Hwf Hlive Hfuel.
  pose proof (ring_first _ _ _ Hwf) as Hfirst.
  destruct Hwf as (_ & Hall & Hl).
  unfold arena_sweep. rewrite (bind_eq _ _ _ _ _ (load_eq _ _ _ Hfirst)).
  destruct nodes as [|n nodes].
  - exists s. simpl.
    assert (big_sweep fuel (big_tail arena) (big_tail arena) s = Ok tt s) as ->
      by (destruct fuel; simpl; rewrite Z.eqb_refl; done).
    rewrite app_nil_r. repeat split; try done.
    by rewrite ?list_to_set_nil, difference_empty_L.
  - apply all_sep_tail in Hall.
    pose proof Hall as Hall'. apply all_sep_NoDup_psep in Hall' as [Hnd _].
    apply NoDup_cons in Hnd as [_ Hnd].
    apply (big_sweep_links (n :: nodes) fuel (big_head arena) (big_tail arena) s Hl Hnd);
      [|done].
    intros m Hm. split; [|by apply Hlive].
    apply not_eq_sym, sep_neq. by apply (all_sep_elem _ _ _ Hall).
Qed.

(** [arena_free] of an arena whose pending cleanups are caller finalizers:
    they are called from the head of the active list on, then every block of
    the ring is freed, and what remains is the release of the arena's own
    storage. *)
Lemma arena_free_walk_sweep fuel arena s r act fre nodes :
  arena <> 0 -> arenas s !! arena = Some r ->
  ndebug s = true \/ magic r = ARENAIMP_MAGIC_ARENA ->
  registry_wf r act fre ->
  Forall is_user (slot_calls (defer_tab r) act) ->
  ring_wf (mem s) arena nodes ->
  (forall n, n ∈ nodes -> n ∈ live s) ->
  (length act <= fuel)%nat -> (length nodes <= fuel)%nat ->
  exists s',
    arena_free (S fuel) arena s = arena_release (call_fn fuel) arena s' /\
    trace s' = trace s ++ [EvDestroy arena]
                 ++ call_events (slot_calls (defer_tab r) act)
                 ++ map EvFree nodes /\
    live s' = live s ∖ list_to_set nodes /\
    mem s' = mem s /\
    arenas s' = <[arena := with_magic ARENAIMP_MAGIC_FREE r]> (arenas s).
Proof.
  intros Harena Hr Hm Hwf Hu Hring Hlive Hf1 Hf2.
  rewrite (arena_free_unfold fuel arena s r Harena Hr Hm).
  pose proof (fun i Hi => proj2 (registry_index _ _ _ i Hwf Hi)) as Hidx.
  destruct Hwf as (_ & _ & Hac & _).
  set (s1 := state_with_arena arena (with_magic ARENAIMP_MAGIC_FREE r)
               (state_with_events [EvDestroy arena] s)).
  assert (arenas s1 !! arena = Some (with_magic ARENAIMP_MAGIC_FREE r)) as Hr1
    by apply state_with_arena_lookup.
  rewrite (bind_eq _ _ _ _ _
             (defer_walk_users fuel arena _ act fuel SIZE_MAX _ s1 Hr1 Hac
                ltac:(intros i Hi; apply Hidx, elem_of_app; by left) Hu Hf1)).
  set (s2 := state_with_events _ s1).
  destruct (arena_sweep_ring fuel arena nodes s2 Hring Hlive Hf2)
    as (s3 & H1 & H2 & H3 & H4 & H5 & _).
  rewrite (bind_eq _ _ _ _ _ H1).
  exists s3. split; [done|]. rewrite H2, H3, H4, H5.
  subst s2 s1. simpl. rewrite <- !app_assoc. done.
Qed.

(** A whole run, for both settings of assert(): creation, three
    registrations back to back, teardown. *)
Lemma deferred_cleanups_example (nd : bool) :
  result_of (scenario_abc (init_state [1000] nd))
    = Some (0, 1, 2,
            [EvMalloc 296 1000; EvDestroy 1000;
             EvCall 3 33; EvCall 2 22; EvCall 1 11; EvFree 1000]).
Proof. destruct nd; vm_compute; reflexivity. Qed.

(** ** Page growth *)

Lemma ring_wf_frame m m' a l :
  (forall x, x ∈ big_head a :: big_tail a :: l ->
     m' !! big_prev x = m !! big_prev x /\ m' !! big_next x = m !! big_next x) ->
  ring_wf m a l -> ring_wf m' a l.
Proof.
  intros Hf (H1 & H2 & H3). split; [|split; [done|]].
  - rewrite (proj2 (Hf (big_tail a) ltac:(elem))). done.
  - destruct l as [|n l].
    + rewrite (proj2 (Hf (big_head a) ltac:(elem))). done.
    + eapply links_frame; [| |exact H3].
      * intros y Hy. apply Hf. elem.
      * intros y Hy. apply Hf. elem.
Qed.

Lemma grown_page_size_bounds ns ts :
  ARENAIMP_FIRST_PAGE_SIZE / 2 <= ns <= ARENAIMP_MAX_PAGE_SIZE ->
  0 <= ts <= ARENAIMP_LARGEST_SIZECLASS ->
  grown_page_size ns ts = grown_next_size ns /\
  ARENAIMP_FIRST_PAGE_SIZE <= grown_page_size ns ts <= ARENAIMP_MAX_PAGE_SIZE /\
  ts <= grown_page_size ns ts /\
  ARENAIMP_LARGEST_SIZECLASS < grown_page_size ns ts.
Proof.
  unfold grown_page_size, grown_next_size, ARENAIMP_FIRST_PAGE_SIZE,
    ARENAIMP_MAX_PAGE_SIZE, ARENAIMP_LARGEST_SIZECLASS, wrap.
  intros Hns Hts. change (512 / 2) with 256 in Hns.
  rewrite (Z.mod_small (ns * 2)) by lia.
  destruct (4096 <? ns * 2) eqn:E1.
  - assert ((4096 <? ts) = false) as -> by (apply Z.ltb_ge; lia). lia.
  - apply Z.ltb_ge in E1.
    assert ((ns * 2 <? ts) = false) as -> by (apply Z.ltb_ge; lia). lia.
Qed.
Lemma aalloc_uninit_size_grow fuel arena sz cnt s r h rest nodes :
  let total := wrap (sz * cnt) in
  let total_small := wrap (sizeof_small_header + total) in
  let page_size := grown_page_size (next_size r) total_small in
  arena <> 0 -> arenas s !! arena = Some r ->
  ndebug s = true \/ magic r = ARENAIMP_MAGIC_ARENA ->
  total_small <= ARENAIMP_LARGEST_SIZECLASS ->
  table_get (next_free r) (sizeclass_of total_small) = 0 ->
  wrap (size r - pos r) < chunk_of (sizeclass_of total_small) ->
  ARENAIMP_FIRST_PAGE_SIZE / 2 <= next_size r <= ARENAIMP_MAX_PAGE_SIZE ->
  ring_wf (mem s) arena nodes ->
  oracle s = h :: rest -> 0 < h ->
  Forall (sep_block h (sizeof_big_header + page_size))
    (big_head arena :: big_tail arena :: nodes) ->
  exists s' r',
    aalloc_uninit_size (S (S fuel)) arena sz cnt s
      = Ok (h + sizeof_big_header + sizeof_small_header) s' /\
    trace s' = trace s ++ [EvMalloc (sizeof_big_header + page_size) h] /\
    ring_wf (mem s') arena (h :: nodes) /\
    live s' = {[ h ]} ∪ live s /\
    arenas s' !! arena = Some r' /\ same_registry r r' /\
    next_size r' = grown_next_size (next_size r) /\
    ndebug s' = ndebug s.
Proof.
  intros total total_small page_size Harena Hr Hm Hsmall Hfl Hchunk Hns Hring Ho Hh Hsep.
  assert (0 <= total_small) as Hts0 by (apply Z.mod_pos_bound; lia).
  destruct (grown_page_size_bounds (next_size r) total_small Hns ltac:(lia))
    as (Hpg & Hpb & Hpt & Hpl).
  fold page_size in Hpg, Hpb, Hpt, Hpl.
  remember (S fuel) as inner eqn:Hinner.
  cbn [aalloc_uninit_size].
  assert ((arena =? 0) = false) as -> by (by apply Z.eqb_neq).
  rewrite (bind_eq _ _ _ _ _ (get_arena_eq _ _ _ Hr)).
  assert (assert_ (magic r =? ARENAIMP_MAGIC_ARENA) s = Ok tt s) as Hassert
    by (apply assert_ok; destruct Hm as [Hm | Hm];
        [by left | right; rewrite Hm; apply Z.eqb_refl]).
  rewrite (bind_eq _ _ _ _ _ Hassert).
  fold total. fold total_small.
  assert ((total_small <=? ARENAIMP_LARGEST_SIZECLASS) = true) as ->
    by (by apply Z.leb_le).
  rewrite Hfl. change (nonnull 0) with false. cbv iota.
  assert ((chunk_of (sizeclass_of total_small) <=? wrap (size r - pos r)) = false)
    as -> by (by apply Z.leb_gt).
  fold (grown_next_size (next_size r)).
  fold (grown_page_size (next_size r) total_small). fold page_size.
  unfold bind at 1. unfold put_arena at 1.
  set (s1 := mk_state _ _ _ _ _ _ _).
  assert (assert_ (ARENAIMP_LARGEST_SIZECLASS <? page_size) s1 = Ok tt s1) as Hassert2
    by (apply assert_ok; right; by apply Z.ltb_lt).
  rewrite (bind_eq _ _ _ _ _ Hassert2).
  assert (wrap (1 * page_size) = page_size) as Hwp
    by (unfold wrap, ARENAIMP_MAX_PAGE_SIZE, ARENAIMP_FIRST_PAGE_SIZE in *;
        rewrite Z.mod_small; lia).
  assert (arenas s1 !! arena = Some (with_next_size (grown_next_size (next_size r)) r))
    as Hr1 by apply lookup_insert_eq.
  assert (Forall (sep h) (big_head arena :: big_tail arena :: nodes)) as Hsep'.
  { eapply Forall_impl; [exact Hsep|]. intros n Hn. unfold sep_block, sep in *.
    unfold ARENAIMP_FIRST_PAGE_SIZE in *. lia. }
  destruct (aalloc_big_ring s1 arena page_size h nodes rest Hring Ho ltac:(lia) Hsep')
    as (s2 & G1 & G2 & G3 & G4 & G5 & G6 & G7 & G8 & G9).
  assert (aalloc_uninit_size inner arena 1 page_size s1 = Ok (h + sizeof_big_header) s2)
    as Hinner_call.
  { subst inner.
    rewrite (aalloc_uninit_size_big fuel s1 arena 1 page_size _ Harena Hr1 Hm).
    - by rewrite Hwp.
    - rewrite Hwp. unfold wrap, sizeof_small_header, ARENAIMP_MAX_PAGE_SIZE,
        ARENAIMP_LARGEST_SIZECLASS in *. rewrite Z.mod_small; lia. }
  rewrite (bind_eq _ _ _ _ _ Hinner_call).
  assert ((h + sizeof_big_header =? 0) = false) as ->
    by (apply Z.eqb_neq; unfold sizeof_big_header; lia).
  unfold bind at 1. unfold store at 1.
  set (s3 := mk_state _ _ _ _ _ _ _).
  assert (arenas s3 !! arena = Some (with_next_size (grown_next_size (next_size r)) r))
    as Hr3 by (subst s3; simpl; by rewrite G4).
  rewrite (bind_eq _ _ _ _ _ (get_arena_eq _ _ _ Hr3)).
  assert (ring_wf (mem s3) arena (h :: nodes)) as Hring3.
  { subst s3. simpl. eapply ring_wf_frame; [|exact G2].
    intros x Hx. rewrite Forall_forall in Hsep.
    assert (x = h \/ sep_block h (sizeof_big_header + page_size) x) as [-> | Hx'].
    { apply elem_of_cons in Hx as [-> | Hx]; [right; apply Hsep; elem|].
      apply elem_of_cons in Hx as [-> | Hx]; [right; apply Hsep; elem|].
      apply elem_of_cons in Hx as [-> | Hx]; [by left|right; apply Hsep; elem]. }
    - split; by look.
    - unfold sep_block, ARENAIMP_FIRST_PAGE_SIZE in *. split; by look. }
  assert (wrap (sizeof_big_header + page_size) = sizeof_big_header + page_size) as Hwb
    by (unfold wrap, sizeof_big_header, ARENAIMP_MAX_PAGE_SIZE,
          ARENAIMP_FIRST_PAGE_SIZE in *; rewrite Z.mod_small; lia).
  destruct (wrap (size _ - pos _) <? wrap (page_size - total_small)).
  - unfold bind, put_arena, ret. simpl.
    eexists _, _. split; [reflexivity|]. simpl.
    rewrite G8, G6. split; [by rewrite Hwb|]. split; [exact Hring3|].
    split; [done|]. split; [apply lookup_insert_eq|]. split; [by repeat split|].
    split; [done|exact G9].
  - unfold bind, ret. simpl.
    eexists _, _. split; [reflexivity|]. simpl.
    rewrite G8, G6. split; [by rewrite Hwb|]. split; [exact Hring3|].
    split; [done|]. split; [by rewrite G4|]. split; [by repeat split|].
    split; [done|exact G9].
Qed.

(** ** The two models side by side *)

(** On the teardowns studied here the byte-addressed model gives what the
    record model gives: the same events and the same blocks left allocated
    for a parent with two children and for a child created between two
    registrations, and the same trace or abort for a root with a child and a
    grown page. *)
Lemma flat_model_agrees_on_teardown :
  Flat.result_of
    (Flat.scenario_two_children (Flat.init_state [1000; 2000; 3000; 40000; 50000] true))
    = result_of (scenario_two_children (init_state [1000; 2000; 3000; 40000; 50000] true)) /\
  Flat.outcome_kind
    (Flat.scenario_two_children (Flat.init_state [1000; 2000; 3000; 40000; 50000] false))
    = outcome_kind (scenario_two_children (init_state [1000; 2000; 3000; 40000; 50000] false)) /\
  Flat.result_of (Flat.scenario_child_between (Flat.init_state [1000; 2000] true))
    = result_of (scenario_child_between (init_state [1000; 2000] true)) /\
  Flat.outcome_kind (Flat.scenario_child_between (Flat.init_state [1000; 2000] false))
    = outcome_kind (scenario_child_between (init_state [1000; 2000] false)) /\
  Flat.result_of (Flat.scenario_grown_page_child (Flat.init_state [1000; 2000; 20000] true))
    = result_of (then_free grown_page_with_child 1000 (init_state [1000; 2000; 20000] true)) /\
  Flat.outcome_kind
    (Flat.scenario_grown_page_child (Flat.init_state [1000; 2000; 20000] false))
    = outcome_kind (then_free grown_page_with_child 1000 (init_state [1000; 2000; 20000] false)).
Proof. repeat split; vm_compute; reflexivity. Qed.

(** ** Teardown order with a child arena in between *)

(** C2 (the code differs): on root 1000 cleanup A (finalizer 1) is
    registered, then a child arena is created (2024, slot 1 of the root),
    then B (finalizer 2) and C (finalizer 3) are registered.  With assert()
    compiled out, [arena_free] of the root calls C and B and destroys the
    child; the child's re-entrant [arena_ext_cancel] rewrites the [next] of
    the slot the walk stands on to the free-list head, the walk ends there
    and A is never called.  With assert() on, the magic check of that
    [arena_ext_cancel] fires after C and B have run. *)
Theorem deferred_cleanup_skipped_after_child :
  result_of (scenario_child_between (init_state [1000; 2000] true))
    = Some (1000, 0, 2024, 2, 3,
            [EvDestroy 1000; EvCall 3 33; EvCall 2 22; EvDestroy 2024;
             EvFree 1000],
            [2000]) /\
  scenario_child_between (init_state [1000; 2000] false) = AssertFail.
Proof. split; vm_compute; reflexivity. Qed.

(** ** Teardown of an arena with a grown page and a child *)

(** C10 (the code differs): root 1000 has a child (2024) and a grown page:
    the block malloc returned at 20000, of 24 + 512 bytes, first on the
    root's ring, the page itself at 20024.  With assert() on, [arena_free] of
    the root aborts in the child's re-entrant [arena_ext_cancel], before the
    sweep: the page is never freed.  With assert() compiled out the sweep is
    reached and frees the page, unless a slot of the root is on the free
    list: then the walk follows the cancelled child slot into the free list
    and calls the NULL finalizer stored there. *)
Theorem grown_page_not_swept_with_child :
  (forall nd,
     result_of (grown_page_with_child (init_state [1000; 2000; 20000] nd))
       = Some (1000, 2024, 20032, 20024, Some 20000,
               [EvMalloc 296 1000; EvMalloc 536 2000; EvMalloc 536 20000],
               [1000; 2000; 20000])) /\
  then_free grown_page_with_child 1000 (init_state [1000; 2000; 20000] false)
    = AssertFail /\
  result_of (then_free grown_page_with_child 1000
               (init_state [1000; 2000; 20000] true))
    = Some [EvMalloc 296 1000; EvMalloc 536 2000; EvMalloc 536 20000;
            EvDestroy 1000; EvDestroy 2024; EvFree 20000; EvFree 1000] /\
  result_of (grown_page_with_child_and_free_slot
               (init_state [1000; 2000; 20000] true))
    = Some (1000, 2024, 1, 20032, 20024, Some 20000,
            [EvMalloc 296 1000; EvMalloc 536 2000; EvMalloc 536 20000]) /\
  then_free grown_page_with_child_and_free_slot 1000
    (init_state [1000; 2000; 20000] true) = Fault /\
  then_free grown_page_with_child_and_free_slot 1000
    (init_state [1000; 2000; 20000] false) = AssertFail.
Proof.
  split; [intros []; vm_compute; reflexivity|].
  repeat split; vm_compute; reflexivity.
Qed.

(** ** Resizing into a recycled block *)

(** C6 (the code differs): the root's first page is full.  The 1-byte
    block [x] is the first block of a new page (at 20024) and the cursor is
    set to its footprint, 9, not to its bucket of 16 bytes, so the header of
    the next block [p] (2 bytes, holding 7 and 255) is at 20033, inside the
    bucket of [x].  After [x] is released, resizing [p] to 8 bytes recycles
    [x]: the result [q = x] has capacity 8 and its payload covers the header
    of [p].  [memcpy] writes the second byte of [p] onto the capacity of
    [p]; [afree] reads 255 there and stores its free-list link over it.
    [q] holds 7 and 0: the second byte of the old block is lost. *)
Theorem arealloc_size_copy_overwritten_by_release (nd : bool) :
  Flat.result_of (Flat.scenario_realloc_overlap (Flat.init_state [1000; 20000] nd))
    = Some (1000, 20032, 9, 20041, 2, 20032, 8, 7, 0).
Proof. destruct nd; vm_compute; reflexivity. Qed.

(** ** The slot lists under allocation and under a cancelled child *)

(** C7 (the code differs): the root's first page is full; a 56-byte block
    [b] is the first block of a new page, slot 0 is registered (the table is
    the next block, its header at 20088), [b] is released and slot 1 is
    registered: the table grows into the recycled [b] with a capacity of 64
    bytes, 8 more than lie before the old table's header, so that
    [defers[1].next] is the word at 20088, which is also the head of a free
    list.  Both lists are still as they should be: the heads are
    (active 1, free none, 2 slots), slot 0 has (prev 1, next none), slot 1
    has (prev none, next 0).  The next plain allocation of 32 bytes pops
    20088 and stores its capacity there: [defers[1].next] is 32, and slot 0
    is on neither list.
    On a root with one child, [arena_ext_cancel] of the child's slot with
    [run_defer] cancels the slot twice: afterwards the free list is slot 0
    with [next] 0, pointing at itself. *)
Theorem slot_lists_broken_by_allocation (nd : bool) :
  Flat.result_of (Flat.scenario_alloc_over_slot (Flat.init_state [1000; 20000] nd))
    = Some (1000, 20032, 0, 1, 20088,
            ((1, SIZE_MAX, 2), (1, SIZE_MAX), (SIZE_MAX, 0)),
            20096,
            ((1, SIZE_MAX, 2), (1, SIZE_MAX), (SIZE_MAX, 32))) /\
  Flat.result_of (Flat.scenario_cancel_child_slot (Flat.init_state [1000; 2000] nd))
    = Some (1000, 2024, 0,
            ((0, SIZE_MAX, 1), (SIZE_MAX, SIZE_MAX)),
            ((SIZE_MAX, 0, 1), (SIZE_MAX, 0))).
Proof. destruct nd; split; vm_compute; reflexivity. Qed.

(** ** The unmanaged heap *)

(** X1: With a NULL arena the allocator is a thin layer over malloc and free:
    an allocation asks malloc for the payload plus one header word, records
    the requested byte count in that word and returns the address after it;
    [afree] hands malloc's own pointer back to free, so that the set of live
    blocks is what it was before.  When malloc fails the result is NULL and
    nothing is written. *)
Theorem unmanaged_alloc_free_round_trip (fuel : nat) (sz cnt : Z) (s : state)
    (r : Z) (rest : list Z) :
  oracle s = r :: rest -> r ∉ live s ->
  let total := wrap (sz * cnt) in
  (0 < r ->
   exists s1 s2,
     aalloc_uninit_size (S fuel) 0 sz cnt s = Ok (r + sizeof_common_header) s1 /\
     aalloc_capacity_bytes (r + sizeof_common_header) s1 = Ok total s1 /\
     afree 0 (r + sizeof_common_header) s1 = Ok tt s2 /\
     trace s2 = trace s
       ++ [EvMalloc (wrap (sizeof_common_header + total)) r; EvFree r] /\
     live s2 = live s) /\
  (r = 0 ->
   exists s1,
     aalloc_uninit_size (S fuel) 0 sz cnt s = Ok 0 s1 /\
     mem s1 = mem s /\ live s1 = live s /\ arenas s1 = arenas s /\
     bytes s1 = bytes s).
Proof.
  intros Ho Hl total. split.
  - intros Hr.
    assert ((r =? 0) = false) as Er by lia.
    assert ((r + sizeof_common_header =? 0) = false) as Er8
      by (unfold sizeof_common_header; lia).
    eexists _, _. split; [|split; [|split]].
    + cbn [aalloc_uninit_size]. rewrite Z.eqb_refl.
      unfold bind, malloc, store, ret. cbn beta iota.
      rewrite Ho. proj_state. rewrite Er. reflexivity.
    + unfold aalloc_capacity_bytes, load. rewrite Er8. cbn [mem].
      replace (r + sizeof_common_header - sizeof_common_header) with r by lia.
      rewrite lookup_insert_eq. reflexivity.
    + unfold afree, free. rewrite Er8, Z.eqb_refl. proj_state.
      replace (r + sizeof_common_header - sizeof_common_header) with r by lia.
      rewrite decide_True by (apply elem_of_union_l, elem_of_singleton; done).
      reflexivity.
    + proj_state. rewrite <- app_assoc.
      split; [done|].
      apply set_eq. intros x. rewrite elem_of_difference, elem_of_union,
        elem_of_singleton.
      split; [intros [[|] ?]; done|].
      intros Hx. split; [by right|]. intros ->. done.
  - intros ->. eexists. split.
    + cbn [aalloc_uninit_size]. rewrite Z.eqb_refl.
      unfold bind, malloc, ret. cbn beta iota.
      rewrite Ho. rewrite Z.eqb_refl. reflexivity.
    + done.
Qed.

Lemma unmanaged_alloc_free_round_trip_witness :
  exists s1 s2,
    aalloc_uninit_size 1 0 4 10 (init_state [5000] false) = Ok 5008 s1 /\
    aalloc_capacity_bytes 5008 s1 = Ok 40 s1 /\
    afree 0 5008 s1 = Ok tt s2 /\
    trace s2 = [EvMalloc 48 5000; EvFree 5000] /\ live s2 = ∅.
Proof.
  destruct (unmanaged_alloc_free_round_trip 0 4 10 (init_state [5000] false)
              5000 [] eq_refl) as [H _].
  - apply not_elem_of_empty.
  - destruct (H ltac:(lia)) as (s1 & s2 & H1 & H2 & H3 & H4 & H5).
    exists s1, s2. repeat split; assumption.
Defined.

(** ** Reuse of released small blocks *)









(** ** Bump allocation *)

Lemma chunk_of_fits ts :
  0 <= ts <= ARENAIMP_LARGEST_SIZECLASS ->
  ts <= chunk_of (sizeclass_of ts) <= ARENAIMP_LARGEST_SIZECLASS.
Proof.
  intros Hts. destruct (quantize_small ts Hts) as [Eq Hq].
  pose proof (class_ok_all (quantize ts) ltac:(lia)) as Hc.
  unfold class_ok_at in Hc. fold (sizeclass_of ts) in Hc.
  apply andb_prop in Hc as [Hc _].
  apply andb_prop in Hc as [Hc Hfit].
  apply andb_prop in Hc as [Hlo Hhi].
  change ARENAIMP_NUM_SIZECLASSES with 10 in *.
  split.
  - apply Z.leb_le in Hfit. rewrite Eq in Hfit.
    pose proof (Z.div_mod (ts + 7) 8 ltac:(lia)).
    pose proof (Z.mod_pos_bound (ts + 7) 8 ltac:(lia)). lia.
  - assert (chunk_of (sizeclass_of ts) <= chunk_of 9) as Hle.
    { destruct (decide (sizeclass_of ts = 9)) as [->|Hne]; [lia|].
      apply Z.lt_le_incl, chunk_strict; lia. }
    exact Hle.
Qed.

Lemma aalloc_uninit_size_bump (fuel : nat) (arena sz cnt : Z) (s : state)
    (a : arenaimp_t) :
  let total := wrap (sz * cnt) in
  let chunk := chunk_of (sizeclass_of (sizeof_small_header + total)) in
  arena <> 0 -> arenas s !! arena = Some a ->
  ndebug s = true \/ magic a = ARENAIMP_MAGIC_ARENA ->
  total <= ARENAIMP_LARGEST_SIZECLASS - sizeof_small_header ->
  table_get (next_free a) (sizeclass_of (sizeof_small_header + total)) = 0 ->
  page_ok a -> chunk <= size a - pos a ->
  exists s',
    aalloc_uninit_size (S fuel) arena sz cnt s
      = Ok (page a + pos a + sizeof_small_header) s' /\
    arenas s' = <[arena := with_pos (pos a + chunk) a]> (arenas s) /\
    mem s' = <[page a + pos a := total]> (mem s) /\
    pos a + sizeof_small_header + total <= pos a + chunk <= size a /\
    trace s' = trace s /\ live s' = live s /\ oracle s' = oracle s.
Proof.
  intros total chunk Ha Hlk Hmagic Htot Hfree [Hpos Hsize] Hroom.
  assert (0 <= total < 2 ^ 64) as Ht by (apply Z.mod_pos_bound; lia).
  unfold ARENAIMP_LARGEST_SIZECLASS, sizeof_small_header in *.
  assert (wrap (8 + total) = 8 + total) as Wt by (unfold wrap; apply Z.mod_small; lia).
  destruct (chunk_of_fits (8 + total)) as [Hfit Hmax];
    [unfold ARENAIMP_LARGEST_SIZECLASS; lia|].
  fold chunk in Hfit, Hmax. unfold ARENAIMP_LARGEST_SIZECLASS in Hmax.
  assert (wrap (size a - pos a) = size a - pos a) as Wr
    by (unfold wrap; apply Z.mod_small; lia).
  assert (wrap (pos a + chunk) = pos a + chunk) as Wp
    by (unfold wrap; apply Z.mod_small; lia).
  assert (assert_ (magic a =? ARENAIMP_MAGIC_ARENA) s = Ok tt s) as Hassert.
  { apply assert_ok. destruct Hmagic as [?|Hm]; [by left|right].
    rewrite Hm. apply Z.eqb_refl. }
  eexists. split.
  - cbn [aalloc_uninit_size]. replace (arena =? 0) with false by lia.
    rewrite (bind_eq _ _ _ _ _ (get_arena_eq _ _ _ Hlk)).
    rewrite (bind_eq _ _ _ _ _ Hassert).
    fold total. unfold sizeof_small_header, ARENAIMP_LARGEST_SIZECLASS.
    rewrite Wt. replace (8 + total <=? 448) with true by lia.
    rewrite Hfree. cbn [nonnull Z.eqb negb]. fold chunk.
    rewrite Wr. replace (chunk <=? size a - pos a) with true by lia.
    rewrite Wp. unfold bind, put_arena, store, ret. reflexivity.
  - proj_state. repeat split; try reflexivity; lia.
Qed.

(** X3: When the free list of the request's size class is empty and the rest of
    the current page holds one chunk of that class, a small request is
    served from the page: the block starts one header word after the cursor,
    the cursor advances by the chunk size, the payload ends inside the chunk
    and the chunk inside the page, and malloc is not called. *)
Theorem aalloc_bump_stays_in_page (fuel : nat) (arena sz cnt : Z) (s : state)
    (a : arenaimp_t) :
  let total := wrap (sz * cnt) in
  let chunk := chunk_of (sizeclass_of (sizeof_small_header + total)) in
  arena <> 0 -> arenas s !! arena = Some a ->
  ndebug s = true \/ magic a = ARENAIMP_MAGIC_ARENA ->
  total <= ARENAIMP_LARGEST_SIZECLASS - sizeof_small_header ->
  table_get (next_free a) (sizeclass_of (sizeof_small_header + total)) = 0 ->
  page_ok a -> chunk <= size a - pos a ->
  exists s' a',
    aalloc_uninit_size (S fuel) arena sz cnt s
      = Ok (page a + pos a + sizeof_small_header) s' /\
    arenas s' !! arena = Some a' /\
    pos a' = pos a + chunk /\ page a' = page a /\ size a' = size a /\
    mem s' !! (page a + pos a) = Some total /\
    pos a + sizeof_small_header + total <= pos a + chunk <= size a /\
    trace s' = trace s /\ live s' = live s /\ oracle s' = oracle s.
Proof.
  intros total chunk Ha Hlk Hmagic Htot Hfree Hpage Hroom.
  destruct (aalloc_uninit_size_bump fuel arena sz cnt s a
              Ha Hlk Hmagic Htot Hfree Hpage Hroom)
    as (s' & H1 & Har & Hmem & Hin & Ht).
  exists s', (with_pos (pos a + chunk) a). split; [exact H1|].
  split; [rewrite Har; apply lookup_insert_eq|].
  repeat (split; [reflexivity|]).
  split; [rewrite Hmem; apply lookup_insert_eq|]. done.
Qed.


Lemma aalloc_bump_stays_in_page_witness :
  exists s',
    aalloc_uninit_size 1 1000 4 10 (fresh_root true) = Ok 1232 s' /\
    mem s' !! 1224 = Some 40 /\
    trace s' = trace (fresh_root true).
Proof.
  assert (arenas (fresh_root true) !! 1000 = Some (arena_at 1000 (fresh_root true)))
    as Hlk by (vm_compute; reflexivity).
  assert (ndebug (fresh_root true) = true \/
          magic (arena_at 1000 (fresh_root true)) = ARENAIMP_MAGIC_ARENA) as Hm
    by (left; reflexivity).
  assert (wrap (4 * 10) <= ARENAIMP_LARGEST_SIZECLASS - sizeof_small_header) as Ht
    by (vm_compute; intros H; discriminate H).
  assert (table_get (next_free (arena_at 1000 (fresh_root true)))
            (sizeclass_of (sizeof_small_header + wrap (4 * 10))) = 0) as Hf
    by (vm_compute; reflexivity).
  assert (page_ok (arena_at 1000 (fresh_root true))) as Hp
    by (vm_compute; repeat split; intros H; discriminate H).
  assert (chunk_of (sizeclass_of (sizeof_small_header + wrap (4 * 10)))
          <= size (arena_at 1000 (fresh_root true))
             - pos (arena_at 1000 (fresh_root true))) as Hroom
    by (vm_compute; intros H; discriminate H).
  destruct (aalloc_bump_stays_in_page 0 1000 4 10 (fresh_root true)
              (arena_at 1000 (fresh_root true)) ltac:(lia) Hlk Hm Ht Hf Hp Hroom)
    as (s' & a' & H1 & _ & _ & _ & _ & H3 & _ & H5 & _).
  exists s'. split; [exact H1|]. split; [exact H3|exact H5].
Defined.













(** ** Release of a big block *)

Lemma ring_nodes_NoDup m a l : ring_wf m a l -> NoDup l.
Proof.
  intros (_ & Hsep & _).
  apply all_sep_tail, all_sep_tail in Hsep.
  by apply all_sep_NoDup_psep in Hsep as [? _].
Qed.

(** X5: A big block released with [afree] is unlinked from the ring and nothing
    else: [afree] does not call free, and since the teardown frees only what
    is still on the ring, the sweep of [arena_free] afterwards frees every
    other block and leaves the released one allocated. *)
Theorem afree_big_block_is_never_freed (fuel : nat) (arena h c : Z)
    (l1 l2 : list Z) (s : state) :
  arena <> 0 -> h + sizeof_big_header <> 0 ->
  ring_wf (mem s) arena (l1 ++ h :: l2) ->
  mem s !! big_capacity h = Some c ->
  ARENAIMP_LARGEST_SIZECLASS - sizeof_small_header < c ->
  (forall n, n ∈ l1 ++ h :: l2 -> n ∈ live s) ->
  (length (l1 ++ l2) <= fuel)%nat ->
  exists s1 s2,
    afree arena (h + sizeof_big_header) s = Ok tt s1 /\
    trace s1 = trace s /\ live s1 = live s /\
    arena_sweep fuel arena s1 = Ok tt s2 /\
    trace s2 = trace s ++ map EvFree (l1 ++ l2) /\
    (h ∉ l1 ++ l2) /\ h ∈ live s2.
Proof.
  intros Ha Hh Hring Hc Hbig Hlive Hfuel.
  destruct (afree_big_ring s arena h c l1 l2 Ha Hh Hring Hc Hbig)
    as (s1 & H1 & Hring1 & _ & _ & _ & Hl1 & _ & Ht1 & _).
  assert (h ∉ l1 ++ l2) as Hnot.
  { pose proof (ring_nodes_NoDup _ _ _ Hring) as Hnd.
    apply NoDup_app in Hnd as (_ & Hd & Hnd2).
    apply NoDup_cons in Hnd2 as [Hh2 _].
    intros [Hin|Hin]%elem_of_app; [|done].
    apply (Hd h Hin). apply elem_of_cons. by left. }
  destruct (arena_sweep_ring fuel arena (l1 ++ l2) s1 Hring1)
    as (s2 & H2 & Ht2 & Hl2 & _); [|done|].
  { intros n Hn. rewrite Hl1. apply Hlive. elem. }
  exists s1, s2. repeat split; try assumption.
  - by rewrite Ht2, Ht1.
  - rewrite Hl2, Hl1. apply elem_of_difference. split.
    + apply Hlive. elem.
    + by rewrite elem_of_list_to_set.
Qed.

Lemma big_state_ring : ring_wf (mem big_state) 1000 [20000].
Proof.
  split; [vm_compute; reflexivity|]. split.
  - simpl. unfold_addr. repeat constructor; lia.
  - vm_compute. repeat split; reflexivity.
Defined.

Lemma afree_big_block_is_never_freed_witness :
  exists s1 s2,
    afree 1000 20024 big_state = Ok tt s1 /\
    arena_sweep 0 1000 s1 = Ok tt s2 /\
    trace s2 = trace big_state /\ 20000 ∈ live s2.
Proof.
  assert (mem big_state !! big_capacity 20000 = Some 5000) as Hc
    by (vm_compute; reflexivity).
  assert (forall n, n ∈ [] ++ 20000 :: [] -> n ∈ live big_state) as Hl.
  { intros n Hn. simpl in Hn. apply elem_of_cons in Hn.
    destruct Hn as [Heq|Hn]; [|apply elem_of_nil in Hn; destruct Hn].
    rewrite Heq. vm_compute. reflexivity. }
  destruct (afree_big_block_is_never_freed 0 1000 20000 5000 [] [] big_state
              ltac:(lia) ltac:(unfold sizeof_big_header; lia) big_state_ring Hc
              ltac:(unfold ARENAIMP_LARGEST_SIZECLASS, sizeof_small_header; lia)
              Hl ltac:(simpl; lia))
    as (s1 & s2 & H1 & _ & _ & H2 & H3 & _ & H4).
  exists s1, s2. split; [exact H1|]. split; [exact H2|]. split; [|exact H4].
  rewrite H3. apply app_nil_r.
Defined.

(** ** Teardown of an arena without child arenas *)

Lemma arena_free_plain (fuel : nat) (arena : Z) (s : state)
    (r : arenaimp_t) (act fre nodes : list Z) :
  arena <> 0 -> arenas s !! arena = Some r ->
  ndebug s = true \/ magic r = ARENAIMP_MAGIC_ARENA ->
  registry_wf r act fre ->
  Forall is_user (slot_calls (defer_tab r) act) ->
  ring_wf (mem s) arena nodes ->
  (forall n, n ∈ nodes -> n ∈ live s) ->
  (length act <= fuel)%nat -> (length nodes <= fuel)%nat ->
  (allocated r = true -> parent r = 0 /\ arena ∈ live s /\ arena ∉ nodes) ->
  exists s',
    arena_free (S fuel) arena s = Ok tt s' /\
    trace s' = trace s ++ [EvDestroy arena]
                 ++ call_events (slot_calls (defer_tab r) act)
                 ++ map EvFree nodes
                 ++ (if allocated r then [EvFree arena] else []) /\
    live s' = (live s ∖ list_to_set nodes)
                ∖ (if allocated r then {[ arena ]} else ∅).
Proof.
  intros Ha Hr Hm Hwf Hu Hring Hlive Hf1 Hf2 Hroot.
  destruct (arena_free_walk_sweep fuel arena s r act fre nodes Ha Hr Hm Hwf Hu
              Hring Hlive Hf1 Hf2) as (s1 & H1 & Ht & Hl & _ & Har).
  rewrite H1. unfold arena_release.
  assert (arenas s1 !! arena = Some (with_magic ARENAIMP_MAGIC_FREE r)) as Hr1
    by (rewrite Har; apply lookup_insert_eq).
  rewrite (bind_eq _ _ _ _ _ (get_arena_eq _ _ _ Hr1)).
  proj_arena. destruct (allocated r) eqn:Eal.
  - destruct (Hroot eq_refl) as (Hp & Hin & Hnot).
    rewrite Hp. cbn [nonnull Z.eqb negb].
    unfold free. rewrite decide_True.
    + eexists. split; [reflexivity|]. proj_state. rewrite Ht, Hl.
      split; [|reflexivity]. by rewrite <- !app_assoc.
    + rewrite Hl. apply elem_of_difference. split; [done|].
      by rewrite elem_of_list_to_set.
  - exists s1. split; [reflexivity|]. rewrite Ht, Hl.
    split; [by rewrite !app_nil_r|].
    apply set_eq. intros x. rewrite !elem_of_difference, elem_of_empty. tauto.
Qed.

(** X6: Teardown of an arena that is no child itself and whose pending cleanups
    are finalizers of the caller: [arena_free] returns; it has called the
    finalizers from the head of the active list on, that is the most
    recently registered first, then freed every block of the ring in ring
    order, then the arena's own block when [arena_create] had made it, and
    nothing else. *)
Theorem arena_free_without_children (fuel : nat) (arena : Z) (s : state)
    (r : arenaimp_t) (act fre nodes : list Z) :
  arena <> 0 -> arenas s !! arena = Some r ->
  ndebug s = true \/ magic r = ARENAIMP_MAGIC_ARENA ->
  registry_wf r act fre ->
  Forall is_user (slot_calls (defer_tab r) act) ->
  ring_wf (mem s) arena nodes ->
  (forall n, n ∈ nodes -> n ∈ live s) ->
  (length act <= fuel)%nat -> (length nodes <= fuel)%nat ->
  (allocated r = true -> parent r = 0 /\ arena ∈ live s /\ arena ∉ nodes) ->
  exists s',
    arena_free (S fuel) arena s = Ok tt s' /\
    trace s' = trace s ++ [EvDestroy arena]
                 ++ call_events (slot_calls (defer_tab r) act)
                 ++ map EvFree nodes
                 ++ (if allocated r then [EvFree arena] else []) /\
    live s' = (live s ∖ list_to_set nodes)
                ∖ (if allocated r then {[ arena ]} else ∅).
Proof. apply arena_free_plain. Qed.



Lemma abc3_registry :
  registry_wf (arena_at 1000 abc3) [2; 1; 0] [].
Proof.
  vm_compute. split; [reflexivity|]. split; [reflexivity|]. split; [|split].
  - split; [reflexivity|]. eexists.
    split; [reflexivity|]. split; [reflexivity|]. split; [reflexivity|]. eexists.
    split; [reflexivity|]. split; [reflexivity|]. split; [reflexivity|]. eexists.
    split; [reflexivity|]. split; reflexivity.
  - reflexivity.
  - apply (reverse_Permutation [0; 1; 2]).
Defined.

Lemma abc3_ring : ring_wf (mem abc3) 1000 [].
Proof.
  split; [vm_compute; reflexivity|]. split; [|vm_compute; reflexivity].
  simpl. unfold_addr. repeat constructor. lia.
Defined.

Lemma arena_free_without_children_witness :
  exists s',
    arena_free 4 1000 abc3 = Ok tt s' /\
    trace s' = trace abc3
                 ++ [EvDestroy 1000; EvCall 3 33; EvCall 2 22; EvCall 1 11;
                     EvFree 1000] /\
    live s' = ∅.
Proof.
  assert (arenas abc3 !! 1000 = Some (arena_at 1000 abc3)) as Hr
    by (vm_compute; reflexivity).
  assert (ndebug abc3 = true \/ magic (arena_at 1000 abc3) = ARENAIMP_MAGIC_ARENA)
    as Hm by (left; vm_compute; reflexivity).
  assert (Forall is_user (slot_calls (defer_tab (arena_at 1000 abc3)) [2; 1; 0]))
    as Hu.
  { vm_compute. constructor; [by exists 3%nat|].
    constructor; [by exists 2%nat|]. constructor; [by exists 1%nat|]. constructor. }
  assert (forall n, n ∈ @nil Z -> n ∈ live abc3) as Hl.
  { intros n Hn. apply elem_of_nil in Hn. destruct Hn. }
  assert (allocated (arena_at 1000 abc3) = true ->
          parent (arena_at 1000 abc3) = 0 /\ 1000 ∈ live abc3 /\ 1000 ∉ @nil Z)
    as Hroot.
  { intros _. split; [vm_compute; reflexivity|]. split; [vm_compute; reflexivity|].
    apply not_elem_of_nil. }
  destruct (arena_free_without_children 3 1000 abc3 (arena_at 1000 abc3)
              [2; 1; 0] [] [] ltac:(lia) Hr Hm abc3_registry Hu abc3_ring Hl
              ltac:(simpl; lia) ltac:(simpl; lia) Hroot)
    as (s' & H1 & H2 & H3).
  exists s'. split; [exact H1|]. split; [exact H2|].
  rewrite H3. vm_compute. reflexivity.
Defined.

(** ** The page a small request grows *)

(** X7: When a small request finds neither a free block of its class nor room
    in the current page, the allocation succeeds whenever malloc does: the
    new page is requested from malloc as a big object of
    [max (2 * next_size capped at 4096, footprint)] payload bytes, which is
    at least [max (512, footprint)] and more than the largest size class;
    its block becomes the first node of the arena's ring, and the request is
    the first block of the page.  [next_size] is 256 after [arenaimp_init]
    and stays between 512 and 4096 from the first growth on. *)
Theorem grown_page_is_big_and_linked (fuel : nat) (arena sz cnt : Z) (s : state)
    (r : arenaimp_t) (h : Z) (rest nodes : list Z) :
  let total_small := wrap (sizeof_small_header + wrap (sz * cnt)) in
  let page_size := grown_page_size (next_size r) total_small in
  arena <> 0 -> arenas s !! arena = Some r ->
  ndebug s = true \/ magic r = ARENAIMP_MAGIC_ARENA ->
  total_small <= ARENAIMP_LARGEST_SIZECLASS ->
  table_get (next_free r) (sizeclass_of total_small) = 0 ->
  wrap (size r - pos r) < chunk_of (sizeclass_of total_small) ->
  ARENAIMP_FIRST_PAGE_SIZE / 2 <= next_size r <= ARENAIMP_MAX_PAGE_SIZE ->
  ring_wf (mem s) arena nodes ->
  oracle s = h :: rest -> 0 < h ->
  Forall (sep_block h (sizeof_big_header + page_size))
    (big_head arena :: big_tail arena :: nodes) ->
  Z.max ARENAIMP_FIRST_PAGE_SIZE total_small <= page_size /\
  ARENAIMP_LARGEST_SIZECLASS < page_size /\
  exists s' r',
    aalloc_uninit_size (S (S fuel)) arena sz cnt s
      = Ok (h + sizeof_big_header + sizeof_small_header) s' /\
    trace s' = trace s ++ [EvMalloc (sizeof_big_header + page_size) h] /\
    ring_wf (mem s') arena (h :: nodes) /\
    live s' = {[ h ]} ∪ live s /\
    arenas s' !! arena = Some r' /\
    ARENAIMP_FIRST_PAGE_SIZE <= next_size r' <= ARENAIMP_MAX_PAGE_SIZE.
Proof.
  intros total_small page_size Harena Hr Hm Hsmall Hfl Hchunk Hns Hring Ho Hh Hsep.
  assert (0 <= total_small) as Hts0 by (apply Z.mod_pos_bound; lia).
  destruct (grown_page_size_bounds (next_size r) total_small Hns ltac:(lia))
    as (Hpg & Hpb & Hpt & Hpl).
  fold page_size in Hpg, Hpb, Hpt, Hpl.
  split; [lia|]. split; [done|].
  destruct (aalloc_uninit_size_grow fuel arena sz cnt s r h rest nodes
              Harena Hr Hm Hsmall Hfl Hchunk Hns Hring Ho Hh Hsep)
    as (s' & r' & H1 & H2 & H3 & H4 & H5 & H6 & H7 & H8).
  exists s', r'. repeat (split; [done|]).
  rewrite H7, <- Hpg. lia.
Qed.

Lemma grown_page_is_big_and_linked_witness :
  exists s',
    aalloc_uninit_size 2 1000 20 1 (full_root_state true) = Ok 20032 s' /\
    trace s' = trace (full_root_state true) ++ [EvMalloc 536 20000] /\
    ring_wf (mem s') 1000 [20000].
Proof.
  destruct (grown_page_is_big_and_linked 0 1000 20 1 (full_root_state true)
              (arena_at 1000 (full_root_state true)) 20000 [] [])
    as (_ & _ & s' & r' & H1 & H2 & H3 & _).
  - lia.
  - vm_compute. reflexivity.
  - left. vm_compute. reflexivity.
  - vm_compute. intros H; discriminate H.
  - vm_compute. reflexivity.
  - vm_compute. reflexivity.
  - vm_compute. split; intros H; discriminate H.
  - split; [vm_compute; reflexivity|]. split; [|vm_compute; reflexivity].
    simpl. unfold_addr. repeat constructor. lia.
  - vm_compute. reflexivity.
  - lia.
  - unfold sep_block.
    constructor; [left; vm_compute; intros H; discriminate H|].
    constructor; [left; vm_compute; intros H; discriminate H|]. constructor.
  - exists s'. split; [exact H1|]. split; [exact H2|exact H3].
Defined.

(** ** Cancelling a cleanup *)

(** X8: [arena_ext_cancel] of an active slot whose finalizer, if it is to be
    run, is a finalizer of the caller: the call returns, has called that
    finalizer once when [run_defer] is set and nothing otherwise, has moved
    the slot to the front of the free list, and has left the other active
    slots in their order with their finalizers and user pointers.  It
    allocates and frees nothing. *)
Theorem arena_ext_cancel_moves_slot_to_free_list (fuel : nat) (arena slot : Z)
    (run_defer : bool) (s : state) (a : arenaimp_t) (l1 l2 fre : list Z)
    (ds : arenaimp_defer_slot) :
  arena <> 0 -> arenas s !! arena = Some a ->
  ndebug s = true \/ magic a = ARENAIMP_MAGIC_ARENA ->
  registry_wf a (l1 ++ slot :: l2) fre ->
  defer_tab a !! Z.to_nat slot = Some ds ->
  (run_defer = true -> exists id, fn ds = FnUser id) ->
  exists s' a',
    arena_ext_cancel fuel arena slot run_defer s = Ok tt s' /\
    arenas s' !! arena = Some a' /\
    registry_wf a' (l1 ++ l2) (slot :: fre) /\
    slot_calls (defer_tab a') (l1 ++ l2) = slot_calls (defer_tab a) (l1 ++ l2) /\
    trace s' = trace s
                 ++ (if run_defer then call_events [(fn ds, user ds)] else []) /\
    live s' = live s /\ oracle s' = oracle s.
Proof.
  intros Harena Ha Hm Hwf Hds Hrun.
  set (s1 := if run_defer
             then state_with_events (call_events [(fn ds, user ds)]) s else s).
  assert ((if run_defer
           then let* d := slot_read arena slot in call_fn fuel (fn d) (user d)
           else ret tt) s = Ok tt s1) as Hcall.
  { subst s1. destruct run_defer; [|reflexivity].
    destruct (Hrun eq_refl) as [id Hid].
    rewrite (bind_eq _ _ _ _ _ (slot_read_eq _ _ _ _ _ Ha Hds)).
    rewrite Hid. reflexivity. }
  assert (arenas s1 = arenas s) as Hars by (subst s1; by destruct run_defer).
  destruct (arena_ext_cancel_spec (call_fn fuel) arena slot run_defer s a s1 a
              l1 l2 fre Harena Ha Hm Hcall ltac:(by rewrite Hars) Hwf)
    as (a' & H1 & H2 & H3 & _).
  exists (state_with_arena arena a' s1), a'.
  split; [exact H1|]. split; [apply state_with_arena_lookup|].
  split; [exact H2|]. split; [exact H3|].
  subst s1. destruct run_defer; simpl; rewrite ?app_nil_r; done.
Qed.

Lemma defer1_state_registry :
  registry_wf (arena_at 1000 defer1_state) [0] [].
Proof.
  vm_compute. split; [reflexivity|]. split; [reflexivity|]. split; [|split].
  - split; [reflexivity|]. eexists.
    split; [reflexivity|]. split; reflexivity.
  - reflexivity.
  - reflexivity.
Defined.

Lemma arena_ext_cancel_moves_slot_to_free_list_witness :
  exists s' a',
    arena_ext_cancel 2 1000 0 true defer1_state = Ok tt s' /\
    arenas s' !! 1000 = Some a' /\
    registry_wf a' [] [0] /\
    trace s' = trace defer1_state ++ [EvCall 1 7].
Proof.
  assert (arenas defer1_state !! 1000 = Some (arena_at 1000 defer1_state)) as Hr
    by (vm_compute; reflexivity).
  assert (ndebug defer1_state = true \/
          magic (arena_at 1000 defer1_state) = ARENAIMP_MAGIC_ARENA) as Hm
    by (left; vm_compute; reflexivity).
  assert (defer_tab (arena_at 1000 defer1_state) !! Z.to_nat 0
          = Some (mk_slot (FnUser 1) 7 SIZE_MAX SIZE_MAX)) as Hds
    by (vm_compute; reflexivity).
  destruct (arena_ext_cancel_moves_slot_to_free_list 2 1000 0 true defer1_state
              (arena_at 1000 defer1_state) [] [] []
              (mk_slot (FnUser 1) 7 SIZE_MAX SIZE_MAX)
              ltac:(lia) Hr Hm defer1_state_registry Hds
              ltac:(intros _; by exists 1%nat))
    as (s' & a' & H1 & H2 & H3 & _ & H5 & _).
  exists s', a'. split; [exact H1|]. split; [exact H2|]. split; [exact H3|exact H5].
Defined.

(** ** Reuse of a cancelled slot *)

Lemma put_arena_eq arena r s :
  put_arena arena r s = Ok tt (state_with_arena arena r s).
Proof. reflexivity. Qed.

Lemma arena_ext_defer_reuse_runs fuel arena f u s a act fre slot :
  arena <> 0 -> arenas s !! arena = Some a ->
  ndebug s = true \/ magic a = ARENAIMP_MAGIC_ARENA ->
  ndebug s = true \/ is_fn_null f = false ->
  registry_wf a act (slot :: fre) ->
  exists s',
    arena_ext_defer fuel arena f u s = Ok slot s' /\
    trace s' = trace s /\ live s' = live s /\ mem s' = mem s /\
    oracle s' = oracle s /\ bytes s' = bytes s.
Proof.
  intros Harena Ha Hm Hf Hwf.
  pose proof Hwf as (Hlen & Hnum & Hact & Hfre & Hperm).
  simpl in Hfre. destruct Hfre as (Hfh & ds & Hds & Hfre).
  destruct (registry_index _ _ _ slot Hwf ltac:(elem)) as [Hslot Hne].
  assert ((Z.to_nat slot < length (defer_tab a))%nat) as Hlt by lia.
  unfold arena_ext_defer.
  rewrite (bind_eq _ _ _ tt s)
    by (apply assert_ok; right; unfold nonnull; by apply negb_true_iff, Z.eqb_neq).
  rewrite (bind_eq _ _ _ _ _ (get_arena_eq _ _ _ Ha)).
  rewrite (bind_eq _ _ _ tt s)
    by (apply assert_ok; destruct Hm as [? | ->]; [by left|right; apply Z.eqb_refl]).
  rewrite (bind_eq _ _ _ tt s)
    by (apply assert_ok; destruct Hf as [? | ->]; [by left|by right]).
  rewrite Hfh. replace (slot =? SIZE_MAX) with false by (symmetry; by apply Z.eqb_neq).
  cbn [negb].
  rewrite (bind_eq _ _ _ (Some slot)
             (state_with_arena arena (with_heads (active_defer_head a) (next ds) a) s)).
  2:{ rewrite (bind_eq _ _ _ _ _ (slot_read_eq _ _ _ _ _ Ha Hds)).
      rewrite (bind_eq _ _ _ _ _ (put_arena_eq _ _ _)). reflexivity. }
  set (a1 := with_heads (active_defer_head a) (next ds) a).
  assert (forall x, arenas (state_with_arena arena x s) !! arena = Some x) as Hlk
    by (intros x; apply state_with_arena_lookup).
  rewrite (bind_eq _ _ _ _ _ (get_arena_eq _ _ _ (Hlk a1))).
  change (active_defer_head a1) with (active_defer_head a).
  rewrite (bind_eq _ _ _ _ _
             (slot_write_eq arena slot _ a1 _ (Hlk a1) Hlt)).
  rewrite state_with_arena_twice.
  set (a2 := with_defer_tab _ a1).
  assert (length (defer_tab a2) = length (defer_tab a)) as Hlen2
    by (subst a2 a1; proj_arena; apply length_insert).
  destruct (active_defer_head a =? SIZE_MAX) eqn:Eh; cbn [negb].
  - rewrite (bind_eq _ _ _ tt _ eq_refl).
    rewrite (bind_eq _ _ _ _ _ (upd_arena_eq _ _ _ _ (Hlk a2))).
    eexists. split; [reflexivity|]. done.
  - apply Z.eqb_neq in Eh.
    assert ((Z.to_nat (active_defer_head a) < length (defer_tab a2))%nat) as Hh.
    { rewrite Hlen2.
      destruct act as [|i act']; simpl in Hact; [done|].
      destruct Hact as (Hi & _). rewrite Hi.
      destruct (registry_index _ _ _ i Hwf ltac:(elem)) as [? _]. lia. }
    rewrite (bind_eq _ _ _ _ _
               (slot_patch_eq arena (active_defer_head a) (set_prev slot) _ a2
                  (Hlk a2) Hh)).
    rewrite state_with_arena_twice.
    rewrite (bind_eq _ _ _ _ _ (upd_arena_eq _ _ _ _ (Hlk _))).
    eexists. split; [reflexivity|]. done.
Qed.

(** X9: A slot on the free list is what the next registration takes: when the
    free list is not empty, [arena_ext_defer] returns its first slot, which
    is the slot cancelled last, puts it in front of the active list with the
    new finalizer and user pointer, and neither grows the table nor
    allocates. *)
Theorem arena_ext_defer_reuses_free_slot (fuel : nat) (arena : Z) (f : defer_fn)
    (u : Z) (s : state) (a : arenaimp_t) (act fre : list Z) (slot : Z) :
  arena <> 0 -> arenas s !! arena = Some a ->
  ndebug s = true \/ magic a = ARENAIMP_MAGIC_ARENA ->
  ndebug s = true \/ is_fn_null f = false ->
  registry_wf a act (slot :: fre) ->
  num_defers a + 1 < SIZE_MAX ->
  exists s' a',
    arena_ext_defer fuel arena f u s = Ok slot s' /\
    arenas s' !! arena = Some a' /\
    registry_wf a' (slot :: act) fre /\
    slot_calls (defer_tab a') (slot :: act)
      = (f, u) :: slot_calls (defer_tab a) act /\
    num_defers a' = num_defers a /\
    trace s' = trace s /\ live s' = live s.
Proof.
  intros Harena Ha Hm Hf Hwf Hroom.
  destruct (arena_ext_defer_reuse_runs fuel arena f u s a act fre slot
              Harena Ha Hm Hf Hwf) as (s' & Hrun & Ht & Hl & _).
  destruct (registry_index _ _ _ slot Hwf ltac:(elem)) as [Hslot Hne].
  destruct (arena_ext_defer_spec _ _ _ _ _ _ _ _ _ _ Ha Hwf Hroom Hrun)
    as (a' & Ha' & _ & [(Hv & _) | (_ & _ & Hwf' & Hcalls)]); [done|].
  exists s', a'. repeat (split; [done|]).
  split; [|done].
  rewrite (registry_count _ _ _ Hwf'), (registry_count _ _ _ Hwf).
  simpl. lia.
Qed.

Lemma cancelled_state_registry :
  registry_wf (arena_at 1000 cancelled_state) [] [0].
Proof.
  vm_compute. split; [reflexivity|]. split; [reflexivity|]. split; [|split].
  - reflexivity.
  - split; [reflexivity|]. eexists. split; reflexivity.
  - reflexivity.
Defined.

Lemma arena_ext_defer_reuses_free_slot_witness :
  exists s' a',
    arena_ext_defer 2 1000 (FnUser 5) 55 cancelled_state = Ok 0 s' /\
    arenas s' !! 1000 = Some a' /\
    registry_wf a' [0] [] /\
    slot_calls (defer_tab a') [0] = [(FnUser 5, 55)] /\
    trace s' = trace cancelled_state.
Proof.
  assert (arenas cancelled_state !! 1000 = Some (arena_at 1000 cancelled_state))
    as Hr by (vm_compute; reflexivity).
  assert (ndebug cancelled_state = true \/
          magic (arena_at 1000 cancelled_state) = ARENAIMP_MAGIC_ARENA) as Hm
    by (left; vm_compute; reflexivity).
  assert (ndebug cancelled_state = true \/ is_fn_null (FnUser 5) = false) as Hf
    by (right; reflexivity).
  assert (num_defers (arena_at 1000 cancelled_state) + 1 < SIZE_MAX) as Hroom
    by (vm_compute; reflexivity).
  destruct (arena_ext_defer_reuses_free_slot 2 1000 (FnUser 5) 55 cancelled_state
              (arena_at 1000 cancelled_state) [] [] 0
              ltac:(lia) Hr Hm Hf cancelled_state_registry Hroom)
    as (s' & a' & H1 & H2 & H3 & H4 & _ & H6 & _).
  exists s', a'. split; [exact H1|]. split; [exact H2|]. split; [exact H3|].
  split; [exact H4|exact H6].
Defined.

(** ** A fresh arena *)

Lemma new_arena_registry r alloc : registry_wf (new_arena r alloc) [] [].
Proof. unfold registry_wf. simpl. repeat split; try done. Qed.

Lemma new_arena_ring m a :
  m !! big_next (big_head a) = Some (big_tail a) ->
  m !! big_next (big_tail a) = Some (big_head a) ->
  ring_wf m a [].
Proof.
  intros H1 H2. split; [done|]. split; [|done].
  simpl. unfold_addr. repeat constructor. lia.
Qed.

Lemma seq3_eq {A} (m1 m2 m3 : M unit) (k : M A) s s' :
  (m1;; m2;; m3) s = Ok tt s' -> (m1;; m2;; m3;; k) s = k s'.
Proof.
  unfold bind. destruct (m1 s) as [[] s1| | |]; try discriminate.
  destruct (m2 s1) as [[] s2| | |]; try discriminate.
  destruct (m3 s2) as [[] s3| | |]; try discriminate.
  by intros [= ->].
Qed.

Lemma fresh_arena_eq a alloc s :
  exists m',
    (arena_memset0 a;; upd_arena a (with_allocated alloc);; arenaimp_init a) s
      = Ok tt (mk_state (<[a := new_arena a alloc]> (arenas s)) m' (bytes s)
                 (live s) (oracle s) (trace s) (ndebug s)) /\
    ring_wf m' a [].
Proof.
  unfold arena_memset0, arenaimp_init, upd_arena, bind, get_arena, put_arena, store.
  simpl. repeat (rewrite lookup_insert_eq; simpl).
  eexists. split.
  - rewrite !insert_insert_eq. reflexivity.
  - apply new_arena_ring; look; reflexivity.
Qed.

Lemma arena_create_root fuel s r rest :
  oracle s = r :: rest -> r <> 0 ->
  exists s1,
    arena_create fuel 0 s = Ok r s1 /\
    arenas s1 = <[r := new_arena r true]> (arenas s) /\
    trace s1 = trace s ++ [EvMalloc (wrap (sizeof_ptr + ARENAIMP_EXTRA_SIZE)) r] /\
    live s1 = {[ r ]} ∪ live s /\
    ring_wf (mem s1) r [] /\
    oracle s1 = rest /\ ndebug s1 = ndebug s /\ bytes s1 = bytes s.
Proof.
  intros Ho Hr.
  unfold arena_create. cbn [nonnull Z.eqb negb].
  unfold bind at 1. unfold malloc. rewrite Ho. cbn beta iota.
  replace (r =? 0) with false by (symmetry; by apply Z.eqb_neq).
  match goal with |- context [(arena_memset0 r;; ?k) ?s0] =>
    destruct (fresh_arena_eq r true s0) as (m' & Hrun & Hring)
  end.
  rewrite (seq3_eq _ _ _ _ _ _ Hrun).
  eexists. split; [reflexivity|]. proj_state. simpl. done.
Qed.

Lemma arena_init_root fuel s a :
  exists s1,
    arena_init fuel a 0 s = Ok true s1 /\
    arenas s1 = <[a := new_arena a false]> (arenas s) /\
    trace s1 = trace s /\ live s1 = live s /\
    ring_wf (mem s1) a [] /\
    oracle s1 = oracle s /\ ndebug s1 = ndebug s /\ bytes s1 = bytes s.
Proof.
  destruct (fresh_arena_eq a false s) as (m' & Hrun & Hring).
  unfold arena_init. cbn [nonnull Z.eqb negb].
  change (arena_memset0 a;; let* failed := ret false in
          if failed : bool then ret false
          else upd_arena a (with_allocated false);; arenaimp_init a;; ret true)
    with (arena_memset0 a;; upd_arena a (with_allocated false);;
          arenaimp_init a;; ret true).
  rewrite (seq3_eq _ _ _ _ _ _ Hrun).
  eexists. split; [reflexivity|]. proj_state. done.
Qed.

Lemma table_get_replicate n k : table_get (replicate n 0) k = 0.
Proof.
  unfold table_get. destruct (replicate n 0 !! Z.to_nat k) as [x|] eqn:E; [|done].
  apply lookup_replicate in E as [-> _]. done.
Qed.

Lemma chunk_of_le_272 ts :
  0 <= ts <= 272 -> chunk_of (sizeclass_of ts) <= 272.
Proof.
  intros Hts.
  destruct (quantize_small ts) as [Eq Hq];
    [unfold ARENAIMP_LARGEST_SIZECLASS; lia|].
  pose proof (class_ok_all (quantize ts) ltac:(lia)) as Hc.
  unfold class_ok_at in Hc. fold (sizeclass_of ts) in Hc.
  apply andb_prop in Hc as [_ Hmin].
  rewrite forallb_forall in Hmin.
  specialize (Hmin 8 ltac:(vm_compute; tauto)).
  change (chunk_of 8) with 272 in Hmin.
  assert (8 * quantize ts <= 272) as Hq8.
  { rewrite Eq.
    pose proof (Z.div_mod (ts + 7) 8 ltac:(lia)).
    pose proof (Z.mod_pos_bound (ts + 7) 8 ltac:(lia)). lia. }
  apply Z.leb_le in Hq8. rewrite Hq8 in Hmin. simpl in Hmin.
  by apply Z.leb_le.
Qed.

(** X10: The first page of a root arena is longer than the block it lies in:
    [arena_create(NULL)] asks malloc for [sizeof(a) + ARENAIMP_EXTRA_SIZE],
    296 bytes ([a] is the pointer), while [arenaimp_init] lays a first page
    of 512 bytes over the arena's own address with the cursor at 224.  A
    first request of more than 64 and at most 264 bytes is served from that
    page without any call of malloc, and its payload ends past the 296 bytes
    malloc was asked for. *)
Theorem root_first_page_exceeds_malloc_block (fuel : nat) (sz cnt : Z)
    (s : state) (r : Z) (rest : list Z) :
  oracle s = r :: rest -> r <> 0 ->
  64 < wrap (sz * cnt) <= 264 ->
  exists s1 s2,
    arena_create fuel 0 s = Ok r s1 /\
    aalloc_uninit_size (S fuel) r sz cnt s1 = Ok (r + 232) s2 /\
    trace s2 = trace s ++ [EvMalloc 296 r] /\
    r + 296 < r + 232 + wrap (sz * cnt).
Proof.
  intros Ho Hr Htot.
  destruct (arena_create_root fuel s r rest Ho Hr)
    as (s1 & H1 & Har & Ht & _ & _ & _ & Hnd & _).
  assert (arenas s1 !! r = Some (new_arena r true)) as Hlk
    by (rewrite Har; apply lookup_insert_eq).
  destruct (aalloc_uninit_size_bump fuel r sz cnt s1 (new_arena r true) Hr Hlk)
    as (s2 & H2 & _ & _ & _ & Ht2 & _).
  - right. reflexivity.
  - unfold ARENAIMP_LARGEST_SIZECLASS, sizeof_small_header. lia.
  - apply table_get_replicate.
  - unfold page_ok, new_arena, sizeof_arenaimp_t, ARENAIMP_INIT_SIZE. simpl. lia.
  - unfold new_arena, sizeof_arenaimp_t, ARENAIMP_INIT_SIZE, sizeof_small_header.
    simpl.
    pose proof (chunk_of_le_272 (8 + wrap (sz * cnt)) ltac:(lia)). lia.
  - exists s1, s2. split; [exact H1|]. split.
    + rewrite H2. unfold new_arena, sizeof_arenaimp_t, sizeof_small_header. simpl.
      f_equal. lia.
    + split; [|lia]. rewrite Ht2, Ht. reflexivity.
Qed.

Lemma root_first_page_exceeds_malloc_block_witness :
  exists s1 s2,
    arena_create 1 0 (init_state [1000] false) = Ok 1000 s1 /\
    aalloc_uninit_size 2 1000 100 1 s1 = Ok 1232 s2 /\
    trace s2 = [EvMalloc 296 1000].
Proof.
  destruct (root_first_page_exceeds_malloc_block 1 100 1 (init_state [1000] false)
              1000 [] eq_refl ltac:(lia) ltac:(vm_compute; split; [reflexivity|intros H; discriminate H]))
    as (s1 & s2 & H1 & H2 & H3 & _).
  exists s1, s2. split; [exact H1|]. split; [exact H2|exact H3].
Defined.

(** X11: Creation and teardown pair up: for a root arena, [arena_create(NULL)]
    followed by [arena_free] calls malloc once and frees the very block
    malloc returned, so that the live blocks are what they were; when malloc
    fails the result is NULL and no arena is set up; an arena that
    [arena_init] has set up in storage of the caller is torn down without any
    call of malloc or free. *)
Theorem fresh_arena_teardown_round_trip (fuel : nat) (s : state) :
  (forall r rest,
     oracle s = r :: rest -> r <> 0 -> r ∉ live s ->
     exists s1 s2,
       arena_create fuel 0 s = Ok r s1 /\
       arena_free (S fuel) r s1 = Ok tt s2 /\
       trace s2 = trace s ++ [EvMalloc 296 r; EvDestroy r; EvFree r] /\
       live s2 = live s) /\
  (hd 0 (oracle s) = 0 ->
   exists s1,
     arena_create fuel 0 s = Ok 0 s1 /\
     arenas s1 = arenas s /\ mem s1 = mem s /\ live s1 = live s) /\
  (forall a, a <> 0 ->
     exists s1 s2,
       arena_init fuel a 0 s = Ok true s1 /\
       arena_free (S fuel) a s1 = Ok tt s2 /\
       trace s2 = trace s ++ [EvDestroy a] /\
       live s2 = live s).
Proof.
  split; [|split].
  - intros r rest Ho Hr Hfresh.
    destruct (arena_create_root fuel s r rest Ho Hr)
      as (s1 & H1 & Har & Ht & Hl & Hring & _ & Hnd & _).
    assert (arenas s1 !! r = Some (new_arena r true)) as Hlk
      by (rewrite Har; apply lookup_insert_eq).
    destruct (arena_free_plain fuel r s1 (new_arena r true) [] [] [] Hr Hlk)
      as (s2 & H2 & Ht2 & Hl2).
    + right. reflexivity.
    + apply new_arena_registry.
    + constructor.
    + exact Hring.
    + intros n Hn. apply elem_of_nil in Hn. destruct Hn.
    + simpl. lia.
    + simpl. lia.
    + intros _. split; [reflexivity|]. split; [|apply not_elem_of_nil].
      rewrite Hl. apply elem_of_union_l, elem_of_singleton. reflexivity.
    + exists s1, s2. split; [exact H1|]. split; [exact H2|]. split.
      * rewrite Ht2, Ht. simpl. rewrite <- app_assoc. reflexivity.
      * rewrite Hl2, Hl. simpl. apply set_eq. intros x.
        rewrite !elem_of_difference, elem_of_union, elem_of_singleton, elem_of_empty.
        split; [intros [[[?|?] _] ?]; done|].
        intros Hx. repeat split; [by right|tauto|]. intros ->. done.
  - intros Ho. unfold arena_create. cbn [nonnull Z.eqb negb].
    unfold bind, malloc.
    assert (match oracle s with [] => 0 | r :: _ => r end = 0) as ->
      by (destruct (oracle s); done).
    cbn [Z.eqb]. eexists. split; [reflexivity|]. done.
  - intros a Ha.
    destruct (arena_init_root fuel s a)
      as (s1 & H1 & Har & Ht & Hl & Hring & _ & Hnd & _).
    assert (arenas s1 !! a = Some (new_arena a false)) as Hlk
      by (rewrite Har; apply lookup_insert_eq).
    destruct (arena_free_plain fuel a s1 (new_arena a false) [] [] [] Ha Hlk)
      as (s2 & H2 & Ht2 & Hl2).
    + right. reflexivity.
    + apply new_arena_registry.
    + constructor.
    + exact Hring.
    + intros n Hn. apply elem_of_nil in Hn. destruct Hn.
    + simpl. lia.
    + simpl. lia.
    + intros Hal. discriminate Hal.
    + exists s1, s2. split; [exact H1|]. split; [exact H2|]. split.
      * rewrite Ht2, Ht. simpl. reflexivity.
      * rewrite Hl2, Hl. simpl. apply set_eq. intros x.
        rewrite !elem_of_difference, elem_of_empty. tauto.
Qed.

Lemma fresh_arena_teardown_round_trip_witness :
  exists s1 s2,
    arena_create 1 0 (init_state [1000] false) = Ok 1000 s1 /\
    arena_free 2 1000 s1 = Ok tt s2 /\
    trace s2 = [EvMalloc 296 1000; EvDestroy 1000; EvFree 1000] /\
    live s2 = ∅.
Proof.
  destruct (fresh_arena_teardown_round_trip 1 (init_state [1000] false))
    as (Hcreate & _ & _).
  destruct (Hcreate 1000 [] eq_refl ltac:(lia) ltac:(apply not_elem_of_empty))
    as (s1 & s2 & H1 & H2 & H3 & H4).
  exists s1, s2. split; [exact H1|]. split; [exact H2|]. split; [exact H3|exact H4].
Defined.

(** ** Lists: push and pop *)

Lemma wrap_small z : 0 <= z < 2 ^ 64 -> wrap z = z.
Proof. intros H. unfold wrap. by apply Z.mod_small. Qed.

Lemma arenaimp_copy_run dst src n s :
  0 < n -> dst <> 0 ->
  exists s',
    arenaimp_copy dst src n s = Ok tt s' /\
    (forall k, 0 <= k < n ->
       bytes s' (dst + k) = if src =? 0 then 0 else bytes s (src + k)) /\
    (forall x, ~ (dst <= x < dst + n) -> bytes s' x = bytes s x) /\
    mem s' = mem s /\ arenas s' = arenas s /\ trace s' = trace s /\
    live s' = live s /\ oracle s' = oracle s /\ ndebug s' = ndebug s.
Proof.
  intros Hn Hd. unfold arenaimp_copy, memcpy, memset0, set_bytes.
  replace (n =? 0) with false by lia. replace (dst =? 0) with false by lia.
  destruct (src =? 0) eqn:Es; cbn [negb orb]; eexists; (split; [reflexivity|]);
    proj_state; repeat split; try reflexivity.
  - intros k Hk. unfold memset_bytes.
    replace ((dst <=? dst + k) && (dst + k <? dst + n)) with true by lia. done.
  - intros x Hx. unfold memset_bytes.
    replace ((dst <=? x) && (x <? dst + n)) with false by lia. done.
  - intros k Hk. unfold memcpy_bytes.
    replace ((dst <=? dst + k) && (dst + k <? dst + n)) with true by lia.
    f_equal. lia.
  - intros x Hx. unfold memcpy_bytes.
    replace ((dst <=? x) && (x <? dst + n)) with false by lia. done.
Qed.

(** X12: Pushing onto a list whose block has room for one more element: the
    block stays where it is and nothing is allocated; the new element, at
    position [count], is a copy of the item (zeroes when the item pointer is
    NULL), no other byte changes, and the count grows by one.  Popping right
    after gives back the address of that element and the count from before
    the push. *)
Theorem alist_push_size_in_place_then_pop (fuel : nat) (arena sz : Z)
    (l : arenaimp_alist) (item : Z) (s : state) (c : Z) :
  let dst := data l + count l * sz in
  0 < sz -> 0 < data l -> 0 <= count l ->
  mem s !! (data l - sizeof_common_header) = Some c ->
  (count l + 1) * sz <= c -> c < 2 ^ 64 ->
  exists s',
    alist_push_size fuel arena sz l item s
      = Ok (dst, mk_alist (data l) (count l + 1)) s' /\
    (forall k, 0 <= k < sz ->
       bytes s' (dst + k) = if item =? 0 then 0 else bytes s (item + k)) /\
    (forall x, ~ (dst <= x < dst + sz) -> bytes s' x = bytes s x) /\
    trace s' = trace s /\
    alist_pop_size sz (mk_alist (data l) (count l + 1)) s'
      = Ok (dst, mk_alist (data l) (count l)) s'.
Proof.
  intros dst Hsz Hd Hcnt Hc Hroom Hcap.
  assert (count l * sz < 2 ^ 64) as Hb1 by nia.
  assert (count l + 1 < 2 ^ 64) as Hb2 by nia.
  assert (0 <= count l * sz) as Hb3 by nia.
  destruct (arenaimp_copy_run dst item sz s Hsz ltac:(subst dst; lia))
    as (s' & Hcopy & Hnew & Hold & Hmem & _ & Htr & _ & _ & Hnd).
  exists s'. split; [|repeat split; try assumption].
  - assert (arealloc_size fuel arena sz (count l + 1) (data l) s = Ok (data l) s)
      as Hre.
    { unfold arealloc_size. replace (data l =? 0) with false by lia.
      rewrite (bind_eq _ _ _ _ _ (load_eq _ _ _ Hc)).
      rewrite (wrap_small (sz * (count l + 1))) by nia.
      replace (sz * (count l + 1) <=? c) with true by lia. reflexivity. }
    unfold alist_push_size.
    rewrite (wrap_small (count l + 1)) by lia.
    rewrite (bind_eq _ _ _ _ _ Hre).
    replace (data l =? 0) with false by lia.
    rewrite (wrap_small (count l * sz)) by lia.
    fold dst. rewrite (bind_eq _ _ _ _ _ Hcopy). reflexivity.
  - unfold alist_pop_size. cbn [count data].
    rewrite (bind_eq _ _ _ tt s')
      by (apply assert_ok; right; apply Z.ltb_lt; lia).
    replace (count l + 1 =? 0) with false by lia.
    replace (count l + 1 - 1) with (count l) by lia.
    rewrite (wrap_small (count l)) by lia.
    rewrite (wrap_small (count l * sz)) by lia. reflexivity.
Qed.

Lemma alist_push_size_in_place_then_pop_witness :
  exists s',
    alist_push_size 1 1000 4 (mk_alist 1232 9) 5000 forty_state
      = Ok (1268, mk_alist 1232 10) s' /\
    alist_pop_size 4 (mk_alist 1232 10) s' = Ok (1268, mk_alist 1232 9) s'.
Proof.
  assert (mem forty_state !! (data (mk_alist 1232 9) - sizeof_common_header)
          = Some 40) as Hc by (vm_compute; reflexivity).
  destruct (alist_push_size_in_place_then_pop 1 1000 4 (mk_alist 1232 9) 5000
              forty_state 40 ltac:(lia) ltac:(simpl; lia) ltac:(simpl; lia) Hc
              ltac:(simpl; lia) ltac:(lia))
    as (s' & H1 & _ & _ & _ & H2).
  exists s'. split; [exact H1|exact H2].
Defined.

(** X13: [alist_push_n_size] in place: the count grows by [n], but one element
    only is written, the one at the old [count], whatever [n] is; the other
    [n - 1] new elements hold what the block held before.  With [n = 0] the
    count stays and the element at position [count], one past the list, is
    overwritten all the same.  [alist_pop_n_size] of the same [n] gives back
    the address of that element and the old count. *)
Theorem alist_push_n_size_writes_one_element (fuel : nat) (arena sz : Z)
    (l : arenaimp_alist) (n item : Z) (s : state) (c : Z) :
  let dst := data l + count l * sz in
  0 < sz -> 0 < data l -> 0 <= count l -> 0 <= n ->
  mem s !! (data l - sizeof_common_header) = Some c ->
  (count l + n) * sz <= c -> c < 2 ^ 64 ->
  exists s',
    alist_push_n_size fuel arena sz l n item s
      = Ok (dst, mk_alist (data l) (count l + n)) s' /\
    (forall k, 0 <= k < sz ->
       bytes s' (dst + k) = if item =? 0 then 0 else bytes s (item + k)) /\
    (forall x, ~ (dst <= x < dst + sz) -> bytes s' x = bytes s x) /\
    trace s' = trace s /\
    alist_pop_n_size sz (mk_alist (data l) (count l + n)) n s'
      = Ok (dst, mk_alist (data l) (count l)) s'.
Proof.
  intros dst Hsz Hd Hcnt Hn Hc Hroom Hcap.
  assert (count l * sz < 2 ^ 64) as Hb1 by nia.
  assert (count l + n < 2 ^ 64) as Hb2 by nia.
  assert (0 <= count l * sz) as Hb3 by nia.
  destruct (arenaimp_copy_run dst item sz s Hsz ltac:(subst dst; lia))
    as (s' & Hcopy & Hnew & Hold & Hmem & _ & Htr & _ & _ & Hnd).
  exists s'. split; [|repeat split; try assumption].
  - assert (arealloc_size fuel arena sz (count l + n) (data l) s = Ok (data l) s)
      as Hre.
    { unfold arealloc_size. replace (data l =? 0) with false by lia.
      rewrite (bind_eq _ _ _ _ _ (load_eq _ _ _ Hc)).
      rewrite (wrap_small (sz * (count l + n))) by nia.
      replace (sz * (count l + n) <=? c) with true by lia. reflexivity. }
    unfold alist_push_n_size.
    rewrite (wrap_small (count l + n)) by lia.
    rewrite (bind_eq _ _ _ _ _ Hre).
    replace (data l =? 0) with false by lia.
    rewrite (wrap_small (count l * sz)) by lia.
    fold dst. rewrite (bind_eq _ _ _ _ _ Hcopy). reflexivity.
  - unfold alist_pop_n_size. cbn [count data].
    rewrite (bind_eq _ _ _ tt s')
      by (apply assert_ok; right; apply Z.leb_le; lia).
    replace (count l + n <? n) with false by lia.
    replace (count l + n - n) with (count l) by lia.
    rewrite (wrap_small (count l)) by lia.
    rewrite (wrap_small (count l * sz)) by lia. reflexivity.
Qed.

Lemma alist_push_n_size_writes_one_element_witness :
  exists s',
    alist_push_n_size 1 1000 4 (mk_alist 1232 7) 3 5000 forty_state
      = Ok (1260, mk_alist 1232 10) s' /\
    (forall x, ~ (1260 <= x < 1264) -> bytes s' x = bytes forty_state x) /\
    alist_pop_n_size 4 (mk_alist 1232 10) 3 s' = Ok (1260, mk_alist 1232 7) s'.
Proof.
  assert (mem forty_state !! (data (mk_alist 1232 7) - sizeof_common_header)
          = Some 40) as Hc by (vm_compute; reflexivity).
  destruct (alist_push_n_size_writes_one_element 1 1000 4 (mk_alist 1232 7) 3 5000
              forty_state 40 ltac:(lia) ltac:(simpl; lia) ltac:(simpl; lia)
              ltac:(lia) Hc ltac:(simpl; lia) ltac:(lia))
    as (s' & H1 & _ & H3 & _ & H5).
  exists s'. split; [exact H1|]. split; [exact H3|exact H5].
Defined.

(** X14: The edges of the list operations.  Pushing zero elements onto an empty
    list returns NULL, as a failed allocation would, without touching
    anything.  With assert() compiled out, popping from an empty list,
    popping more elements than there are, and removing at an index that is
    not below the count return NULL or false and leave the list as it is;
    with assert() on each of them aborts. *)
Theorem alist_edge_cases (fuel : nat) (arena sz : Z) (l : arenaimp_alist)
    (item n index : Z) (s : state) :
  alist_push_n_size fuel arena sz (mk_alist 0 0) 0 item s
    = Ok (0, mk_alist 0 0) s /\
  (count l = 0 ->
   alist_pop_size sz l s = if ndebug s then Ok (0, l) s else AssertFail) /\
  (count l < n ->
   alist_pop_n_size sz l n s = if ndebug s then Ok (0, l) s else AssertFail) /\
  (count l <= index ->
   alist_remove_size sz l index s
     = if ndebug s then Ok (false, l) s else AssertFail).
Proof.
  split; [reflexivity|]. split; [|split].
  - intros Hc. unfold alist_pop_size, bind, assert_. rewrite Hc. simpl.
    by destruct (ndebug s).
  - intros Hc. unfold alist_pop_n_size, bind, assert_.
    replace (n <=? count l) with false by lia.
    replace (count l <? n) with true by lia.
    by destruct (ndebug s).
  - intros Hc. unfold alist_remove_size, bind, assert_.
    replace (index <? count l) with false by lia.
    replace (count l <=? index) with true by lia.
    by destruct (ndebug s).
Qed.

(** X15: Removal keeps the survivors: for an index below the count,
    [alist_remove_size] returns true with the count lowered by one, and every
    element at a position below the new count holds what it held before (the
    copy goes into the old last position, which is no longer part of the
    list). *)
Theorem alist_remove_size_keeps_survivors (sz : Z) (l : arenaimp_alist)
    (index : Z) (s : state) :
  0 < sz -> 0 < data l -> 0 <= index < count l ->
  count l * sz < 2 ^ 64 ->
  exists s',
    alist_remove_size sz l index s
      = Ok (true, mk_alist (data l) (count l - 1)) s' /\
    (forall j, 0 <= j < count l - 1 ->
       alist_elem (bytes s') sz l j = alist_elem (bytes s) sz l j) /\
    trace s' = trace s.
Proof.
  intros Hsz Hd Hi Hov.
  assert (count l < 2 ^ 64) by nia.
  assert (wrap (count l - 1) = count l - 1) as Hw1 by (apply wrap_small; lia).
  assert (wrap (index * sz) = index * sz) as Hw2 by (apply wrap_small; nia).
  assert (wrap ((count l - 1) * sz) = (count l - 1) * sz) as Hw3
    by (apply wrap_small; nia).
  assert (assert_ (index <? count l) s = Ok tt s) as Hassert
    by (apply assert_ok; right; lia).
  unfold alist_remove_size.
  rewrite (bind_eq _ _ _ _ _ Hassert).
  replace (count l <=? index) with false by lia.
  rewrite Hw1, Hw2, Hw3.
  destruct (index =? count l - 1) eqn:Elast; cbn [negb].
  - exists s. split; [reflexivity|]. done.
  - unfold memcpy. replace (sz =? 0) with false by lia.
    replace (data l + (count l - 1) * sz =? 0) with false by nia.
    replace (data l + index * sz =? 0) with false by nia.
    cbn [orb]. unfold bind, set_bytes, ret.
    eexists. split; [reflexivity|]. proj_state. split; [|done].
    intros j Hj. apply alist_elem_ext. intros k Hk. unfold memcpy_bytes.
    replace (data l + (count l - 1) * sz <=? data l + j * sz + k)
      with false by nia.
    reflexivity.
Qed.

Lemma alist_remove_size_keeps_survivors_witness :
  exists s',
    alist_remove_size 4 alist3 0 (alist3_state false) = Ok (true, mk_alist 100 2) s' /\
    alist_elem (bytes s') 4 alist3 0 = [100; 101; 102; 103] /\
    alist_elem (bytes s') 4 alist3 1 = [104; 105; 106; 107].
Proof.
  destruct (alist_remove_size_keeps_survivors 4 alist3 0 (alist3_state false)
              ltac:(lia) ltac:(simpl; lia) ltac:(simpl; lia) ltac:(simpl; lia))
    as (s' & H1 & H2 & _).
  exists s'. split; [exact H1|]. split.
  - rewrite (H2 0 ltac:(simpl; lia)). reflexivity.
  - rewrite (H2 1 ltac:(simpl; lia)). reflexivity.
Defined.

(** ** Replacing a finalizer *)

Lemma active_chain_links t t' prv cur l :
  (forall i ds, t !! i = Some ds ->
     exists ds', t' !! i = Some ds' /\ prev ds' = prev ds /\ next ds' = next ds) ->
  active_chain t prv cur l -> active_chain t' prv cur l.
Proof.
  intros Hl. revert prv cur.
  induction l as [|i l IH]; intros prv cur; simpl; [done|].
  intros (-> & ds & Hds & Hp & Hc).
  destruct (Hl _ _ Hds) as (ds' & Hds' & Hp' & Hn').
  split; [done|]. exists ds'. split; [done|]. split; [congruence|].
  rewrite Hn'. by apply IH.
Qed.

Lemma free_chain_links t t' cur l :
  (forall i ds, t !! i = Some ds ->
     exists ds', t' !! i = Some ds' /\ prev ds' = prev ds /\ next ds' = next ds) ->
  free_chain t cur l -> free_chain t' cur l.
Proof.
  intros Hl. revert cur.
  induction l as [|i l IH]; intros cur; simpl; [done|].
  intros (-> & ds & Hds & Hc).
  destruct (Hl _ _ Hds) as (ds' & Hds' & _ & Hn').
  split; [done|]. exists ds'. split; [done|].
  rewrite Hn'. by apply IH.
Qed.

(** X16: [arena_ext_redefer] on a slot of the table stores the new finalizer and
    user pointer in it and changes nothing else: both lists are as they
    were, the slot keeps its place in its list, and every other slot keeps
    its finalizer. *)
Theorem arena_ext_redefer_replaces_finalizer (arena slot : Z) (f : defer_fn)
    (u : Z) (s : state) (a : arenaimp_t) (act fre : list Z) :
  arena <> 0 -> arenas s !! arena = Some a ->
  ndebug s = true \/ magic a = ARENAIMP_MAGIC_ARENA ->
  registry_wf a act fre -> 0 <= slot < num_defers a ->
  exists s' a',
    arena_ext_redefer arena slot f u s = Ok tt s' /\
    arenas s' !! arena = Some a' /\
    registry_wf a' act fre /\
    slot_calls (defer_tab a') [slot] = [(f, u)] /\
    (forall i, 0 <= i -> i <> slot ->
       slot_calls (defer_tab a') [i] = slot_calls (defer_tab a) [i]) /\
    trace s' = trace s /\ live s' = live s.
Proof.
  intros Harena Ha Hm Hwf Hslot.
  pose proof Hwf as (Hlen & Hnum & Hact & Hfre & Hperm).
  assert ((Z.to_nat slot < length (defer_tab a))%nat) as Hlt by lia.
  destruct (lookup_lt_is_Some_2 _ _ Hlt) as [ds Hds].
  set (t' := <[Z.to_nat slot := mk_slot f u (prev ds) (next ds)]> (defer_tab a)).
  exists (state_with_arena arena (with_defer_tab t' a) s), (with_defer_tab t' a).
  split; [|split; [apply state_with_arena_lookup|split; [|split; [|split]]]].
  - unfold arena_ext_redefer.
    rewrite (bind_eq _ _ _ tt s)
      by (apply assert_ok; right; unfold nonnull; by apply negb_true_iff, Z.eqb_neq).
    rewrite (bind_eq _ _ _ _ _ (get_arena_eq _ _ _ Ha)).
    rewrite (bind_eq _ _ _ tt s)
      by (apply assert_ok; destruct Hm as [? | ->]; [by left|right; apply Z.eqb_refl]).
    rewrite (bind_eq _ _ _ _ _ (slot_read_eq _ _ _ _ _ Ha Hds)).
    by rewrite (slot_write_eq _ _ _ _ _ Ha Hlt).
  - assert (forall i d, defer_tab a !! i = Some d ->
              exists d', t' !! i = Some d' /\ prev d' = prev d /\ next d' = next d)
      as Hlinks.
    { intros i d Hd. subst t'. destruct (decide (i = Z.to_nat slot)) as [->|Hne].
      - rewrite list_lookup_insert_eq by done.
        eexists. split; [done|]. assert (d = ds) as -> by congruence. done.
      - rewrite list_lookup_insert_ne by done. by exists d. }
    unfold registry_wf. proj_arena. subst t'. rewrite length_insert.
    repeat split; try done.
    + by apply (active_chain_links (defer_tab a)).
    + by apply (free_chain_links (defer_tab a)).
  - unfold slot_calls. proj_arena. subst t'. simpl.
    by rewrite list_lookup_insert_eq.
  - intros i Hi Hne. unfold slot_calls. proj_arena. subst t'. simpl.
    rewrite list_lookup_insert_ne by lia. done.
  - done.
Qed.

Lemma arena_ext_redefer_replaces_finalizer_witness :
  exists s' a',
    arena_ext_redefer 1000 0 (FnUser 9) 99 defer1_state = Ok tt s' /\
    arenas s' !! 1000 = Some a' /\
    registry_wf a' [0] [] /\
    slot_calls (defer_tab a') [0] = [(FnUser 9, 99)].
Proof.
  assert (arenas defer1_state !! 1000 = Some (arena_at 1000 defer1_state)) as Hr
    by (vm_compute; reflexivity).
  assert (ndebug defer1_state = true \/
          magic (arena_at 1000 defer1_state) = ARENAIMP_MAGIC_ARENA) as Hm
    by (left; vm_compute; reflexivity).
  assert (0 <= 0 < num_defers (arena_at 1000 defer1_state)) as Hs
    by (vm_compute; split; [intros H; discriminate H|reflexivity]).
  destruct (arena_ext_redefer_replaces_finalizer 1000 0 (FnUser 9) 99 defer1_state
              (arena_at 1000 defer1_state) [0] [] ltac:(lia) Hr Hm
              defer1_state_registry Hs)
    as (s' & a' & H1 & H2 & H3 & H4 & _).
  exists s', a'. split; [exact H1|]. split; [exact H2|]. split; [exact H3|exact H4].
Defined.
